(** * MT5 deal processor: a shallow embedding of the dispatch engine

    The development follows the C++ sources component by component:
    models/TradeRequest.h and models/TradeResult.h (data), queue/ThreadSafeQueue.h,
    tracker/ResultTracker.cpp, processor/Validator.h, processor/DealProcessor.cpp,
    mt_api/MockMTAPI.cpp and client/ClientSimulator.cpp.

    Modelling conventions.
    - [int] values are integers of [Z] and every arithmetic operation on them is
      followed by [wrap32], the two's complement reduction to 32 bits.
    - [double] values are rationals of [Q]: comparisons and the four operations
      are exact; NaN, infinities and rounding are outside the model.  Module
      [IEEE] gives [Validator::validate], which only compares, over every
      value of a [double], NaN and infinities included; module [Exact] embeds
      the rational model in it.
    - [std::string] is [string]; [std::unordered_map] is [gmap],
      [std::unordered_set] is [gset], [std::vector] and [std::queue] are lists.
    - Every method runs under the mutex of its object, so one call is one
      atomic state transition; a concurrent execution is a sequence of such
      transitions.  Logger calls have no influence on any result and are left
      out. *)

From Stdlib Require Import ZArith QArith Qround Qabs Lia Lqa List Bool.
From stdpp Require Import base strings gmap list pretty.

Close Scope Q_scope.
Open Scope Z_scope.

(** ** Machine integers *)

Definition INT_MAX : Z := 2147483647.
Definition INT_MIN : Z := -2147483648.

Definition wrap32 (z : Z) : Z := (z + 2 ^ 31) mod 2 ^ 32 - 2 ^ 31.

Definition int_add (a b : Z) : Z := wrap32 (a + b).
Definition int_sub (a b : Z) : Z := wrap32 (a - b).
Definition int_mul (a b : Z) : Z := wrap32 (a * b).
Definition int_shl (a k : Z) : Z := wrap32 (Z.shiftl a k).

Definition in_int (z : Z) : Prop := INT_MIN <= z <= INT_MAX.

(** ** models/TradeResult.h and models/TradeRequest.h *)

Inductive TradeStatus : Set :=
  | SUCCESS
  | REJECTED
  | INVALID_PARAMS
  | CONNECTION_ERROR
  | MARGIN_ERROR
  | DUPLICATE
  | RETRY_EXHAUSTED.

Global Instance TradeStatus_eq_dec : EqDecision TradeStatus.
Proof. solve_decision. Defined.

Inductive TradeType : Set := BUY | SELL.

Global Instance TradeType_eq_dec : EqDecision TradeType.
Proof. solve_decision. Defined.

Module Req.
Record TradeRequest : Type := mk {
  clientId : string;
  requestId : string;
  tradeType : TradeType;
  symbol : string;
  volume : Q;
  stopLoss : option Q;
  takeProfit : option Q;
  timestamp : Z;
  isTestBadRequest : bool
}.
End Req.
Abbreviation TradeRequest := Req.TradeRequest.

Module Res.
Record TradeResult : Type := mk {
  requestId : string;
  clientId : string;
  status : TradeStatus;
  mtTicketId : string;
  executionPrice : Q;
  errorMessage : string;
  retryCount : Z;
  timestamp : Z
}.

Definition isSuccess (r : TradeResult) : bool :=
  bool_decide (status r = SUCCESS).

Definition isRetryable (r : TradeResult) : bool :=
  bool_decide (status r = CONNECTION_ERROR) || bool_decide (status r = REJECTED).

(** Field assignments [result.f = v]. *)
Definition set_requestId (i : string) (r : TradeResult) : TradeResult :=
  mk i (clientId r) (status r) (mtTicketId r) (executionPrice r)
     (errorMessage r) (retryCount r) (timestamp r).
Definition set_clientId (c : string) (r : TradeResult) : TradeResult :=
  mk (requestId r) c (status r) (mtTicketId r) (executionPrice r)
     (errorMessage r) (retryCount r) (timestamp r).
Definition set_timestamp (t : Z) (r : TradeResult) : TradeResult :=
  mk (requestId r) (clientId r) (status r) (mtTicketId r) (executionPrice r)
     (errorMessage r) (retryCount r) t.
Definition set_status (s : TradeStatus) (r : TradeResult) : TradeResult :=
  mk (requestId r) (clientId r) s (mtTicketId r) (executionPrice r)
     (errorMessage r) (retryCount r) (timestamp r).
Definition set_mtTicketId (t : string) (r : TradeResult) : TradeResult :=
  mk (requestId r) (clientId r) (status r) t (executionPrice r)
     (errorMessage r) (retryCount r) (timestamp r).
Definition set_executionPrice (p : Q) (r : TradeResult) : TradeResult :=
  mk (requestId r) (clientId r) (status r) (mtTicketId r) p
     (errorMessage r) (retryCount r) (timestamp r).
Definition set_errorMessage (m : string) (r : TradeResult) : TradeResult :=
  mk (requestId r) (clientId r) (status r) (mtTicketId r) (executionPrice r)
     m (retryCount r) (timestamp r).
Definition set_retryCount (n : Z) (r : TradeResult) : TradeResult :=
  mk (requestId r) (clientId r) (status r) (mtTicketId r) (executionPrice r)
     (errorMessage r) n (timestamp r).

(** [TradeResult result;] default-initialises the object: the strings are
    empty, the time point is the epoch, and the three scalar members
    [status], [executionPrice] and [retryCount] have no initialiser, so they
    hold whatever the storage held.  That content is the argument of
    [uninitialised]. *)
Record Indeterminate : Type := {
  ind_status : TradeStatus;
  ind_executionPrice : Q;
  ind_retryCount : Z
}.

Definition uninitialised (u : Indeterminate) : TradeResult :=
  mk "" "" (ind_status u) "" (ind_executionPrice u) "" (ind_retryCount u) 0.
End Res.
Abbreviation TradeResult := Res.TradeResult.

(** ** queue/ThreadSafeQueue.h *)

Module Queue.
Section ThreadSafeQueue.
Context {T : Type}.

Record ThreadSafeQueue : Type := mk {
  queue_ : list T;
  shutdown_ : bool
}.

Definition new : ThreadSafeQueue := mk [] false.

Definition push (item : T) (q : ThreadSafeQueue) : ThreadSafeQueue :=
  mk (queue_ q ++ [item]) (shutdown_ q).

(** [pop] waits on the condition variable until the queue is non-empty or
    the latch is set; [Waiting] is the outcome in a state where neither
    holds, so that the caller stays blocked. *)
Inductive PopOutcome : Type :=
  | Item (x : T)
  | Nullopt
  | Waiting.

Definition pop (q : ThreadSafeQueue) : PopOutcome * ThreadSafeQueue :=
  match queue_ q with
  | [] => if shutdown_ q then (Nullopt, q) else (Waiting, q)
  | item :: rest => (Item item, mk rest (shutdown_ q))
  end.

Definition tryPop (q : ThreadSafeQueue) : option T * ThreadSafeQueue :=
  match queue_ q with
  | [] => (None, q)
  | item :: rest => (Some item, mk rest (shutdown_ q))
  end.

Definition size (q : ThreadSafeQueue) : nat := length (queue_ q).

Definition empty (q : ThreadSafeQueue) : bool :=
  match queue_ q with [] => true | _ => false end.

Definition shutdown (q : ThreadSafeQueue) : ThreadSafeQueue :=
  mk (queue_ q) true.

(** [n] successive calls of [pop], the outcomes dropped. *)
Fixpoint pops (n : nat) (q : ThreadSafeQueue) : ThreadSafeQueue :=
  match n with
  | O => q
  | S n' => pops n' (snd (pop q))
  end.
End ThreadSafeQueue.
Arguments ThreadSafeQueue : clear implicits.
Arguments PopOutcome : clear implicits.
End Queue.

(** ** tracker/ResultTracker.cpp *)

Module Tracker.
Record Stats : Type := mkStats {
  totalRequests : Z;
  successful : Z;
  rejected : Z;
  errors : Z;
  duplicates : Z
}.

Record ResultTracker : Type := mk {
  results_ : gmap string TradeResult;
  clientRequests_ : gmap string (list string)
}.

Definition new : ResultTracker := mk ∅ ∅.

(** [results_[id] = result; clientRequests_[client].push_back(id)];
    [operator[]] on a missing client starts from an empty vector. *)
Definition record (result : TradeResult) (t : ResultTracker) : ResultTracker :=
  mk (<[Res.requestId result := result]> (results_ t))
     (<[Res.clientId result :=
          default [] (clientRequests_ t !! Res.clientId result)
            ++ [Res.requestId result]]> (clientRequests_ t)).

Definition getByRequestId (requestId : string) (t : ResultTracker)
  : option TradeResult :=
  results_ t !! requestId.

Definition getByClientId (clientId : string) (t : ResultTracker)
  : list TradeResult :=
  match clientRequests_ t !! clientId with
  | None => []
  | Some reqIds => omap (λ reqId, results_ t !! reqId) reqIds
  end.

(** One iteration of the statistics loops: [totalRequests++] and the
    [switch] on the status. *)
Definition count_result (result : TradeResult) (stats : Stats) : Stats :=
  let total := int_add (totalRequests stats) 1 in
  match Res.status result with
  | SUCCESS =>
      mkStats total (int_add (successful stats) 1) (rejected stats)
              (errors stats) (duplicates stats)
  | DUPLICATE =>
      mkStats total (successful stats) (rejected stats)
              (errors stats) (int_add (duplicates stats) 1)
  | REJECTED | MARGIN_ERROR | RETRY_EXHAUSTED =>
      mkStats total (successful stats) (int_add (rejected stats) 1)
              (errors stats) (duplicates stats)
  | CONNECTION_ERROR | INVALID_PARAMS =>
      mkStats total (successful stats) (rejected stats)
              (int_add (errors stats) 1) (duplicates stats)
  end.

Definition stats0 : Stats := mkStats 0 0 0 0 0.

(** The range-for over [results_] visits every entry once, in the order of
    the container; [map_to_list] fixes one such order. *)
Definition getStats (t : ResultTracker) : Stats :=
  foldl (λ stats entry, count_result (snd entry) stats)
        stats0 (map_to_list (results_ t)).

Definition getClientStats (clientId : string) (t : ResultTracker) : Stats :=
  match clientRequests_ t !! clientId with
  | None => stats0
  | Some reqIds =>
      foldl (λ stats reqId,
               match results_ t !! reqId with
               | None => stats
               | Some result => count_result result stats
               end)
            stats0 reqIds
  end.

(** The tracker after a sequence of [record] calls, first call first. *)
Definition record_all (rs : list TradeResult) (t : ResultTracker)
  : ResultTracker :=
  foldl (λ t r, record r t) t rs.

(** The aggregation table of the specification. *)
Inductive Bucket : Set := Successful | Duplicates | Rejected | Errors.

Global Instance Bucket_eq_dec : EqDecision Bucket.
Proof. solve_decision. Defined.

Definition bucket_of (s : TradeStatus) : Bucket :=
  match s with
  | SUCCESS => Successful
  | DUPLICATE => Duplicates
  | REJECTED => Rejected
  | MARGIN_ERROR => Rejected
  | RETRY_EXHAUSTED => Rejected
  | CONNECTION_ERROR => Errors
  | INVALID_PARAMS => Errors
  end.

(** Number of stored results whose status falls into bucket [b]. *)
Definition in_bucket (b : Bucket) (t : ResultTracker) : Z :=
  Z.of_nat (length (filter (λ entry, bucket_of (Res.status (snd entry)) = b)
                           (map_to_list (results_ t)))).

(** The request ids recorded for client [c] by the calls [rs], in call
    order, and the last result recorded under request id [id]. *)
Definition recorded_for (c : string) (rs : list TradeResult) : list string :=
  Res.requestId <$> filter (λ r, Res.clientId r = c) rs.

Definition last_recorded (id : string) (rs : list TradeResult)
  : option TradeResult :=
  last (filter (λ r, Res.requestId r = id) rs).

(** No request id is recorded under two client ids. *)
Definition one_client_per_request (rs : list TradeResult) : Prop :=
  ∀ r1 r2, r1 ∈ rs → r2 ∈ rs →
    Res.requestId r1 = Res.requestId r2 → Res.clientId r1 = Res.clientId r2.

(** A result with the given ids, for examples. *)
Definition sample (client request : string) (s : TradeStatus) : TradeResult :=
  Res.mk request client s "" 0%Q "" 0 0.
End Tracker.

(** ** Comparisons and printing of [double] values *)

Definition Qltb (x y : Q) : bool := (Qnum x * QDen y <? Qnum y * QDen x)%Z.
Definition Qleb (x y : Q) : bool := Qle_bool x y.

(** [std::to_string(double)]: the text of a [double] in fixed notation.  Its
    digits play no role below, so it is an interface. *)
Class DoubleToString : Type := to_string_double : Q → string.

(** [std::to_string(int)] and [std::to_string(uint64_t)]. *)
Definition to_string_int (z : Z) : string := pretty z.

(** ** mt_api/IMTBrokerAPI.h *)

Record SymbolInfo : Type := mkSymbolInfo {
  name : string;
  bid : Q;
  ask : Q;
  minVolume : Q;
  maxVolume : Q;
  volumeStep : Q;
  digits : Z;
  tradeAllowed : bool
}.

Record AccountInfo : Type := mkAccountInfo {
  login : Z;
  balance : Q;
  equity : Q;
  freeMargin : Q;
  marginLevel : Q;
  currency : string
}.

(** The abstract broker interface; [B] is the state of the implementation
    behind the reference [api_], threaded through every call. *)
Class IMTBrokerAPI (B : Type) : Type := {
  connect : string → Z → string → B → bool * B;
  disconnect : B → B;
  isConnected : B → bool;
  getSymbolInfo : string → B → option SymbolInfo * B;
  getAccountInfo : Z → B → option AccountInfo * B;
  executeTrade : TradeRequest → B → TradeResult * B;
  getTicketInfo : string → B → option TradeResult * B;
  getSymbols : B → list string * B
}.

(** What a worker does to the outside: the calls it makes on the broker and
    the pauses it takes, in program order. *)
Inductive Event : Type :=
  | CallGetSymbolInfo (symbol : string)
  | CallExecuteTrade (request : TradeRequest)
  | SleepFor (ms : Z).

Record World (B : Type) : Type := mkWorld {
  api_ : B;
  events : list Event
}.
Arguments mkWorld {B} _ _.
Arguments api_ {B} _.
Arguments events {B} _.

Definition is_execute_call (e : Event) : bool :=
  match e with
  | CallExecuteTrade _ => true
  | _ => false
  end.

Section Effects.
Context {B : Type} {broker : IMTBrokerAPI B}.

Definition api_getSymbolInfo (symbol : string) (w : World B)
  : option SymbolInfo * World B :=
  let '(info, b) := getSymbolInfo symbol (api_ w) in
  (info, mkWorld b (events w ++ [CallGetSymbolInfo symbol])).

Definition api_executeTrade (request : TradeRequest) (w : World B)
  : TradeResult * World B :=
  let '(result, b) := executeTrade request (api_ w) in
  (result, mkWorld b (events w ++ [CallExecuteTrade request])).

Definition sleep_for (ms : Z) (w : World B) : World B :=
  mkWorld (api_ w) (events w ++ [SleepFor ms]).
End Effects.

(** ** processor/Validator.h *)

Module Validator.
Record Validator : Type := mk {
  seenRequests_ : gset string
}.

Definition new : Validator := mk ∅.

(** [now] is the reading of [system_clock] taken by the call. *)
Definition makeError (req : TradeRequest) (status : TradeStatus)
    (msg : string) (now : Z) : TradeResult :=
  Res.mk (Req.requestId req) (Req.clientId req) status "" 0%Q msg 0 now.

Section Validate.
Context {B : Type} {broker : IMTBrokerAPI B} {text : DoubleToString}.

(** [x && *x <= 0.0] and [*x] for an optional [double]. *)
Definition present_and_le0 (x : option Q) : bool :=
  match x with
  | Some q => Qleb q 0
  | None => false
  end.

Definition deref (x : option Q) : Q := default 0%Q x.

(** The checks that follow the deduplication block; they do not touch the
    validator's own state. *)
Definition validate_params (request : TradeRequest) (now : Z) (w : World B)
  : option TradeResult * World B :=
  if bool_decide (Req.clientId request = "") then
    (Some (makeError request INVALID_PARAMS "Empty client ID" now), w)
  else if bool_decide (Req.symbol request = "") then
    (Some (makeError request INVALID_PARAMS "Empty symbol" now), w)
  else if Qleb (Req.volume request) 0 then
    (Some (makeError request INVALID_PARAMS
             ("Invalid volume: " +:+ to_string_double (Req.volume request)) now), w)
  else
    let '(symbolInfo, w) := api_getSymbolInfo (Req.symbol request) w in
    match symbolInfo with
    | None =>
        (Some (makeError request INVALID_PARAMS
                 ("Unknown symbol: " +:+ Req.symbol request) now), w)
    | Some info =>
        if negb (tradeAllowed info) then
          (Some (makeError request REJECTED
                   ("Trading not allowed for: " +:+ Req.symbol request) now), w)
        else if Qltb (Req.volume request) (minVolume info)
                || Qltb (maxVolume info) (Req.volume request) then
          (Some (makeError request INVALID_PARAMS
                   ("Volume " +:+ to_string_double (Req.volume request) +:+
                    " outside range [" +:+ to_string_double (minVolume info) +:+
                    ", " +:+ to_string_double (maxVolume info) +:+ "]") now), w)
        else if present_and_le0 (Req.stopLoss request) then
          (Some (makeError request INVALID_PARAMS
                   ("Invalid stop loss: " +:+
                    to_string_double (deref (Req.stopLoss request))) now), w)
        else if present_and_le0 (Req.takeProfit request) then
          (Some (makeError request INVALID_PARAMS
                   ("Invalid take profit: " +:+
                    to_string_double (deref (Req.takeProfit request))) now), w)
        else
          (None, w)
    end.

Definition validate (request : TradeRequest) (now : Z)
    (v : Validator) (w : World B)
  : option TradeResult * Validator * World B :=
  if bool_decide (Req.requestId request ∈ seenRequests_ v) then
    (Some (makeError request DUPLICATE
             ("Duplicate request ID: " +:+ Req.requestId request) now), v, w)
  else
    let v := mk ({[Req.requestId request]} ∪ seenRequests_ v) in
    let '(outcome, w) := validate_params request now w in
    (outcome, v, w).

(** A sequence of [validate] calls, in the order in which they pass the
    deduplication block; the outcomes are dropped. *)
Fixpoint validate_all (calls : list (TradeRequest * Z))
    (v : Validator) (w : World B) : Validator * World B :=
  match calls with
  | [] => (v, w)
  | (request, now) :: rest =>
      let '(_, v, w) := validate request now v w in
      validate_all rest v w
  end.
End Validate.

(** *** The check list of the specification (section 4.2) *)

Inductive Check : Set :=
  | Deduplication
  | Identity
  | VolumePositivity
  | SymbolExistence
  | TradePermission
  | VolumeRange
  | StopLossTakeProfit.

Definition check_order : list Check :=
  [Deduplication; Identity; VolumePositivity; SymbolExistence;
   TradePermission; VolumeRange; StopLossTakeProfit].

Definition check_status (c : Check) : TradeStatus :=
  match c with
  | Deduplication => DUPLICATE
  | TradePermission => REJECTED
  | _ => INVALID_PARAMS
  end.

Definition positive_if_present (x : option Q) : Prop :=
  match x with
  | Some q => (0 < q)%Q
  | None => True
  end.

(** [check_holds seen info request c]: check [c] of the specification passes
    for [request], where [seen] is the deduplication set on entry and [info]
    is the broker's answer to [getSymbolInfo(symbol)]. *)
Definition check_holds (seen : gset string) (info : option SymbolInfo)
    (request : TradeRequest) (c : Check) : Prop :=
  match c with
  | Deduplication => Req.requestId request ∉ seen
  | Identity => Req.clientId request ≠ "" ∧ Req.symbol request ≠ ""
  | VolumePositivity => (0 < Req.volume request)%Q
  | SymbolExistence => is_Some info
  | TradePermission => ∃ i, info = Some i ∧ tradeAllowed i = true
  | VolumeRange =>
      ∃ i, info = Some i ∧
           (minVolume i <= Req.volume request)%Q ∧
           (Req.volume request <= maxVolume i)%Q
  | StopLossTakeProfit =>
      positive_if_present (Req.stopLoss request) ∧
      positive_if_present (Req.takeProfit request)
  end.

(** [c] is the first check of [check_order] that fails. *)
Definition first_failing (seen : gset string) (info : option SymbolInfo)
    (request : TradeRequest) (c : Check) : Prop :=
  ∃ before after,
    check_order = before ++ c :: after ∧
    Forall (check_holds seen info request) before ∧
    ¬ check_holds seen info request c.

Definition is_duplicate (outcome : option TradeResult) : bool :=
  match outcome with
  | Some result => bool_decide (Res.status result = DUPLICATE)
  | None => false
  end.
End Validator.

(** ** processor/DealProcessor.cpp *)

Module DealProcessor.
Record ProcessorConfig : Type := mkConfig {
  numWorkers : Z;
  maxRetries : Z;
  retryBaseMs : Z
}.

Definition default_config : ProcessorConfig := mkConfig 4 3 100.

(** [int delayMs = config_.retryBaseMs * (1 << (attempt - 1));] *)
Definition delayMs (config : ProcessorConfig) (attempt : Z) : Z :=
  int_mul (retryBaseMs config) (int_shl 1 (int_sub attempt 1)).

(** The three assignments after the loop. *)
Definition exhausted (config : ProcessorConfig) (result : TradeResult)
  : TradeResult :=
  let result := Res.set_status RETRY_EXHAUSTED result in
  let result :=
    Res.set_errorMessage
      ("All " +:+ to_string_int (int_add (maxRetries config) 1) +:+
       " attempts failed. Last error: " +:+ Res.errorMessage result) result in
  Res.set_retryCount (maxRetries config) result.

Section Processor.
Context {B : Type} {broker : IMTBrokerAPI B} {text : DoubleToString}.

(** The [for] loop of [executeWithRetry], entered with the loop variable
    [attempt] and the current content of the local [result].  Each unit of
    [fuel] pays for one evaluation of the loop condition; [None] is the
    loop still running when the fuel is gone.  The worker id only names the
    worker in log lines. *)
Fixpoint retry_loop (fuel : nat) (config : ProcessorConfig)
    (request : TradeRequest) (attempt : Z) (result : TradeResult)
    (w : World B) : option (TradeResult * World B) :=
  match fuel with
  | O => None
  | S fuel' =>
      if attempt <=? maxRetries config then
        let w := if 0 <? attempt
                 then sleep_for (delayMs config attempt) w else w in
        let '(result, w) := api_executeTrade request w in
        let result := Res.set_retryCount attempt result in
        if Res.isSuccess result || negb (Res.isRetryable result) then
          Some (result, w)
        else
          retry_loop fuel' config request (int_add attempt 1) result w
      else
        Some (exhausted config result, w)
  end.

(** [u] is the content of the storage in which [TradeResult result;] is
    created. *)
Definition executeWithRetry (fuel : nat) (config : ProcessorConfig)
    (request : TradeRequest) (u : Res.Indeterminate) (w : World B)
  : option (TradeResult * World B) :=
  retry_loop fuel config request 0 (Res.uninitialised u) w.

Definition processRequest (fuel : nat) (config : ProcessorConfig)
    (request : TradeRequest) (now : Z) (u : Res.Indeterminate)
    (v : Validator.Validator) (w : World B)
  : option (TradeResult * Validator.Validator * World B) :=
  let '(validationError, v, w) := Validator.validate request now v w in
  match validationError with
  | Some error => Some (error, v, w)
  | None =>
      match executeWithRetry fuel config request u w with
      | Some (result, w) => Some (result, v, w)
      | None => None
      end
  end.

(** *** Broker answers along the attempts of one request *)

(** The broker after [n] successive [executeTrade(request)] calls. *)
Fixpoint broker_after (n : nat) (request : TradeRequest) (b : B) : B :=
  match n with
  | O => b
  | S n' => snd (executeTrade request (broker_after n' request b))
  end.

(** The answer to attempt [n] (counted from 0). *)
Definition response (n : nat) (request : TradeRequest) (b : B) : TradeResult :=
  fst (executeTrade request (broker_after n request b)).

(** The answer to the last of [n] attempts that start at index [attempt],
    with its retry count; [result] if there was no attempt. *)
Definition last_answer (n : nat) (attempt : Z) (request : TradeRequest)
    (b : B) (result : TradeResult) : TradeResult :=
  match n with
  | O => result
  | S n' => Res.set_retryCount (attempt + Z.of_nat n') (response n' request b)
  end.
End Processor.

(** The processor object; [C] is the type of the callbacks handed to
    [submit] ([None] is the null callback).  The worker threads themselves
    are not part of the state. *)
Record DealProcessor (C : Type) : Type := mk {
  config_ : ProcessorConfig;
  tracker_ : Tracker.ResultTracker;
  validator_ : Validator.Validator;
  queue_ : Queue.ThreadSafeQueue (TradeRequest * option C);
  running_ : bool
}.
Arguments mk {C} _ _ _ _ _.
Arguments config_ {C} _.
Arguments tracker_ {C} _.
Arguments validator_ {C} _.
Arguments queue_ {C} _.
Arguments running_ {C} _.

Definition new {C : Type} (config : ProcessorConfig) : DealProcessor C :=
  mk config Tracker.new Validator.new Queue.new false.


Definition submit {C : Type} (request : TradeRequest) (callback : option C)
    (p : DealProcessor C) : DealProcessor C :=
  if negb (running_ p) then p
  else mk (config_ p) (tracker_ p) (validator_ p)
          (Queue.push (request, callback) (queue_ p)) (running_ p).

(** [stop] up to the point where it starts joining the workers: the writes
    of the calling thread.  [Worker.stop_and_join] is the whole call. *)
Definition stop {C : Type} (p : DealProcessor C) : DealProcessor C :=
  if negb (running_ p) then p
  else mk (config_ p) (tracker_ p) (validator_ p)
          (Queue.shutdown (queue_ p)) false.

(** The events of one loop iteration, and of [n] iterations from
    [attempt] on. *)
Definition attempt_events (config : ProcessorConfig) (request : TradeRequest)
    (attempt : Z) : list Event :=
  (if 0 <? attempt then [SleepFor (delayMs config attempt)] else [])
  ++ [CallExecuteTrade request].

Fixpoint attempts_from (config : ProcessorConfig) (request : TradeRequest)
    (attempt : Z) (n : nat) : list Event :=
  match n with
  | O => []
  | S n' =>
      attempt_events config request attempt
      ++ attempts_from config request (attempt + 1) n'
  end.

(** *** The retry policy of the specification (section 4.3) *)

(** The pause between attempts [n] and [n+1]. *)
Definition backoff_ms (config : ProcessorConfig) (n : Z) : Z :=
  retryBaseMs config * 2 ^ n.

(** Attempt 0 at once, then a pause and the next attempt, up to attempt
    [k]; [pause n] is the pause between attempts [n] and [n+1]. *)
Fixpoint schedule (pause : Z → Z) (request : TradeRequest) (k : nat)
  : list Event :=
  match k with
  | O => [CallExecuteTrade request]
  | S k' =>
      schedule pause request k'
      ++ [SleepFor (pause (Z.of_nat k')); CallExecuteTrade request]
  end.

Definition retryable_status (s : TradeStatus) : Prop :=
  s = CONNECTION_ERROR ∨ s = REJECTED.
End DealProcessor.

(** ** mt_api/MockMTAPI.cpp *)

Module MockMTAPI.
(** [rng_] with its two distributions.  The engine is an oracle: draw number
    [n] of [failDist_] is [real_draw n], that of [latencyDist_] is
    [int_draw n], and every draw advances the engine by one. *)
Record Rng : Type := mkRng {
  real_draw : nat → Q;
  int_draw : nat → Z;
  position : nat
}.

Definition failDist (g : Rng) : Q * Rng :=
  (real_draw g (position g), mkRng (real_draw g) (int_draw g) (S (position g))).

Definition latencyDist (g : Rng) : Z * Rng :=
  (int_draw g (position g), mkRng (real_draw g) (int_draw g) (S (position g))).

(** The members of the class, then the two things a call reads from its
    surroundings: [now_], the reading of [system_clock], and [storage_], the
    content of the storage in which [executeTrade] creates its result. *)
Record MockMTAPI : Type := mk {
  connected_ : bool;
  failureRate_ : Q;
  ticketCounter_ : Z;
  symbols_ : gmap string SymbolInfo;
  account_ : AccountInfo;
  executedTrades_ : gmap string TradeResult;
  rng_ : Rng;
  now_ : Z;
  storage_ : Res.Indeterminate
}.

Definition set_rng (g : Rng) (m : MockMTAPI) : MockMTAPI :=
  mk (connected_ m) (failureRate_ m) (ticketCounter_ m) (symbols_ m)
     (account_ m) (executedTrades_ m) g (now_ m) (storage_ m).
Definition set_connected (c : bool) (m : MockMTAPI) : MockMTAPI :=
  mk c (failureRate_ m) (ticketCounter_ m) (symbols_ m)
     (account_ m) (executedTrades_ m) (rng_ m) (now_ m) (storage_ m).
Definition set_account (a : AccountInfo) (m : MockMTAPI) : MockMTAPI :=
  mk (connected_ m) (failureRate_ m) (ticketCounter_ m) (symbols_ m)
     a (executedTrades_ m) (rng_ m) (now_ m) (storage_ m).
Definition set_ticketCounter (n : Z) (m : MockMTAPI) : MockMTAPI :=
  mk (connected_ m) (failureRate_ m) n (symbols_ m)
     (account_ m) (executedTrades_ m) (rng_ m) (now_ m) (storage_ m).
Definition set_executedTrades (t : gmap string TradeResult) (m : MockMTAPI)
  : MockMTAPI :=
  mk (connected_ m) (failureRate_ m) (ticketCounter_ m) (symbols_ m)
     (account_ m) t (rng_ m) (now_ m) (storage_ m).

Definition initial_symbols : gmap string SymbolInfo :=
  <["EURUSD" := mkSymbolInfo "EURUSD" 1.08450 1.08465 0.01 100 0.01 5 true]>
  (<["GBPUSD" := mkSymbolInfo "GBPUSD" 1.26320 1.26340 0.01 100 0.01 5 true]>
  (<["USDJPY" := mkSymbolInfo "USDJPY" 149.850 149.865 0.01 100 0.01 3 true]>
  (<["AUDUSD" := mkSymbolInfo "AUDUSD" 0.65230 0.65248 0.01 100 0.01 5 true]>
  (<["USDCAD" := mkSymbolInfo "USDCAD" 1.35720 1.35738 0.01 100 0.01 5 true]>
  (<["XAUUSD" := mkSymbolInfo "XAUUSD" 2035.50 2036.00 0.01 50 0.01 2 true]>
   ∅))))).

Definition initial_account : AccountInfo :=
  mkAccountInfo 12345 100000 100000 100000 0 "USD".

(** The constructor; the seed of the engine, the clock and the storage are
    given from outside. *)
Definition new (failureRate : Q) (g : Rng) (now : Z) (u : Res.Indeterminate)
  : MockMTAPI :=
  mk false failureRate 100000 initial_symbols initial_account ∅ g now u.

Definition simulateLatency (m : MockMTAPI) : MockMTAPI :=
  let '(_, g) := latencyDist (rng_ m) in
  set_rng g m.

Definition shouldFail (m : MockMTAPI) : bool * MockMTAPI :=
  let '(x, g) := failDist (rng_ m) in
  (Qltb x (failureRate_ m), set_rng g m).

Definition generatePrice (symbol : string) (type : TradeType) (m : MockMTAPI)
  : Q * MockMTAPI :=
  match symbols_ m !! symbol with
  | None => (0%Q, m)
  | Some info =>
      let basePrice := if bool_decide (type = BUY) then ask info else bid info in
      let '(x, g) := failDist (rng_ m) in
      let slippage := ((x - 0.5) * 0.00005)%Q in
      ((basePrice + slippage)%Q, set_rng g m)
  end.

(** [fetch_add(1)] on the 64-bit counter, then [std::to_string]. *)
Definition generateTicketId (m : MockMTAPI) : string * MockMTAPI :=
  let id := ticketCounter_ m in
  (to_string_int id, set_ticketCounter ((id + 1) mod 2 ^ 64) m).

(** [std::round]: to the nearest integer, halfway cases away from zero. *)
Definition round (x : Q) : Q :=
  if Qleb 0 x then inject_Z (Qfloor (x + 0.5))
  else (- inject_Z (Qfloor (- x + 0.5)))%Q.

Section Methods.
Context {text : DoubleToString}.

Definition connect (server : string) (login_ : Z) (password : string)
    (m : MockMTAPI) : bool * MockMTAPI :=
  let m := simulateLatency m in
  let m := set_connected true m in
  let a := account_ m in
  (true, set_account (mkAccountInfo login_ (balance a) (equity a)
                        (freeMargin a) (marginLevel a) (currency a)) m).

Definition disconnect (m : MockMTAPI) : MockMTAPI := set_connected false m.

Definition isConnected (m : MockMTAPI) : bool := connected_ m.

Definition getSymbolInfo (symbol : string) (m : MockMTAPI)
  : option SymbolInfo * MockMTAPI :=
  match symbols_ m !! symbol with
  | None => (None, m)
  | Some info =>
      let '(x, g) := failDist (rng_ m) in
      let variation := ((x - 0.5) * 0.0010)%Q in
      (Some (mkSymbolInfo (name info) (bid info + variation)%Q
               (ask info + variation)%Q (minVolume info) (maxVolume info)
               (volumeStep info) (digits info) (tradeAllowed info)),
       set_rng g m)
  end.

Definition getAccountInfo (login_ : Z) (m : MockMTAPI)
  : option AccountInfo * MockMTAPI :=
  if bool_decide (login_ ≠ login (account_ m)) then (None, m)
  else (Some (account_ m), m).

Definition fail_with (status : TradeStatus) (msg : string)
    (result : TradeResult) : TradeResult :=
  Res.set_errorMessage msg (Res.set_status status result).

Definition executeTrade (request : TradeRequest) (m : MockMTAPI)
  : TradeResult * MockMTAPI :=
  let result := Res.uninitialised (storage_ m) in
  let result := Res.set_requestId (Req.requestId request) result in
  let result := Res.set_clientId (Req.clientId request) result in
  let result := Res.set_retryCount 0 result in
  let result := Res.set_timestamp (now_ m) result in
  let m := simulateLatency m in
  let '(fail, m) := shouldFail m in
  if fail then
    (fail_with CONNECTION_ERROR
       "MT5 server connection timeout during DealerSend()" result, m)
  else
    match symbols_ m !! Req.symbol request with
    | None =>
        (fail_with INVALID_PARAMS
           ("Symbol '" +:+ Req.symbol request +:+
            "' not found (SymbolGet failed)") result, m)
    | Some info =>
        if negb (tradeAllowed info) then
          (fail_with REJECTED
             ("Trading disabled for symbol '" +:+ Req.symbol request +:+ "'")
             result, m)
        else if Qltb (Req.volume request) (minVolume info)
                || Qltb (maxVolume info) (Req.volume request) then
          (fail_with INVALID_PARAMS
             ("Volume " +:+ to_string_double (Req.volume request) +:+
              " outside allowed range [" +:+
              to_string_double (minVolume info) +:+ ", " +:+
              to_string_double (maxVolume info) +:+ "]") result, m)
        else
          let steps := (Req.volume request / volumeStep info)%Q in
          let rounded := round steps in
          if Qltb 0.000001 (Qabs (steps - rounded)) then
            (fail_with INVALID_PARAMS
               ("Volume " +:+ to_string_double (Req.volume request) +:+
                " not aligned to step " +:+
                to_string_double (volumeStep info)) result, m)
          else
            let requiredMargin := (Req.volume request * 1000)%Q in
            let a := account_ m in
            if Qltb (freeMargin a) requiredMargin then
              (fail_with MARGIN_ERROR
                 ("Insufficient margin. Required: $" +:+
                  to_string_double requiredMargin +:+ ", Available: $" +:+
                  to_string_double (freeMargin a)) result, m)
            else
              let m :=
                set_account
                  (mkAccountInfo (login a) (balance a)
                     (equity a - requiredMargin * 0.001)%Q
                     (freeMargin a - requiredMargin)%Q
                     (marginLevel a) (currency a)) m in
              let '(price, m) :=
                generatePrice (Req.symbol request) (Req.tradeType request) m in
              let '(ticket, m) := generateTicketId m in
              let result := Res.set_status SUCCESS result in
              let result := Res.set_mtTicketId ticket result in
              let result := Res.set_executionPrice price result in
              (result, set_executedTrades
                         (<[ticket := result]> (executedTrades_ m)) m)
    end.

Definition getTicketInfo (ticketId : string) (m : MockMTAPI)
  : option TradeResult * MockMTAPI :=
  (executedTrades_ m !! ticketId, m).

Definition getSymbols (m : MockMTAPI) : list string * MockMTAPI :=
  ((map_to_list (symbols_ m)).*1, m).

Global Instance MockMTAPI_broker : IMTBrokerAPI MockMTAPI :=
  Build_IMTBrokerAPI MockMTAPI connect disconnect isConnected getSymbolInfo
    getAccountInfo executeTrade getTicketInfo getSymbols.
End Methods.

(** What the distributions guarantee: [failDist_] draws from [0, 1). *)
Definition rng_ok (g : Rng) : Prop :=
  ∀ n, (0 <= real_draw g n)%Q ∧ (real_draw g n < 1)%Q.

(** Every quote of the table lies above one half. *)
Definition quotes_ok (m : MockMTAPI) : Prop :=
  map_Forall (λ _ info, (0.5 < bid info)%Q ∧ (0.5 < ask info)%Q) (symbols_ m).
End MockMTAPI.

(** The invariant of the specification on one result:
    [status = SUCCESS] iff there is a ticket, a positive price and no
    message. *)
Definition success_iff_ticketed (r : TradeResult) : Prop :=
  Res.status r = SUCCESS
  ↔ Res.mtTicketId r ≠ "" ∧ (0 < Res.executionPrice r)%Q
    ∧ Res.errorMessage r = "".

(** ** Sample data for the examples *)

Module Examples.
(** A rendering of [double] values with six decimals, a tie going to the
    even digit, as [std::to_string] writes them. *)
Definition fixed6 : DoubleToString := λ q,
  let scaled := (Qabs q * 1000000)%Q in
  let below := Qfloor scaled in
  let rest := (scaled - inject_Z below)%Q in
  let n := if Qltb rest 0.5 then below
           else if Qltb 0.5 rest then below + 1
           else if Z.even below then below else below + 1 in
  (if Qltb q 0 then "-" else "") +:+ pretty (n / 1000000) +:+ "." +:+
  String.substring 1 6 (pretty (1000000 + n mod 1000000)).

(** An engine whose [failDist_] always draws one half. *)
Definition steady : MockMTAPI.Rng := MockMTAPI.mkRng (λ _, 0.5%Q) (λ _, 10) 0.

Definition leftover : Res.Indeterminate :=
  {| Res.ind_status := SUCCESS;
     Res.ind_executionPrice := 1234.5%Q;
     Res.ind_retryCount := 7 |}.

(** A broker that accepts every well-formed trade, and one whose every
    [executeTrade] times out. *)
Definition accepting : MockMTAPI.MockMTAPI := MockMTAPI.new 0 steady 0 leftover.
Definition failing : MockMTAPI.MockMTAPI := MockMTAPI.new 1 steady 0 leftover.

(** A broker whose first two [executeTrade] calls time out when they come
    after one [getSymbolInfo] call: draws 2 and 4 of the engine are the
    [shouldFail] draws of those calls. *)
Definition flaky : MockMTAPI.MockMTAPI :=
  MockMTAPI.new 0.05
    (MockMTAPI.mkRng (λ n, if (n <? 5)%nat then 0%Q else 0.5%Q) (λ _, 10) 0)
    0 leftover.

Definition buy_eurusd : TradeRequest :=
  Req.mk "C1" "C1-000000" BUY "EURUSD" 0.10 None None 0 false.

Definition zero_volume : TradeRequest :=
  Req.mk "C1" "C1-000000" SELL "EURUSD" 0 None None 0 true.

Definition unknown_symbol : TradeRequest :=
  Req.mk "C1" "C1-000001" BUY "INVALID" 0.1 None None 0 true.

Definition broker : IMTBrokerAPI MockMTAPI.MockMTAPI :=
  @MockMTAPI.MockMTAPI_broker fixed6.

Definition world (b : MockMTAPI.MockMTAPI) : World MockMTAPI.MockMTAPI :=
  mkWorld b [].
End Examples.

(** ** Runs of queue operations *)

Module QueueRun.
Section Runs.
Context {T : Type}.

(** The items of [items] pushed one after the other, first item first. *)
Definition push_all (items : list T) (q : Queue.ThreadSafeQueue T)
  : Queue.ThreadSafeQueue T :=
  foldl (λ q item, Queue.push item q) q items.

(** [n] successive calls of [pop] with their outcomes, first call first. *)
Fixpoint pop_n (n : nat) (q : Queue.ThreadSafeQueue T)
  : list (Queue.PopOutcome T) * Queue.ThreadSafeQueue T :=
  match n with
  | O => ([], q)
  | S n' =>
      let '(outcome, q) := Queue.pop q in
      let '(outcomes, q) := pop_n n' q in
      (outcome :: outcomes, q)
  end.
End Runs.
End QueueRun.

(** ** tracker/ResultTracker.cpp: the per-client rows of [printSummary] *)

Module Summary.
(** The counters [ok], [fail] and [dup] of one row. *)
Record Counts : Type := mkCounts {
  ok : Z;
  fail : Z;
  dup : Z
}.

(** The body of the inner loop for a request id that [results_] holds. *)
Definition row_step (result : TradeResult) (acc : Counts) : Counts :=
  if Res.isSuccess result then
    mkCounts (int_add (ok acc) 1) (fail acc) (dup acc)
  else if bool_decide (Res.status result = DUPLICATE) then
    mkCounts (ok acc) (fail acc) (int_add (dup acc) 1)
  else
    mkCounts (ok acc) (int_add (fail acc) 1) (dup acc).

(** One iteration of the inner loop over the request ids of a client; an id
    that [results_] does not hold is skipped. *)
Definition count_row (t : Tracker.ResultTracker) (acc : Counts)
    (reqId : string) : Counts :=
  match Tracker.results_ t !! reqId with
  | None => acc
  | Some result => row_step result acc
  end.

(** The numbers of the row printed for one entry of [clientRequests_]:
    the column Total is [reqIds.size()], then OK, Fail and Dup. *)
Definition row (t : Tracker.ResultTracker) (reqIds : list string)
  : nat * Counts :=
  (length reqIds, foldl (count_row t) (mkCounts 0 0 0) reqIds).

(** The rows of the per-client breakdown, one per entry of
    [clientRequests_], in the order of the container. *)
Definition breakdown (t : Tracker.ResultTracker)
  : list (string * (nat * Counts)) :=
  (λ entry, (fst entry, row t (snd entry)))
    <$> map_to_list (Tracker.clientRequests_ t).

(** Number of results of [l] whose status falls into bucket [b]. *)
Definition tally (b : Tracker.Bucket) (l : list TradeResult) : Z :=
  Z.of_nat (length (filter (λ r, Tracker.bucket_of (Res.status r) = b) l)).

(** Number of [record] calls of [rs] made for client [c]. *)
Definition calls_for (c : string) (rs : list TradeResult) : nat :=
  length (filter (λ r, Res.clientId r = c) rs).
End Summary.

(** ** Sequences of [validate] calls with their outcomes *)

Module ValidatorRun.
Section Runs.
Context {B : Type} {broker : IMTBrokerAPI B} {text : DoubleToString}.

(** The calls of [calls] made one after the other, in the order in which
    they pass the deduplication block, with the outcome of each. *)
Fixpoint validate_each (calls : list (TradeRequest * Z))
    (v : Validator.Validator) (w : World B)
  : list (option TradeResult) * Validator.Validator * World B :=
  match calls with
  | [] => ([], v, w)
  | (request, now) :: rest =>
      let '(outcome, v, w) := Validator.validate request now v w in
      let '(outcomes, v, w) := validate_each rest v w in
      (outcome :: outcomes, v, w)
  end.
End Runs.

Definition request_ids (calls : list (TradeRequest * Z)) : list string :=
  (λ call, Req.requestId (fst call)) <$> calls.

(** The outcomes that are not [DUPLICATE]. *)
Definition admitted (outcomes : list (option TradeResult))
  : list (option TradeResult) :=
  filter (λ outcome, Validator.is_duplicate outcome = false) outcomes.
End ValidatorRun.

(** ** processor/DealProcessor.cpp: submissions and the worker loop *)

Module Worker.
(** The pauses of a run, added up, in milliseconds. *)
Definition total_pause (trace : list Event) : Z :=
  foldr (λ e sum, match e with SleepFor ms => ms + sum | _ => sum end) 0 trace.

(** The calls [submit(request, callback)] of [items], first item first. *)
Definition submit_all {C : Type} (items : list (TradeRequest * option C))
    (p : DealProcessor.DealProcessor C) : DealProcessor.DealProcessor C :=
  foldl (λ p item, DealProcessor.submit (fst item) (snd item) p) p items.


Section Loop.
Context {B : Type} {broker : IMTBrokerAPI B} {text : DoubleToString}.
Context {C : Type}.



End Loop.

End Worker.

(** ** Runs of trades on the mock broker *)

Module MockRun.
Section Runs.
Context {text : DoubleToString}.

(** [executeTrade] called for each request of [requests], first request
    first, with the answers. *)
Fixpoint execute_all (requests : list TradeRequest)
    (m : MockMTAPI.MockMTAPI) : list TradeResult * MockMTAPI.MockMTAPI :=
  match requests with
  | [] => ([], m)
  | request :: rest =>
      let '(result, m) := MockMTAPI.executeTrade request m in
      let '(results, m) := execute_all rest m in
      (result :: results, m)
  end.
End Runs.

(** The tickets of the successful answers. *)
Definition tickets (results : list TradeResult) : list string :=
  Res.mtTicketId <$> filter (λ r, Res.status r = SUCCESS) results.

(** The margin of the requests that were executed: [volume * 1000.0] for
    each request whose answer is a success. *)
Fixpoint reserved (requests : list TradeRequest)
    (results : list TradeResult) : Q :=
  match requests, results with
  | request :: requests, result :: results =>
      if bool_decide (Res.status result = SUCCESS)
      then (Req.volume request * 1000 + reserved requests results)%Q
      else reserved requests results
  | _, _ => 0%Q
  end.
End MockRun.

(** ** models/TradeRequest.h: request ids *)

Module RequestId.
Import Stdlib.Strings.Ascii.

(** [std::setfill('0') << std::setw(6)]: a text shorter than six characters
    is filled up with zeros on the left, a longer one is left as it is. *)
Fixpoint zeros (n : nat) : string :=
  match n with
  | O => ""
  | S n => String "0"%char (zeros n)
  end.

Definition setw6 (s : string) : string :=
  zeros (6 - String.length s) +:+ s.

(** [generateRequestId]: [counter] is the function's static 64-bit counter,
    read and advanced by [fetch_add(1)]. *)
Definition generateRequestId (clientId : string) (counter : Z) : string * Z :=
  (clientId +:+ "-" +:+ setw6 (to_string_int counter),
   (counter + 1) mod 2 ^ 64).

(** One call for each client id of [clientIds], in this order. *)
Fixpoint generate_ids (clientIds : list string) (counter : Z) : list string :=
  match clientIds with
  | [] => []
  | clientId :: rest =>
      let '(id, counter) := generateRequestId clientId counter in
      id :: generate_ids rest counter
  end.

(** Reading a text back: no dash in it, and its value as a decimal. *)
Fixpoint no_dash (s : string) : bool :=
  match s with
  | EmptyString => true
  | String a s => negb (Ascii.eqb a "-"%char) && no_dash s
  end.

Definition digit (a : ascii) : N := (N_of_ascii a - 48)%N.

Fixpoint read (acc : N) (s : string) : N :=
  match s with
  | EmptyString => acc
  | String a s => read (acc * 10 + digit a)%N s
  end.
End RequestId.

(** ** client/ClientSimulator.cpp *)

Module ClientSimulator.
Record Config : Type := mkConfig {
  clientId : string;
  numRequests : Z;
  minDelayMs : Z;
  maxDelayMs : Z;
  sendBadRequests : bool
}.

Definition symbols_ : list string :=
  ["EURUSD"; "GBPUSD"; "USDJPY"; "AUDUSD"; "USDCAD"; "XAUUSD"].

(** [generateRequest].  [counter] is the counter of [generateRequestId],
    [now] the reading of the clock; [typeDraw], [symbolDraw], [volumeDraw]
    and [slTpDraw] are the values drawn from [typeDist] (0..1), [symbolDist]
    (0..5), [volumeDist] (1..50) and [slTpChance] (0..100), in the order in
    which the function draws them.  [symbols_[i]] is read for an index of
    the vector only; the empty text stands for any other read. *)
Definition generateRequest (config : Config) (counter now : Z)
    (typeDraw symbolDraw volumeDraw slTpDraw : Z) : TradeRequest * Z :=
  let '(id, counter) := RequestId.generateRequestId (clientId config) counter in
  let tradeType := if bool_decide (typeDraw = 0) then BUY else SELL in
  let symbol := default "" (symbols_ !! Z.to_nat symbolDraw) in
  let volume := (inject_Z volumeDraw * 0.01)%Q in
  let basePrice :=
    if bool_decide (symbol = "XAUUSD") then 2035.0%Q
    else if bool_decide (symbol = "USDJPY") then 149.0%Q else 1.0%Q in
  let offset := (basePrice * 0.005)%Q in
  let '(stopLoss, takeProfit) :=
    if bool_decide (slTpDraw < 40) then
      if bool_decide (tradeType = BUY)
      then (Some (basePrice - offset)%Q, Some (basePrice + offset)%Q)
      else (Some (basePrice + offset)%Q, Some (basePrice - offset)%Q)
    else (None, None) in
  (Req.mk (clientId config) id tradeType symbol volume stopLoss takeProfit
     now false, counter).

(** [generateBadRequest].  [errorDraw] is the value drawn from [errorType]
    (0..3); [tradeType0] and [volume0] are what the storage of [req] holds
    in the two members that only the cases of the [switch] assign. *)
Definition generateBadRequest (config : Config) (counter now : Z)
    (errorDraw : Z) (tradeType0 : TradeType) (volume0 : Q)
  : TradeRequest * Z :=
  let '(id, counter) := RequestId.generateRequestId (clientId config) counter in
  let req tradeType symbol volume stopLoss :=
    Req.mk (clientId config) id tradeType symbol volume stopLoss None
      now true in
  (match errorDraw with
   | 0 => req BUY "INVALID" 0.1%Q None
   | 1 => req SELL "EURUSD" 0.0%Q None
   | 2 => req BUY "EURUSD" 999.0%Q None
   | 3 => req SELL "GBPUSD" 0.1%Q (Some (-1.0)%Q)
   | _ => req tradeType0 "" volume0 None
   end, counter).
End ClientSimulator.

(** ** The validator over every [double]

    The modules above take a [double] for the number it denotes, which
    leaves out the values that are not numbers.  [Validator::validate] only
    compares the doubles it is given, and a comparison with a NaN is false
    whichever way it is asked, so the function is given here once more, over
    every value a [double] can hold.  [Exact] embeds the requests and symbol
    records of the modules above, and on them the two agree. *)

Module Double.
(** A finite value is the rational it denotes, minus zero apart; an
    infinity and a NaN carry their sign. *)
Inductive double : Type :=
  | Finite (q : Q)
  | NegZero
  | Inf (negative : bool)
  | NaN (negative : bool).

(** Where a value lies on the number line; a NaN lies nowhere. *)
Inductive Place : Type :=
  | Below
  | At (q : Q)
  | Above.

Definition place (x : double) : option Place :=
  match x with
  | Finite q => Some (At q)
  | NegZero => Some (At 0%Q)
  | Inf true => Some Below
  | Inf false => Some Above
  | NaN _ => None
  end.

Definition place_ltb (a b : Place) : bool :=
  match a, b with
  | Below, Below => false
  | Below, _ => true
  | At _, Below => false
  | At x, At y => Qltb x y
  | At _, Above => true
  | Above, _ => false
  end.

Definition place_leb (a b : Place) : bool :=
  match a, b with
  | Below, _ => true
  | At _, Below => false
  | At x, At y => Qleb x y
  | At _, Above => true
  | Above, Above => true
  | Above, _ => false
  end.

(** [x < y] and [x <= y]: false as soon as one side is a NaN. *)
Definition ltb (x y : double) : bool :=
  match place x, place y with
  | Some a, Some b => place_ltb a b
  | _, _ => false
  end.

Definition leb (x y : double) : bool :=
  match place x, place y with
  | Some a, Some b => place_leb a b
  | _, _ => false
  end.

Definition is_nan (x : double) : bool :=
  match x with
  | NaN _ => true
  | _ => false
  end.

Definition zero : double := Finite 0%Q.
End Double.
Abbreviation double := Double.double.

Module IEEE.
(** models/TradeRequest.h and the [SymbolInfo] of mt_api/IMTBrokerAPI.h. *)
Record TradeRequest : Type := mk {
  clientId : string;
  requestId : string;
  tradeType : TradeType;
  symbol : string;
  volume : double;
  stopLoss : option double;
  takeProfit : option double;
  timestamp : Z;
  isTestBadRequest : bool
}.

Record Symbol : Type := mkSymbol {
  name : string;
  bid : double;
  ask : double;
  minVolume : double;
  maxVolume : double;
  volumeStep : double;
  digits : Z;
  tradeAllowed : bool
}.

Definition makeError (req : TradeRequest) (status : TradeStatus)
    (msg : string) (now : Z) : TradeResult :=
  Res.mk (requestId req) (clientId req) status "" 0%Q msg 0 now.

(** [x && *x <= 0.0] and [*x] for an optional [double]. *)
Definition present_and_le0 (x : option double) : bool :=
  match x with
  | Some d => Double.leb d Double.zero
  | None => false
  end.

Definition deref (x : option double) : double := default Double.zero x.

Section Validate.
Context {B : Type}.
(** The broker's [getSymbolInfo] and [std::to_string(double)]. *)
Variable getSymbolInfo : string → B → option Symbol * B.
Variable to_string : double → string.

Definition api_getSymbolInfo (symbol : string) (w : World B)
  : option Symbol * World B :=
  let '(info, b) := getSymbolInfo symbol (api_ w) in
  (info, mkWorld b (events w ++ [CallGetSymbolInfo symbol])).

Definition validate_params (request : TradeRequest) (now : Z) (w : World B)
  : option TradeResult * World B :=
  if bool_decide (clientId request = "") then
    (Some (makeError request INVALID_PARAMS "Empty client ID" now), w)
  else if bool_decide (symbol request = "") then
    (Some (makeError request INVALID_PARAMS "Empty symbol" now), w)
  else if Double.leb (volume request) Double.zero then
    (Some (makeError request INVALID_PARAMS
             ("Invalid volume: " +:+ to_string (volume request)) now), w)
  else
    let '(symbolInfo, w) := api_getSymbolInfo (symbol request) w in
    match symbolInfo with
    | None =>
        (Some (makeError request INVALID_PARAMS
                 ("Unknown symbol: " +:+ symbol request) now), w)
    | Some info =>
        if negb (tradeAllowed info) then
          (Some (makeError request REJECTED
                   ("Trading not allowed for: " +:+ symbol request) now), w)
        else if Double.ltb (volume request) (minVolume info)
                || Double.ltb (maxVolume info) (volume request) then
          (Some (makeError request INVALID_PARAMS
                   ("Volume " +:+ to_string (volume request) +:+
                    " outside range [" +:+ to_string (minVolume info) +:+
                    ", " +:+ to_string (maxVolume info) +:+ "]") now), w)
        else if present_and_le0 (stopLoss request) then
          (Some (makeError request INVALID_PARAMS
                   ("Invalid stop loss: " +:+
                    to_string (deref (stopLoss request))) now), w)
        else if present_and_le0 (takeProfit request) then
          (Some (makeError request INVALID_PARAMS
                   ("Invalid take profit: " +:+
                    to_string (deref (takeProfit request))) now), w)
        else
          (None, w)
    end.

Definition validate (request : TradeRequest) (now : Z)
    (v : Validator.Validator) (w : World B)
  : option TradeResult * Validator.Validator * World B :=
  if bool_decide (requestId request ∈ Validator.seenRequests_ v) then
    (Some (makeError request DUPLICATE
             ("Duplicate request ID: " +:+ requestId request) now), v, w)
  else
    let v := Validator.mk ({[requestId request]} ∪ Validator.seenRequests_ v) in
    let '(outcome, w) := validate_params request now w in
    (outcome, v, w).

End Validate.

(** *** The check list of the specification (section 4.2), twice *)

Definition positive_if_present (x : option double) : Prop :=
  match x with
  | Some d => Double.ltb Double.zero d = true
  | None => True
  end.

(** [holds]: check [c] as the specification words it: the volume is
    positive, it lies between the limits, stop loss and take profit are
    positive. *)
Definition holds (seen : gset string) (info : option Symbol)
    (request : TradeRequest) (c : Validator.Check) : Prop :=
  match c with
  | Validator.Deduplication => requestId request ∉ seen
  | Validator.Identity => clientId request ≠ "" ∧ symbol request ≠ ""
  | Validator.VolumePositivity => Double.ltb Double.zero (volume request) = true
  | Validator.SymbolExistence => is_Some info
  | Validator.TradePermission => ∃ i, info = Some i ∧ tradeAllowed i = true
  | Validator.VolumeRange =>
      ∃ i, info = Some i
           ∧ Double.leb (minVolume i) (volume request) = true
           ∧ Double.leb (volume request) (maxVolume i) = true
  | Validator.StopLossTakeProfit =>
      positive_if_present (stopLoss request)
      ∧ positive_if_present (takeProfit request)
  end.

(** [passes]: check [c] as the code tests it: the comparison that raises
    the error is false. *)
Definition passes (seen : gset string) (info : option Symbol)
    (request : TradeRequest) (c : Validator.Check) : Prop :=
  match c with
  | Validator.VolumePositivity =>
      Double.leb (volume request) Double.zero = false
  | Validator.VolumeRange =>
      ∃ i, info = Some i
           ∧ Double.ltb (volume request) (minVolume i) = false
           ∧ Double.ltb (maxVolume i) (volume request) = false
  | Validator.StopLossTakeProfit =>
      present_and_le0 (stopLoss request) = false
      ∧ present_and_le0 (takeProfit request) = false
  | _ => holds seen info request c
  end.

(** [c] is the first check of the list that does not pass. *)
Definition first_failing (seen : gset string) (info : option Symbol)
    (request : TradeRequest) (c : Validator.Check) : Prop :=
  ∃ before after,
    Validator.check_order = before ++ c :: after ∧
    Forall (passes seen info request) before ∧
    ¬ passes seen info request c.

End IEEE.

(** The requests, symbol records, brokers and texts of the modules above,
    among those of [IEEE]. *)
Module Exact.
Definition request (r : TradeRequest) : IEEE.TradeRequest :=
  IEEE.mk (Req.clientId r) (Req.requestId r) (Req.tradeType r) (Req.symbol r)
    (Double.Finite (Req.volume r)) (Double.Finite <$> Req.stopLoss r)
    (Double.Finite <$> Req.takeProfit r) (Req.timestamp r)
    (Req.isTestBadRequest r).

Definition info (i : SymbolInfo) : IEEE.Symbol :=
  IEEE.mkSymbol (name i) (Double.Finite (bid i)) (Double.Finite (ask i))
    (Double.Finite (minVolume i)) (Double.Finite (maxVolume i))
    (Double.Finite (volumeStep i)) (digits i) (tradeAllowed i).

Definition broker {B : Type} {api : IMTBrokerAPI B} (symbol : string) (b : B)
  : option IEEE.Symbol * B :=
  let '(i, b) := getSymbolInfo symbol b in (info <$> i, b).

(** [std::to_string] as glibc's [printf("%f")] writes the values that are
    not numbers. *)
Definition to_string {text : DoubleToString} (x : double) : string :=
  match x with
  | Double.Finite q => to_string_double q
  | Double.NegZero => "-" +:+ to_string_double 0%Q
  | Double.Inf false => "inf"
  | Double.Inf true => "-inf"
  | Double.NaN false => "nan"
  | Double.NaN true => "-nan"
  end.

End Exact.

(** * Properties *)

(** ** Machine integers *)

Lemma wrap32_small z : in_int z → wrap32 z = z.
Proof.
  unfold in_int, INT_MIN, INT_MAX, wrap32. intros Hz.
  rewrite Z.mod_small; lia.
Qed.

Lemma wrap32_eq_mod a b : a mod 2 ^ 32 = b mod 2 ^ 32 → wrap32 a = wrap32 b.
Proof.
  intros E. unfold wrap32.
  rewrite <- (Zplus_mod_idemp_l a), <- (Zplus_mod_idemp_l b), E. reflexivity.
Qed.

Lemma int_add_small a b : in_int (a + b) → int_add a b = a + b.
Proof. apply wrap32_small. Qed.

(** ** The queue *)

Section QueueFacts.
Context {T : Type}.
Implicit Types (q : Queue.ThreadSafeQueue T) (x : T).

Lemma pops_prefix (front rest : list T) (latch : bool) :
  Queue.pops (length front) (Queue.mk (front ++ rest) latch)
  = Queue.mk rest latch.
Proof.
  induction front as [|y front IH]; simpl; [reflexivity|].
  exact IH.
Qed.

Lemma push_contents x q :
  Queue.queue_ (Queue.push x q) = Queue.queue_ q ++ [x].
Proof. reflexivity. Qed.

Lemma shutdown_contents q :
  Queue.queue_ (Queue.shutdown q) = Queue.queue_ q.
Proof. reflexivity. Qed.
End QueueFacts.

(** C6, as stated: after [shutdown()], [push(x)] leaves the queue unchanged
    and [x] is never popped.  This fails: on the empty queue with the latch
    set, [push(7)] changes the contents and the next [pop] returns 7. *)
Lemma push_after_shutdown_is_not_a_noop :
  let q0 : Queue.ThreadSafeQueue nat := Queue.shutdown Queue.new in
  Queue.queue_ (Queue.push 7%nat q0) ≠ Queue.queue_ q0
  ∧ fst (Queue.pop (Queue.push 7%nat q0)) = Queue.Item 7%nat.
Proof. split; [discriminate | reflexivity]. Qed.

(** C6, amended: [push(x)] appends [x] to the queue whether or not
    [shutdown()] has been called; it leaves the latch as it is, and once the
    items that were queued before it have been popped the next [pop]
    returns [x]. *)
Theorem push_after_shutdown_enqueues :
  ∀ (T : Type) (q : Queue.ThreadSafeQueue T) (x : T),
    let q' := Queue.push x (Queue.shutdown q) in
    (Queue.queue_ q' = Queue.queue_ q ++ [x]
     ∧ Queue.shutdown_ q' = true
     ∧ fst (Queue.pop (Queue.pops (length (Queue.queue_ q)) q'))
       = Queue.Item x)
    ∧ Queue.queue_ (Queue.push x q) = Queue.queue_ q ++ [x]
    ∧ Queue.shutdown_ (Queue.push x q) = Queue.shutdown_ q
    ∧ Queue.pop (Queue.pops (length (Queue.queue_ q)) (Queue.push x q))
      = (Queue.Item x, Queue.mk [] (Queue.shutdown_ q))
    ∧ Queue.shutdown (Queue.push x q) = Queue.push x (Queue.shutdown q).
Proof.
  intros T q x q'. subst q'. split; [repeat split|].
  - unfold Queue.push, Queue.shutdown. simpl.
    rewrite pops_prefix. reflexivity.
  - split; [reflexivity|]. split; [reflexivity|]. split; [|reflexivity].
    unfold Queue.push. simpl. destruct q as [items latch]. simpl.
    rewrite (pops_prefix items [x] latch). reflexivity.
Qed.

(** ** The result tracker *)

Section TrackerFacts.
Import Tracker.
Implicit Types (rs : list TradeResult) (r : TradeResult) (t : ResultTracker).

Lemma record_all_snoc rs r t :
  record_all (rs ++ [r]) t = record r (record_all rs t).
Proof. unfold record_all. rewrite foldl_app. reflexivity. Qed.

Lemma recorded_for_snoc c rs r :
  recorded_for c (rs ++ [r])
  = recorded_for c rs
    ++ (if decide (Res.clientId r = c) then [Res.requestId r] else []).
Proof.
  unfold recorded_for. rewrite filter_app, fmap_app. f_equal.
  rewrite filter_cons, filter_nil. destruct (decide _); reflexivity.
Qed.

Lemma last_recorded_snoc id rs r :
  last_recorded id (rs ++ [r])
  = if decide (Res.requestId r = id) then Some r else last_recorded id rs.
Proof.
  unfold last_recorded. rewrite filter_app, filter_cons, filter_nil.
  destruct (decide _).
  - apply last_snoc.
  - rewrite app_nil_r. reflexivity.
Qed.

(** The primary index holds, under every request id, the last result
    recorded with it. *)
Lemma results_record_all rs id :
  results_ (record_all rs new) !! id = last_recorded id rs.
Proof.
  induction rs as [|r rs IH] using rev_ind.
  - reflexivity.
  - rewrite record_all_snoc, last_recorded_snoc. simpl.
    destruct (decide (Res.requestId r = id)) as [->|Hne].
    + apply lookup_insert_eq.
    + rewrite lookup_insert_ne by exact Hne. exact IH.
Qed.

(** The secondary index holds, for every client, the request ids recorded
    for it, in call order. *)
Lemma clientRequests_record_all rs c :
  clientRequests_ (record_all rs new) !! c
  = if decide (recorded_for c rs = []) then None
    else Some (recorded_for c rs).
Proof.
  induction rs as [|r rs IH] using rev_ind.
  - reflexivity.
  - rewrite record_all_snoc, recorded_for_snoc. simpl.
    destruct (decide (Res.clientId r = c)) as [->|Hne].
    + rewrite lookup_insert_eq, IH.
      destruct (decide (recorded_for _ rs = [])) as [E|E].
      * rewrite E. simpl. reflexivity.
      * simpl. destruct (decide _) as [E'|_]; [|reflexivity].
        apply app_eq_nil in E'. destruct E' as [_ E']. discriminate.
    + rewrite lookup_insert_ne by exact Hne. rewrite app_nil_r. exact IH.
Qed.

Lemma last_recorded_Some id rs r :
  last_recorded id rs = Some r → r ∈ rs ∧ Res.requestId r = id.
Proof.
  unfold last_recorded. intros E.
  assert (Hin : r ∈ filter (λ r, Res.requestId r = id) rs).
  { apply last_Some in E. destruct E as [l' E]. rewrite E.
    apply elem_of_app. right. apply list_elem_of_singleton. reflexivity. }
  apply list_elem_of_filter in Hin. tauto.
Qed.

Lemma last_recorded_is_Some id rs r :
  r ∈ rs → Res.requestId r = id → is_Some (last_recorded id rs).
Proof.
  intros Hin E. unfold last_recorded.
  apply last_is_Some. intros Hnil.
  assert (Hf : r ∈ filter (λ r, Res.requestId r = id) rs)
    by (apply list_elem_of_filter; tauto).
  rewrite Hnil in Hf. by apply not_elem_of_nil in Hf.
Qed.

Lemma elem_of_recorded_for id c rs :
  id ∈ recorded_for c rs ↔
  ∃ r, r ∈ rs ∧ Res.clientId r = c ∧ Res.requestId r = id.
Proof.
  unfold recorded_for. rewrite list_elem_of_fmap. split.
  - intros (r & -> & Hin). apply list_elem_of_filter in Hin.
    destruct Hin as [Hc Hin]. exists r. auto.
  - intros (r & Hin & Hc & Hid). exists r. split; [done|].
    apply list_elem_of_filter. tauto.
Qed.

Lemma clientRequests_Some rs c ids :
  clientRequests_ (record_all rs new) !! c = Some ids →
  ids = recorded_for c rs.
Proof.
  rewrite clientRequests_record_all. destruct (decide _); congruence.
Qed.
End TrackerFacts.

(** C7, as stated: after any sequence of [record] calls, overwrites with
    another client id included, every request id listed for client [c] is a
    key of [results_] whose result has client id [c].  This fails: request
    ["r1"] recorded for client ["a"] and then for client ["b"] stays in the
    list of ["a"], while the stored result belongs to ["b"]. *)
Lemma overwrite_by_other_client_breaks_index :
  let t := Tracker.record_all
             [Tracker.sample "a" "r1" SUCCESS; Tracker.sample "b" "r1" DUPLICATE]
             Tracker.new in
  Tracker.clientRequests_ t !! "a" = Some ["r1"]
  ∧ Res.clientId <$> Tracker.results_ t !! "r1" = Some "b".
Proof. split; vm_compute; reflexivity. Qed.

(** C7, amended: after any sequence of [record] calls, every request id
    listed for a client [c] is a key of [results_]; the result stored there
    is the one of the last [record] call with that request id, and it has
    client id [c] whenever no request id was recorded under two different
    client ids. *)
Theorem tracker_indices_consistent :
  ∀ (rs : list TradeResult) (c id : string) (ids : list string),
    Tracker.clientRequests_ (Tracker.record_all rs Tracker.new) !! c = Some ids →
    id ∈ ids →
    ∃ R, Tracker.results_ (Tracker.record_all rs Tracker.new) !! id = Some R
         ∧ Tracker.last_recorded id rs = Some R
         ∧ Res.requestId R = id
         ∧ (Tracker.one_client_per_request rs → Res.clientId R = c).
Proof.
  intros rs c id ids Hids Hid.
  apply clientRequests_Some in Hids. subst ids.
  apply elem_of_recorded_for in Hid. destruct Hid as (r & Hin & Hc & Hr).
  destruct (last_recorded_is_Some id rs r Hin Hr) as [R HR].
  exists R. rewrite results_record_all.
  destruct (last_recorded_Some _ _ _ HR) as [HinR HidR].
  repeat split; [exact HR | exact HR | exact HidR |].
  intros Hone. rewrite <- Hc. apply Hone; [exact HinR | exact Hin | congruence].
Qed.

Lemma tracker_indices_consistent_witness :
  ∃ R, Tracker.results_
         (Tracker.record_all
            [Tracker.sample "a" "r1" SUCCESS; Tracker.sample "a" "r2" REJECTED]
            Tracker.new) !! "r2" = Some R
       ∧ Tracker.last_recorded "r2"
           [Tracker.sample "a" "r1" SUCCESS; Tracker.sample "a" "r2" REJECTED]
         = Some R
       ∧ Res.requestId R = "r2"
       ∧ (Tracker.one_client_per_request
            [Tracker.sample "a" "r1" SUCCESS; Tracker.sample "a" "r2" REJECTED]
          → Res.clientId R = "a").
Proof.
  apply (tracker_indices_consistent
           [Tracker.sample "a" "r1" SUCCESS; Tracker.sample "a" "r2" REJECTED]
           "a" "r2" ["r1"; "r2"]).
  - vm_compute. reflexivity.
  - apply list_elem_of_In. simpl. auto.
Defined.

Section StatsFacts.
Import Tracker.

(** Number of entries of [l] whose status falls into bucket [b]. *)
Local Notation "'tally' b l" :=
  (Z.of_nat (length (filter (λ entry : string * TradeResult,
                               bucket_of (Res.status (snd entry)) = b) l)))
  (at level 10, b at level 9, l at level 9, only parsing).

Lemma tally_cons b (e : string * TradeResult) l :
  tally b (e :: l)
  = (if decide (bucket_of (Res.status (snd e)) = b) then 1 else 0) + tally b l.
Proof.
  rewrite filter_cons. destruct (decide _); simpl length; lia.
Qed.

Lemma tally_le b (l : list (string * TradeResult)) :
  0 <= tally b l <= Z.of_nat (length l).
Proof.
  pose proof (length_filter (λ entry : string * TradeResult,
                bucket_of (Res.status (snd entry)) = b) l). lia.
Qed.

Local Notation "'hit' b r" :=
  (if decide (bucket_of (Res.status r) = b) then 1 else 0)
  (at level 10, b at level 9, r at level 9, only parsing).

(** One iteration, with counters that are below [INT_MAX]: no increment
    wraps, and exactly the counter of the result's bucket moves. *)
Lemma count_result_fields (r : TradeResult) (acc : Stats) :
  0 <= totalRequests acc < INT_MAX →
  0 <= successful acc <= totalRequests acc →
  0 <= rejected acc <= totalRequests acc →
  0 <= errors acc <= totalRequests acc →
  0 <= duplicates acc <= totalRequests acc →
  totalRequests (count_result r acc) = totalRequests acc + 1
  ∧ successful (count_result r acc) = successful acc + hit Successful r
  ∧ rejected (count_result r acc) = rejected acc + hit Rejected r
  ∧ errors (count_result r acc) = errors acc + hit Errors r
  ∧ duplicates (count_result r acc) = duplicates acc + hit Duplicates r.
Proof.
  unfold INT_MAX. intros Ht Hs Hr He Hd.
  assert (Hw : ∀ x, 0 <= x <= totalRequests acc → int_add x 1 = x + 1).
  { intros x Hx. apply int_add_small. unfold in_int, INT_MIN, INT_MAX. lia. }
  unfold count_result.
  destruct (Res.status r); cbn [bucket_of];
    repeat (destruct (decide _) as [?|?]; try congruence; []);
    cbn [totalRequests successful rejected errors duplicates];
    rewrite !Hw by lia; repeat split; lia.
Qed.

(** The loop of [getStats]: every counter grows by the number of entries of
    its bucket. *)
Lemma count_results_fold (l : list (string * TradeResult)) (acc : Stats) :
  0 <= totalRequests acc →
  totalRequests acc + Z.of_nat (length l) <= INT_MAX →
  0 <= successful acc <= totalRequests acc →
  0 <= rejected acc <= totalRequests acc →
  0 <= errors acc <= totalRequests acc →
  0 <= duplicates acc <= totalRequests acc →
  let s := foldl (λ stats entry, count_result (snd entry) stats) acc l in
  totalRequests s = totalRequests acc + Z.of_nat (length l)
  ∧ successful s = successful acc + tally Successful l
  ∧ rejected s = rejected acc + tally Rejected l
  ∧ errors s = errors acc + tally Errors l
  ∧ duplicates s = duplicates acc + tally Duplicates l.
Proof.
  unfold INT_MAX. revert acc.
  induction l as [|e l IH]; intros acc Ht Hmax Hs Hr He Hd.
  - simpl. repeat split; lia.
  - cbn [foldl]. rewrite !tally_cons.
    assert (Hlen : Z.of_nat (length (e :: l)) = 1 + Z.of_nat (length l))
      by (simpl length; lia).
    rewrite Hlen in *.
    destruct (count_result_fields (snd e) acc) as (C1 & C2 & C3 & C4 & C5);
      [unfold INT_MAX; lia | lia ..|].
    assert (B1 : 0 <= hit Successful (snd e) <= 1)
      by (destruct (decide (bucket_of (Res.status (snd e)) = Successful)); lia).
    assert (B2 : 0 <= hit Rejected (snd e) <= 1)
      by (destruct (decide (bucket_of (Res.status (snd e)) = Rejected)); lia).
    assert (B3 : 0 <= hit Errors (snd e) <= 1)
      by (destruct (decide (bucket_of (Res.status (snd e)) = Errors)); lia).
    assert (B4 : 0 <= hit Duplicates (snd e) <= 1)
      by (destruct (decide (bucket_of (Res.status (snd e)) = Duplicates)); lia).
    destruct (IH (count_result (snd e) acc)) as (I1 & I2 & I3 & I4 & I5);
      [lia ..|].
    cbn zeta. rewrite I1, I2, I3, I4, I5. repeat split; lia.
Qed.
End StatsFacts.

(** C8: [getStats()] puts every stored result into the one bucket that the
    aggregation table gives for its status, and [totalRequests] is the sum of
    the four buckets and the number of keys of [results_]. *)
Theorem getStats_buckets :
  ∀ t : Tracker.ResultTracker,
    Z.of_nat (size (Tracker.results_ t)) <= INT_MAX →
    let s := Tracker.getStats t in
    Tracker.successful s = Tracker.in_bucket Tracker.Successful t
    ∧ Tracker.duplicates s = Tracker.in_bucket Tracker.Duplicates t
    ∧ Tracker.rejected s = Tracker.in_bucket Tracker.Rejected t
    ∧ Tracker.errors s = Tracker.in_bucket Tracker.Errors t
    ∧ Tracker.totalRequests s
      = Tracker.successful s + Tracker.rejected s
        + Tracker.errors s + Tracker.duplicates s
    ∧ Tracker.totalRequests s = Z.of_nat (size (Tracker.results_ t)).
Proof.
  intros t Hsize s. subst s. unfold Tracker.getStats, Tracker.in_bucket.
  unfold INT_MAX in Hsize.
  rewrite <- length_map_to_list in Hsize |- *.
  destruct (count_results_fold (map_to_list (Tracker.results_ t)) Tracker.stats0)
    as (H1 & H2 & H3 & H4 & H5); simpl; [unfold INT_MAX; lia ..|].
  simpl in H1, H2, H3, H4, H5. rewrite H1, H2, H3, H4, H5.
  repeat split; try lia.
  (* every entry falls into exactly one of the four buckets *)
  generalize (map_to_list (Tracker.results_ t)). intros l.
  induction l as [|e l IH]; [reflexivity|].
  rewrite !tally_cons. simpl length.
  destruct (Res.status (snd e)); cbn [Tracker.bucket_of];
    repeat (destruct (decide _) as [?|?]; try congruence; []); lia.
Qed.

Lemma getStats_buckets_witness :
  Tracker.totalRequests
    (Tracker.getStats
       (Tracker.record_all
          [Tracker.sample "a" "r1" SUCCESS; Tracker.sample "a" "r2" REJECTED;
           Tracker.sample "b" "r3" DUPLICATE] Tracker.new))
  = 3.
Proof.
  pose proof (getStats_buckets
    (Tracker.record_all
       [Tracker.sample "a" "r1" SUCCESS; Tracker.sample "a" "r2" REJECTED;
        Tracker.sample "b" "r3" DUPLICATE] Tracker.new)) as Hstats.
  destruct Hstats as (_ & _ & _ & _ & _ & Htotal).
  - vm_compute. discriminate.
  - rewrite Htotal. vm_compute. reflexivity.
Defined.

Section RoundTrip.
Import Tracker.

Lemma requestIds_of_lookups (m : gmap string TradeResult) (ids : list string) :
  (∀ id, id ∈ ids → ∃ R, m !! id = Some R ∧ Res.requestId R = id) →
  Res.requestId <$> omap (λ reqId, m !! reqId) ids = ids.
Proof.
  induction ids as [|id ids IH]; intros Hall; [reflexivity|].
  destruct (Hall id) as (R & HR & Hid); [left|].
  simpl. rewrite HR. simpl. rewrite Hid. f_equal.
  apply IH. intros id' Hin. apply Hall. right. exact Hin.
Qed.

Lemma recorded_ids_are_stored rs c id :
  id ∈ recorded_for c rs →
  ∃ R, results_ (record_all rs new) !! id = Some R ∧ Res.requestId R = id.
Proof.
  intros Hid. apply elem_of_recorded_for in Hid.
  destruct Hid as (r & Hin & _ & Hr).
  destruct (last_recorded_is_Some id rs r Hin Hr) as [R HR].
  exists R. rewrite results_record_all. split; [exact HR|].
  apply (last_recorded_Some _ _ _ HR).
Qed.

(** The vector returned by [getByClientId]: the stored results of the
    request ids recorded for the client, in call order. *)
Lemma getByClientId_record_all rs c :
  getByClientId c (record_all rs new)
  = omap (λ reqId, results_ (record_all rs new) !! reqId) (recorded_for c rs).
Proof.
  unfold getByClientId. rewrite clientRequests_record_all.
  destruct (decide (recorded_for c rs = [])) as [E|E]; [rewrite E|]; reflexivity.
Qed.

Lemma last_recorded_not_overwritten pre R post :
  (∀ R', R' ∈ post → Res.requestId R' ≠ Res.requestId R) →
  last_recorded (Res.requestId R) (pre ++ R :: post) = Some R.
Proof.
  intros Hpost. unfold last_recorded.
  rewrite filter_app, filter_cons.
  destruct (decide _) as [_|Hne]; [|congruence].
  assert (E : filter (λ r, Res.requestId r = Res.requestId R) post = []).
  { clear -Hpost. induction post as [|R' post IH]; [reflexivity|].
    rewrite filter_cons_False by (apply Hpost; left).
    apply IH. intros R'' Hin. apply Hpost. right. exact Hin. }
  rewrite E. apply last_snoc.
Qed.
End RoundTrip.

(** C9: a result [R] that no later [record] call overwrites is what
    [getByRequestId(R.requestId)] returns, it occurs in
    [getByClientId(R.clientId)], and the vector returned for a client lists
    the request ids recorded for that client in the order of the calls. *)
Theorem tracker_round_trip :
  ∀ (pre post : list TradeResult) (R : TradeResult),
    (∀ R', R' ∈ post → Res.requestId R' ≠ Res.requestId R) →
    let t := Tracker.record_all (pre ++ R :: post) Tracker.new in
    Tracker.getByRequestId (Res.requestId R) t = Some R
    ∧ R ∈ Tracker.getByClientId (Res.clientId R) t
    ∧ ∀ c, Res.requestId <$> Tracker.getByClientId c t
           = Tracker.recorded_for c (pre ++ R :: post).
Proof.
  intros pre post R Hpost t.
  assert (HR : Tracker.getByRequestId (Res.requestId R) t = Some R).
  { unfold Tracker.getByRequestId. subst t. rewrite results_record_all.
    by apply last_recorded_not_overwritten. }
  split; [exact HR|]. split.
  - subst t. rewrite getByClientId_record_all.
    apply list_elem_of_omap. exists (Res.requestId R). split; [|exact HR].
    apply elem_of_recorded_for. exists R. repeat split.
    apply elem_of_app. right. left.
  - intros c. subst t. rewrite getByClientId_record_all.
    apply requestIds_of_lookups. intros id Hid.
    by apply (recorded_ids_are_stored _ c).
Qed.

Lemma tracker_round_trip_witness :
  Tracker.getByRequestId "r1"
    (Tracker.record_all
       ([Tracker.sample "a" "r1" CONNECTION_ERROR]
        ++ Tracker.sample "a" "r1" SUCCESS :: [Tracker.sample "a" "r2" REJECTED])
       Tracker.new)
  = Some (Tracker.sample "a" "r1" SUCCESS).
Proof.
  apply (tracker_round_trip [Tracker.sample "a" "r1" CONNECTION_ERROR]
           [Tracker.sample "a" "r2" REJECTED] (Tracker.sample "a" "r1" SUCCESS)).
  intros R' Hin. apply list_elem_of_singleton in Hin. subst R'.
  simpl. discriminate.
Defined.

(** ** Comparisons of [double] values *)

Lemma Qleb_true x y : Qleb x y = true → (x <= y)%Q.
Proof. apply Qle_bool_iff. Qed.

Lemma Qleb_false x y : Qleb x y = false → (y < x)%Q.
Proof.
  intros E. apply Qnot_le_lt. intros Hle.
  apply Qle_bool_iff in Hle. unfold Qleb in E. congruence.
Qed.

Lemma Qltb_true x y : Qltb x y = true → (x < y)%Q.
Proof. unfold Qltb, Qlt. apply Z.ltb_lt. Qed.

Lemma Qltb_false x y : Qltb x y = false → (y <= x)%Q.
Proof. unfold Qltb, Qle. intros E. apply Z.ltb_ge in E. exact E. Qed.

(** ** The validator *)

Section ValidatorFacts.
Context {B : Type} {broker : IMTBrokerAPI B} {text : DoubleToString}.
Import Validator.
Implicit Types (request : TradeRequest) (v : Validator) (w : World B).

Lemma makeError_status request s msg now :
  Res.status (makeError request s msg now) = s.
Proof. reflexivity. Qed.

(** A request id that has been seen: the call returns [DUPLICATE] from
    inside the deduplication block and touches nothing. *)
Lemma validate_seen request now v w :
  Req.requestId request ∈ seenRequests_ v →
  validate request now v w
  = (Some (makeError request DUPLICATE
             ("Duplicate request ID: " +:+ Req.requestId request) now), v, w).
Proof.
  intros Hin. unfold validate. rewrite bool_decide_eq_true_2 by exact Hin.
  reflexivity.
Qed.

(** A fresh request id: it is inserted, and the outcome is that of the
    parameter checks. *)
Lemma validate_fresh request now v w :
  Req.requestId request ∉ seenRequests_ v →
  validate request now v w
  = ((validate_params request now w).1,
     mk ({[Req.requestId request]} ∪ seenRequests_ v),
     (validate_params request now w).2).
Proof.
  intros Hin. unfold validate. rewrite bool_decide_eq_false_2 by exact Hin.
  destruct (validate_params request now w). reflexivity.
Qed.

(** The parameter checks answer [INVALID_PARAMS] or [REJECTED], never
    [DUPLICATE]. *)
Lemma validate_params_status request now w result :
  (validate_params request now w).1 = Some result →
  Res.status result = INVALID_PARAMS ∨ Res.status result = REJECTED.
Proof.
  unfold validate_params, api_getSymbolInfo.
  repeat (case_bool_decide; [simpl; intros [= <-]; auto|]).
  destruct (Qleb _ _); [simpl; intros [= <-]; auto|].
  destruct (getSymbolInfo _ _) as [[info|] b]; [|simpl; intros [= <-]; auto].
  destruct (negb _); [simpl; intros [= <-]; auto|].
  destruct (_ || _); [simpl; intros [= <-]; auto|].
  destruct (present_and_le0 (Req.stopLoss _)); [simpl; intros [= <-]; auto|].
  destruct (present_and_le0 (Req.takeProfit _)); [simpl; intros [= <-]; auto|].
  simpl. discriminate.
Qed.

Lemma validate_fresh_not_duplicate request now v w :
  Req.requestId request ∉ seenRequests_ v →
  is_duplicate (validate request now v w).1.1 = false.
Proof.
  intros Hin. rewrite validate_fresh by exact Hin. simpl.
  destruct (validate_params request now w).1 as [result|] eqn:E; [|reflexivity].
  simpl. apply bool_decide_eq_false_2.
  destruct (validate_params_status _ _ _ _ E) as [-> | ->]; discriminate.
Qed.

Lemma validate_inserts request now v w :
  seenRequests_ (validate request now v w).1.2
  = {[Req.requestId request]} ∪ seenRequests_ v.
Proof.
  destruct (decide (Req.requestId request ∈ seenRequests_ v)) as [Hin|Hin].
  - rewrite validate_seen by exact Hin. simpl. symmetry.
    apply subseteq_union_1_L, singleton_subseteq_l, Hin.
  - rewrite validate_fresh by exact Hin. reflexivity.
Qed.

(** A [validate] call leaves the broker alone or makes the one
    [getSymbolInfo] call. *)
Lemma validate_broker request now v w :
  api_ (validate request now v w).2 = api_ w
  ∨ api_ (validate request now v w).2
    = (getSymbolInfo (Req.symbol request) (api_ w)).2.
Proof.
  unfold validate, validate_params, api_getSymbolInfo.
  repeat (case_bool_decide; [left; reflexivity|]).
  destruct (Qleb _ _); [left; reflexivity|].
  right. destruct (getSymbolInfo _ _) as [[info|] b]; [|reflexivity].
  destruct (negb _); [reflexivity|].
  destruct (_ || _); [reflexivity|].
  destruct (present_and_le0 (Req.stopLoss _)); [reflexivity|].
  destruct (present_and_le0 (Req.takeProfit _)); reflexivity.
Qed.

(** The deduplication set only grows. *)
Lemma validate_all_grows calls v w :
  seenRequests_ v ⊆ seenRequests_ (validate_all calls v w).1.
Proof.
  revert v w. induction calls as [|[request now] calls IH]; intros v w.
  - reflexivity.
  - simpl. pose proof (validate_inserts request now v w) as Hins.
    destruct (validate request now v w) as [[outcome v'] w']. simpl in Hins.
    etransitivity; [|apply IH]. rewrite Hins. apply union_subseteq_r.
Qed.
End ValidatorFacts.

Section ValidatorDedup.
Context {B : Type} {broker : IMTBrokerAPI B} {text : DoubleToString}.
Import Validator.

(** C10: a [validate] call leaves its request id in the deduplication set
    whatever its outcome, the set never loses an entry, and every later
    [validate] call with that request id returns [DUPLICATE], whatever
    calls were made in between. *)
Theorem validate_consumes_request_id :
  ∀ (request : TradeRequest) (now : Z) (v : Validator) (w : World B),
    let v1 := (validate request now v w).1.2 in
    let w1 := (validate request now v w).2 in
    Req.requestId request ∈ seenRequests_ v1
    ∧ seenRequests_ v ⊆ seenRequests_ v1
    ∧ ∀ (calls : list (TradeRequest * Z)) (request' : TradeRequest) (now' : Z),
        Req.requestId request' = Req.requestId request →
        seenRequests_ v1 ⊆ seenRequests_ (validate_all calls v1 w1).1
        ∧ is_duplicate
            (validate request' now' (validate_all calls v1 w1).1
                      (validate_all calls v1 w1).2).1.1 = true.
Proof.
  intros request now v w v1 w1.
  assert (Hin : Req.requestId request ∈ seenRequests_ v1).
  { subst v1. rewrite validate_inserts. set_solver. }
  split; [exact Hin|]. split.
  { subst v1. rewrite validate_inserts. set_solver. }
  intros calls request' now' Hid.
  pose proof (validate_all_grows calls v1 w1) as Hgrow.
  split; [exact Hgrow|].
  rewrite validate_seen by (rewrite Hid; apply Hgrow, Hin).
  reflexivity.
Qed.

(** A request whose id has been seen is answered by [processRequest] with
    the [DUPLICATE] error, without any broker call. *)
Lemma processRequest_duplicate fuel config request now u
    (v : Validator) (w : World B) :
  Req.requestId request ∈ seenRequests_ v →
  DealProcessor.processRequest fuel config request now u v w
  = Some (makeError request DUPLICATE
            ("Duplicate request ID: " +:+ Req.requestId request) now, v, w).
Proof.
  intros Hseen. unfold DealProcessor.processRequest.
  rewrite validate_seen by exact Hseen. reflexivity.
Qed.

(** C4: of two [validate] calls with the same, so far unseen, request id
    the one that passes the deduplication block first returns an outcome
    other than [DUPLICATE] and the other one returns [DUPLICATE], whatever
    calls were made in between; and a call that returns [DUPLICATE] makes no
    broker call: it leaves the broker and the call record as they were. *)
Theorem validate_duplicate_pair :
  ∀ (r1 r2 : TradeRequest) (now1 now2 : Z) (between : list (TradeRequest * Z))
    (v : Validator) (w : World B),
    Req.requestId r1 = Req.requestId r2 →
    Req.requestId r1 ∉ seenRequests_ v →
    let first := validate r1 now1 v w in
    let mid := validate_all between first.1.2 first.2 in
    let second := validate r2 now2 mid.1 mid.2 in
    is_duplicate first.1.1 = false
    ∧ is_duplicate second.1.1 = true
    ∧ second.2 = mid.2
    ∧ ∀ (r : TradeRequest) (now : Z) (v' : Validator) (w' : World B),
        is_duplicate (validate r now v' w').1.1 = true →
        (validate r now v' w').2 = w'.
Proof.
  intros r1 r2 now1 now2 between v w Hid Hfresh first mid second.
  assert (Hseen : Req.requestId r2 ∈ seenRequests_ mid.1).
  { subst mid. apply validate_all_grows. subst first.
    rewrite validate_inserts, <- Hid. set_solver. }
  split; [subst first; by apply validate_fresh_not_duplicate|].
  subst second. rewrite validate_seen by exact Hseen. simpl.
  split; [reflexivity|]. split; [reflexivity|].
  intros r now v' w' Hdup.
  destruct (decide (Req.requestId r ∈ seenRequests_ v')) as [Hin|Hin].
  - rewrite validate_seen by exact Hin. reflexivity.
  - rewrite validate_fresh_not_duplicate in Hdup by exact Hin. discriminate.
Qed.
End ValidatorDedup.

Section ValidatorOrder.
Context {B : Type} {broker : IMTBrokerAPI B} {text : DoubleToString}.
Import Validator.

Lemma present_and_le0_true x : present_and_le0 x = true → ¬ positive_if_present x.
Proof.
  destruct x as [q|]; simpl; [|discriminate].
  intros E%Qleb_true Hpos. apply (Qlt_not_le _ _ Hpos E).
Qed.

Lemma present_and_le0_false x : present_and_le0 x = false → positive_if_present x.
Proof. destruct x as [q|]; simpl; [apply Qleb_false | trivial]. Qed.

Lemma first_failing_not_all seen info request c :
  first_failing seen info request c →
  ¬ Forall (check_holds seen info request) check_order.
Proof.
  intros (before & after & -> & _ & Hc) Hall.
  apply Forall_app in Hall. destruct Hall as [_ Hall].
  apply Forall_cons in Hall. tauto.
Qed.

(** Closes [first_failing ... c] once the checks before [c] are known to
    hold and [c] is known to fail: [n] is the position of [c]. *)
Local Ltac fails_at n :=
  exists (take n check_order), (drop (S n) check_order);
  split; [reflexivity|]; split;
  [ repeat (apply Forall_cons; split); try apply Forall_nil; simpl; eauto
  | simpl; try tauto ].

(** The outcome of [validate], read against the check list. *)
Lemma validate_outcome (request : TradeRequest) (now : Z)
    (v : Validator) (w : World B) :
  let info := (getSymbolInfo (Req.symbol request) (api_ w)).1 in
  match (validate request now v w).1.1 with
  | None => Forall (check_holds (seenRequests_ v) info request) check_order
  | Some result =>
      ∃ c, first_failing (seenRequests_ v) info request c
           ∧ Res.status result = check_status c
           ∧ Res.requestId result = Req.requestId request
           ∧ Res.clientId result = Req.clientId request
  end.
Proof.
  intros info.
  destruct (decide (Req.requestId request ∈ seenRequests_ v)) as [Hseen|Hfresh].
  { rewrite validate_seen by exact Hseen. simpl.
    exists Deduplication. repeat split. fails_at 0%nat. }
  rewrite validate_fresh by exact Hfresh. simpl.
  unfold validate_params, api_getSymbolInfo.
  case_bool_decide as Hclient.
  { simpl. exists Identity. repeat split. fails_at 1%nat. }
  case_bool_decide as Hsymbol.
  { simpl. exists Identity. repeat split. fails_at 1%nat. }
  destruct (Qleb (Req.volume request) 0) eqn:Hvol.
  { simpl. exists VolumePositivity. repeat split. fails_at 2%nat.
    apply Qleb_true in Hvol. intros Hpos. apply (Qlt_not_le _ _ Hpos Hvol). }
  apply Qleb_false in Hvol.
  subst info. destruct (getSymbolInfo _ _) as [[info|] b]; simpl.
  2:{ exists SymbolExistence. repeat split. fails_at 3%nat.
      intros [? ?]; discriminate. }
  destruct (tradeAllowed info) eqn:Hallowed; simpl.
  2:{ exists TradePermission. repeat split. fails_at 4%nat.
      intros (i & [= <-] & Hi). congruence. }
  destruct (Qltb (Req.volume request) (minVolume info)) eqn:Hmin; simpl.
  { exists VolumeRange. repeat split. fails_at 5%nat.
    apply Qltb_true in Hmin. intros (i & [= <-] & Hlo & _).
    apply (Qlt_not_le _ _ Hmin Hlo). }
  destruct (Qltb (maxVolume info) (Req.volume request)) eqn:Hmax; simpl.
  { exists VolumeRange. repeat split. fails_at 5%nat.
    apply Qltb_true in Hmax. intros (i & [= <-] & _ & Hhi).
    apply (Qlt_not_le _ _ Hmax Hhi). }
  apply Qltb_false in Hmin, Hmax.
  destruct (present_and_le0 (Req.stopLoss request)) eqn:Hsl; simpl.
  { exists StopLossTakeProfit. repeat split. fails_at 6%nat.
    apply present_and_le0_true in Hsl. tauto. }
  destruct (present_and_le0 (Req.takeProfit request)) eqn:Htp; simpl.
  { exists StopLossTakeProfit. repeat split. fails_at 6%nat.
    apply present_and_le0_true in Htp. tauto. }
  apply present_and_le0_false in Hsl, Htp.
  repeat (apply Forall_cons; split); try apply Forall_nil; simpl; eauto.
Qed.
End ValidatorOrder.

(** ** The validator over every [double] *)

Section DoubleFacts.
Import Double.

Lemma leb_zero_ltb (x : double) :
  is_nan x = false → (leb x zero = false ↔ ltb zero x = true).
Proof.
  unfold leb, ltb, zero.
  destruct x as [q| |[|]|[|]]; simpl; intros Hnan; try discriminate Hnan.
  - split; intros H.
    + apply Qleb_false in H. unfold Qltb, Qlt in *. apply Z.ltb_lt. exact H.
    + apply Qltb_true in H. destruct (Qleb q 0) eqn:E; [|reflexivity].
      apply Qleb_true in E. exfalso. apply (Qlt_not_le _ _ H E).
  - split; intros H; vm_compute in H; discriminate H.
  - split; intros H; discriminate H.
  - split; reflexivity.
Qed.



End DoubleFacts.

Section ValidatorOverDoubles.
Context {B : Type}.
Variable getSymbolInfo : string → B → option IEEE.Symbol * B.
Variable to_string : double → string.
Import IEEE.

Local Abbreviation validate := (IEEE.validate getSymbolInfo to_string).
Local Abbreviation validate_params :=
  (IEEE.validate_params getSymbolInfo to_string).

Lemma validate64_seen request now v w :
  requestId request ∈ Validator.seenRequests_ v →
  validate request now v w
  = (Some (makeError request DUPLICATE
             ("Duplicate request ID: " +:+ requestId request) now), v, w).
Proof.
  intros Hin. unfold IEEE.validate.
  rewrite bool_decide_eq_true_2 by exact Hin. reflexivity.
Qed.

Lemma validate64_fresh request now v w :
  requestId request ∉ Validator.seenRequests_ v →
  validate request now v w
  = ((validate_params request now w).1,
     Validator.mk ({[requestId request]} ∪ Validator.seenRequests_ v),
     (validate_params request now w).2).
Proof.
  intros Hin. unfold IEEE.validate.
  rewrite bool_decide_eq_false_2 by exact Hin.
  destruct (validate_params request now w). reflexivity.
Qed.





(** What a [validate] call does to the broker. *)
Lemma validate64_world request now v w :
  let reaches_broker :=
    ((requestId request ∉ Validator.seenRequests_ v)
     ∧ clientId request ≠ "" ∧ symbol request ≠ ""
     ∧ Double.leb (volume request) Double.zero = false) in
  (reaches_broker
   ∧ (validate request now v w).2
     = mkWorld (getSymbolInfo (symbol request) (api_ w)).2
         (events w ++ [CallGetSymbolInfo (symbol request)]))
  ∨ (¬ reaches_broker ∧ (validate request now v w).2 = w).
Proof.
  cbv zeta.
  destruct (decide (requestId request ∈ Validator.seenRequests_ v))
    as [Hseen|Hfresh].
  { right. rewrite validate64_seen by exact Hseen. split; [tauto|reflexivity]. }
  rewrite validate64_fresh by exact Hfresh. simpl.
  unfold IEEE.validate_params, IEEE.api_getSymbolInfo.
  case_bool_decide as Hclient; [right; split; [tauto|reflexivity]|].
  case_bool_decide as Hsymbol; [right; split; [tauto|reflexivity]|].
  destruct (Double.leb (volume request) Double.zero) eqn:Hvol.
  { right. split; [|reflexivity]. intros (_ & _ & _ & H). discriminate H. }
  left. split; [tauto|].
  destruct (getSymbolInfo _ _) as [[info|] b]; [|reflexivity]. simpl.
  destruct (negb _); [reflexivity|].
  destruct (_ || _); [reflexivity|].
  destruct (present_and_le0 (stopLoss _)); [reflexivity|].
  destruct (present_and_le0 (takeProfit _)); reflexivity.
Qed.
End ValidatorOverDoubles.

Section ExactRequests.
Context {B : Type} {api : IMTBrokerAPI B} {text : DoubleToString}.

(** On the requests and symbol records that hold numbers only, [validate]
    over every [double] is the [validate] of module [Validator]. *)
Lemma validate_exact (request : TradeRequest) (now : Z)
    (v : Validator.Validator) (w : World B) :
  IEEE.validate Exact.broker Exact.to_string (Exact.request request) now v w
  = Validator.validate request now v w.
Proof.
  unfold IEEE.validate, Validator.validate. simpl.
  case_bool_decide; [reflexivity|].
  unfold IEEE.validate_params, Validator.validate_params,
    IEEE.api_getSymbolInfo, api_getSymbolInfo, Exact.broker. simpl.
  repeat (case_bool_decide; [reflexivity|]).
  change (Double.leb (Double.Finite (Req.volume request)) Double.zero)
    with (Qleb (Req.volume request) 0).
  destruct (Qleb _ _); [reflexivity|].
  destruct (getSymbolInfo _ _) as [[info|] b]; [|reflexivity]. simpl.
  destruct (negb _); [reflexivity|].
  change (Double.ltb (Double.Finite (Req.volume request))
            (Double.Finite (minVolume info)))
    with (Qltb (Req.volume request) (minVolume info)).
  change (Double.ltb (Double.Finite (maxVolume info))
            (Double.Finite (Req.volume request)))
    with (Qltb (maxVolume info) (Req.volume request)).
  destruct (_ || _); [reflexivity|].
  destruct (Req.stopLoss request) as [sl|]; simpl.
  - change (Double.leb (Double.Finite sl) Double.zero) with (Qleb sl 0).
    destruct (Qleb sl 0); [reflexivity|].
    destruct (Req.takeProfit request) as [tp|]; simpl; [|reflexivity].
    change (Double.leb (Double.Finite tp) Double.zero) with (Qleb tp 0).
    destruct (Qleb tp 0); reflexivity.
  - destruct (Req.takeProfit request) as [tp|]; simpl; [|reflexivity].
    change (Double.leb (Double.Finite tp) Double.zero) with (Qleb tp 0).
    destruct (Qleb tp 0); reflexivity.
Qed.
End ExactRequests.



(** ** The retry loop *)

Lemma wrap32_mod z : wrap32 z mod 2 ^ 32 = z mod 2 ^ 32.
Proof.
  unfold wrap32. rewrite Zminus_mod_idemp_l. f_equal. lia.
Qed.

(** The delay computed before attempt [n + 1] is [retryBaseMs * 2^n] as long
    as that product is an [int]. *)
Lemma delayMs_backoff (config : DealProcessor.ProcessorConfig) (n : Z) :
  0 <= n < INT_MAX →
  in_int (DealProcessor.backoff_ms config n) →
  DealProcessor.delayMs config (n + 1) = DealProcessor.backoff_ms config n.
Proof.
  intros Hn Hrep. unfold DealProcessor.delayMs, DealProcessor.backoff_ms in *.
  set (retryBaseMs := DealProcessor.retryBaseMs) in *.
  unfold int_mul, int_shl, int_sub.
  replace (n + 1 - 1) with n by lia.
  rewrite (wrap32_small n) by (unfold in_int, INT_MIN, INT_MAX in *; lia).
  rewrite Z.shiftl_1_l.
  transitivity (wrap32 (retryBaseMs config * 2 ^ n));
    [|apply wrap32_small, Hrep].
  apply wrap32_eq_mod.
  rewrite Z.mul_mod, wrap32_mod, <- Z.mul_mod by lia. reflexivity.
Qed.

Section RetryFacts.
Context {B : Type} {broker : IMTBrokerAPI B}.
Import DealProcessor.
Implicit Types (config : ProcessorConfig) (request : TradeRequest)
  (w : World B) (result : TradeResult).

Lemma broker_after_shift n request (b : B) :
  broker_after n request (executeTrade request b).2
  = broker_after (S n) request b.
Proof.
  induction n as [|n IH]; [reflexivity|].
  simpl. simpl in IH. rewrite IH. reflexivity.
Qed.

Lemma response_shift n request (b : B) :
  response n request (executeTrade request b).2 = response (S n) request b.
Proof. unfold response. rewrite broker_after_shift. reflexivity. Qed.

Lemma isSuccess_not_retryable result :
  Res.isSuccess result || negb (Res.isRetryable result)
  = negb (Res.isRetryable result).
Proof.
  unfold Res.isSuccess, Res.isRetryable.
  destruct (Res.status result); reflexivity.
Qed.

Lemma isRetryable_iff result :
  Res.isRetryable result = true ↔ retryable_status (Res.status result).
Proof.
  unfold Res.isRetryable, retryable_status.
  destruct (Res.status result); simpl; split; intros Hr;
    try discriminate; try reflexivity; auto; destruct Hr; discriminate.
Qed.

(** The loop entered at [attempt] with [n] attempts left: either some
    attempt [i] is the first with an answer that is not retryable, and the
    loop returns it, or all [n] answers are retryable and the loop ends in
    the exhaustion block.  [fuel] above [n] is enough. *)
Lemma retry_loop_run config request (n : nat) :
  ∀ (attempt : Z) (fuel : nat) result w,
    0 <= attempt →
    attempt + Z.of_nat n = maxRetries config + 1 →
    maxRetries config < INT_MAX →
    (n < fuel)%nat →
    (∃ i, (i < n)%nat
       ∧ (∀ j, (j < i)%nat → Res.isRetryable (response j request (api_ w)) = true)
       ∧ Res.isRetryable (response i request (api_ w)) = false
       ∧ retry_loop fuel config request attempt result w
         = Some (Res.set_retryCount (attempt + Z.of_nat i)
                   (response i request (api_ w)),
                 mkWorld (broker_after (S i) request (api_ w))
                   (events w ++ attempts_from config request attempt (S i))))
    ∨ ((∀ j, (j < n)%nat → Res.isRetryable (response j request (api_ w)) = true)
       ∧ retry_loop fuel config request attempt result w
         = Some (exhausted config (last_answer n attempt request (api_ w) result),
                 mkWorld (broker_after n request (api_ w))
                   (events w ++ attempts_from config request attempt n))).
Proof.
  induction n as [|n IH]; intros attempt fuel result w Hpos Hsum Hmax Hfuel.
  - right. split; [intros j Hj; lia|].
    destruct fuel as [|fuel]; [lia|]. simpl.
    rewrite (proj2 (Z.leb_gt _ _)) by lia.
    rewrite app_nil_r. destruct w; reflexivity.
  - destruct fuel as [|fuel]; [lia|]. cbn [retry_loop].
    rewrite (proj2 (Z.leb_le _ _)) by lia.
    set (w1 := if 0 <? attempt then sleep_for (delayMs config attempt) w else w).
    assert (Hw1 : api_ w1 = api_ w ∧
                  events w1 ++ [CallExecuteTrade request]
                  = events w ++ attempt_events config request attempt).
    { subst w1. unfold attempt_events. destruct (0 <? attempt); simpl.
      - rewrite <- app_assoc. auto.
      - auto. }
    destruct Hw1 as [Hapi Hev].
    unfold api_executeTrade. rewrite Hapi.
    destruct (executeTrade request (api_ w)) as [answer b] eqn:Hexec.
    assert (Hr0 : response 0 request (api_ w) = answer)
      by (unfold response; simpl; rewrite Hexec; reflexivity).
    assert (Hb : b = (executeTrade request (api_ w)).2)
      by (rewrite Hexec; reflexivity).
    rewrite isSuccess_not_retryable.
    replace (Res.isRetryable (Res.set_retryCount attempt answer))
      with (Res.isRetryable answer) by reflexivity.
    destruct (Res.isRetryable answer) eqn:Hretry; simpl negb; cbv iota.
    + (* retryable: next iteration *)
      rewrite int_add_small
        by (unfold in_int, INT_MIN, INT_MAX in *; lia).
      specialize (IH (attempt + 1) fuel (Res.set_retryCount attempt answer)
                     (mkWorld b (events w1 ++ [CallExecuteTrade request]))).
      destruct IH as [(i & Hi & Hbefore & Hat & Hrun) | (Hall & Hrun)];
        [lia | lia | lia | lia | |].
      * left. exists (S i). split; [lia|]. simpl api_ in *. subst b.
        split; [|split].
        -- intros [|j] Hj; [congruence|].
           rewrite <- response_shift. apply Hbefore. lia.
        -- rewrite <- response_shift. exact Hat.
        -- rewrite Hrun. simpl events. rewrite Hev.
           rewrite !response_shift, !broker_after_shift.
           rewrite <- app_assoc.
           replace (attempt + 1 + Z.of_nat i) with (attempt + Z.of_nat (S i))
             by lia.
           reflexivity.
      * right. simpl api_ in *. subst b. split.
        -- intros [|j] Hj; [congruence|].
           rewrite <- response_shift. apply Hall. lia.
        -- rewrite Hrun. simpl events. rewrite Hev.
           rewrite !broker_after_shift, <- app_assoc.
           assert (Hlast :
             last_answer n (attempt + 1) request
               (executeTrade request (api_ w)).2
               (Res.set_retryCount attempt answer)
             = last_answer (S n) attempt request (api_ w) result).
           { destruct n as [|n]; simpl last_answer.
             - rewrite Hr0. f_equal. lia.
             - rewrite response_shift. f_equal. lia. }
           rewrite Hlast. reflexivity.
    + (* success or permanent failure: return *)
      left. exists 0%nat. split; [lia|]. split; [intros j Hj; lia|].
      split; [congruence|].
      rewrite Hr0. simpl. rewrite Hexec, Hev, app_nil_r, Z.add_0_r.
      reflexivity.
Qed.
End RetryFacts.

Section RetrySchedule.
Import DealProcessor.

Lemma attempts_from_snoc config request (n : nat) :
  ∀ attempt,
    attempts_from config request attempt (S n)
    = attempts_from config request attempt n
      ++ attempt_events config request (attempt + Z.of_nat n).
Proof.
  induction n as [|n IH]; intros attempt.
  - simpl. rewrite app_nil_r, Z.add_0_r. reflexivity.
  - change (attempts_from config request attempt (S (S n)))
      with (attempt_events config request attempt
            ++ attempts_from config request (attempt + 1) (S n)).
    rewrite IH. simpl attempts_from. rewrite <- app_assoc.
    replace (attempt + 1 + Z.of_nat n) with (attempt + Z.of_nat (S n)) by lia.
    reflexivity.
Qed.

(** The events of the loop run from attempt 0 to attempt [k] have the shape
    of the schedule, with the delays the code computes. *)
Lemma attempts_from_schedule config request (k : nat) :
  attempts_from config request 0 (S k)
  = schedule (λ n, delayMs config (n + 1)) request k.
Proof.
  induction k as [|k IH]; [reflexivity|].
  rewrite attempts_from_snoc, IH. simpl schedule. f_equal.
  unfold attempt_events. rewrite (proj2 (Z.ltb_lt _ _)) by lia.
  replace (0 + Z.of_nat (S k)) with (Z.of_nat k + 1) by lia.
  reflexivity.
Qed.

Lemma schedule_attempts pause request (k : nat) :
  length (filter (λ e, is_execute_call e) (schedule pause request k)) = S k.
Proof.
  induction k as [|k IH]; [reflexivity|].
  simpl. rewrite filter_app, length_app, IH. simpl. lia.
Qed.
End RetrySchedule.

(** C1: when the answer to every one of the [maxRetries + 1] attempts is
    retryable, [executeWithRetry] returns status [RETRY_EXHAUSTED],
    [retryCount = maxRetries], and the message "All N attempts failed. Last
    error: " followed by the message of the last answer, N being
    [maxRetries + 1]. *)
Theorem executeWithRetry_exhausted :
  ∀ {B : Type} {broker : IMTBrokerAPI B} (config : DealProcessor.ProcessorConfig)
    (request : TradeRequest) (u : Res.Indeterminate) (w : World B) (fuel : nat),
    0 <= DealProcessor.maxRetries config < INT_MAX →
    (Z.to_nat (DealProcessor.maxRetries config) + 1 < fuel)%nat →
    (∀ j, (j <= Z.to_nat (DealProcessor.maxRetries config))%nat →
          DealProcessor.retryable_status
            (Res.status (DealProcessor.response j request (api_ w)))) →
    ∃ result w',
      DealProcessor.executeWithRetry fuel config request u w = Some (result, w')
      ∧ Res.status result = RETRY_EXHAUSTED
      ∧ Res.retryCount result = DealProcessor.maxRetries config
      ∧ Res.errorMessage result
        = "All " +:+ to_string_int (DealProcessor.maxRetries config + 1) +:+
          " attempts failed. Last error: " +:+
          Res.errorMessage
            (DealProcessor.response
               (Z.to_nat (DealProcessor.maxRetries config)) request (api_ w)).
Proof.
  intros B broker config request u w fuel Hmax Hfuel Hall.
  set (M := Z.to_nat (DealProcessor.maxRetries config)) in *.
  destruct (retry_loop_run config request (S M) 0 fuel (Res.uninitialised u) w)
    as [(i & Hi & _ & Hat & _) | (_ & Hrun)]; try lia.
  - exfalso. specialize (Hall i ltac:(lia)).
    apply isRetryable_iff in Hall. congruence.
  - eexists _, _. split; [exact Hrun|].
    simpl. rewrite int_add_small
      by (unfold in_int, INT_MIN, INT_MAX in *; lia).
    repeat split. 
Qed.

Lemma executeWithRetry_exhausted_witness :
  ∃ result w',
    DealProcessor.executeWithRetry (broker := Examples.broker) 6
      DealProcessor.default_config Examples.buy_eurusd Examples.leftover
      (Examples.world Examples.failing)
    = Some (result, w')
    ∧ Res.status result = RETRY_EXHAUSTED
    ∧ Res.retryCount result = 3
    ∧ Res.errorMessage result
      = "All 4 attempts failed. Last error: "
        +:+ "MT5 server connection timeout during DealerSend()".
Proof.
  apply (executeWithRetry_exhausted (broker := Examples.broker)
           DealProcessor.default_config Examples.buy_eurusd Examples.leftover
           (Examples.world Examples.failing) 6).
  - vm_compute. split; [discriminate | reflexivity].
  - vm_compute. lia.
  - intros j Hj. change (j <= 3)%nat in Hj.
    destruct j as [|[|[|[|j]]]]; [left; vm_compute; reflexivity ..| lia].
Defined.

(** C2: [executeWithRetry] makes at most [maxRetries + 1] attempts.  It
    stops at the first attempt [k] whose answer is not retryable and returns
    that answer with [retryCount = k]: the result has the answer's ids,
    status, ticket, price, message and time, and its retry count is [k],
    whatever count the broker wrote.  Attempt 0 comes first, without a
    pause, and each later attempt [n + 1] is preceded by one pause, of
    [retryBaseMs * 2^n] milliseconds whenever that product is an [int];
    an answer is retryable exactly when its status is [CONNECTION_ERROR] or
    [REJECTED]. *)
Theorem executeWithRetry_policy :
  ∀ {B : Type} {broker : IMTBrokerAPI B}
    (config : DealProcessor.ProcessorConfig)
    (request : TradeRequest) (u : Res.Indeterminate) (w : World B) (fuel : nat),
    0 <= DealProcessor.maxRetries config < INT_MAX →
    (Z.to_nat (DealProcessor.maxRetries config) + 1 < fuel)%nat →
    ∃ (k : nat) result w',
      DealProcessor.executeWithRetry fuel config request u w = Some (result, w')
      ∧ Z.of_nat k <= DealProcessor.maxRetries config
      ∧ events w'
        = events w
          ++ DealProcessor.schedule
               (λ n, DealProcessor.delayMs config (n + 1)) request k
      ∧ length (filter (λ e, is_execute_call e)
                  (DealProcessor.schedule
                     (λ n, DealProcessor.delayMs config (n + 1)) request k))
        = S k
      ∧ (∀ n, 0 <= n < Z.of_nat k →
              in_int (DealProcessor.backoff_ms config n) →
              DealProcessor.delayMs config (n + 1)
              = DealProcessor.backoff_ms config n)
      ∧ api_ w' = DealProcessor.broker_after (S k) request (api_ w)
      ∧ (∀ j, (j < k)%nat →
              Res.isRetryable (DealProcessor.response j request (api_ w)) = true)
      ∧ (if Res.isRetryable (DealProcessor.response k request (api_ w))
         then Z.of_nat k = DealProcessor.maxRetries config
              ∧ Res.status result = RETRY_EXHAUSTED
         else result
              = Res.set_retryCount (Z.of_nat k)
                  (DealProcessor.response k request (api_ w)))
      ∧ (∀ r, Res.isRetryable r = true
              ↔ Res.status r = CONNECTION_ERROR ∨ Res.status r = REJECTED)
      ∧ Res.retryCount result = Z.of_nat k
      ∧ (Res.isRetryable (DealProcessor.response k request (api_ w)) = false →
         let answer := DealProcessor.response k request (api_ w) in
         Res.requestId result = Res.requestId answer
         ∧ Res.clientId result = Res.clientId answer
         ∧ Res.status result = Res.status answer
         ∧ Res.mtTicketId result = Res.mtTicketId answer
         ∧ Res.executionPrice result = Res.executionPrice answer
         ∧ Res.errorMessage result = Res.errorMessage answer
         ∧ Res.timestamp result = Res.timestamp answer).
Proof.
  intros B broker config request u w fuel Hmax Hfuel.
  set (M := Z.to_nat (DealProcessor.maxRetries config)) in *.
  assert (Hdelay : ∀ k : nat, Z.of_nat k <= DealProcessor.maxRetries config →
            ∀ n, 0 <= n < Z.of_nat k →
              in_int (DealProcessor.backoff_ms config n) →
              DealProcessor.delayMs config (n + 1)
              = DealProcessor.backoff_ms config n).
  { intros k Hk n Hn Hrep. apply delayMs_backoff; [lia | exact Hrep]. }
  destruct (retry_loop_run config request (S M) 0 fuel (Res.uninitialised u) w)
    as [(i & Hi & Hbefore & Hat & Hrun) | (Hall & Hrun)]; try lia.
  - rewrite attempts_from_schedule, Z.add_0_l in Hrun.
    exists i. eexists _, _. split; [exact Hrun|].
    cbn [api_ events]. rewrite Hat.
    split; [lia|]. split; [reflexivity|].
    split; [apply schedule_attempts|].
    split; [apply Hdelay; lia|]. split; [reflexivity|].
    split; [exact Hbefore|]. split; [reflexivity|].
    split; [apply isRetryable_iff|]. split; [reflexivity|].
    intros _. cbv zeta. repeat split.
  - rewrite attempts_from_schedule in Hrun.
    exists M. eexists _, _. split; [exact Hrun|].
    cbn [api_ events]. rewrite (Hall M) by lia.
    split; [lia|]. split; [reflexivity|].
    split; [apply schedule_attempts|].
    split; [apply Hdelay; lia|]. split; [reflexivity|].
    split; [intros j Hj; apply Hall; lia|].
    split; [split; [lia|reflexivity]|].
    split; [apply isRetryable_iff|].
    split; [unfold DealProcessor.exhausted; simpl; lia|].
    intros Hno. discriminate Hno.
Qed.

Lemma executeWithRetry_policy_witness :
  ∃ result w',
    DealProcessor.executeWithRetry (broker := Examples.broker) 6
      DealProcessor.default_config Examples.buy_eurusd Examples.leftover
      (Examples.world Examples.flaky)
    = Some (result, w')
    ∧ Res.retryCount result = 2
    ∧ Res.status result = SUCCESS
    ∧ events w'
      = [CallExecuteTrade Examples.buy_eurusd; SleepFor 100;
         CallExecuteTrade Examples.buy_eurusd; SleepFor 200;
         CallExecuteTrade Examples.buy_eurusd].
Proof.
  destruct (executeWithRetry_policy (broker := Examples.broker)
              DealProcessor.default_config Examples.buy_eurusd Examples.leftover
              (Examples.world Examples.flaky) 6)
    as (k & result & w' & Hrun & Hk & Hevents & _ & _ & _ & Hbefore & Hat & _
        & Hcount & Hfields).
  - vm_compute. split; [discriminate | reflexivity].
  - vm_compute. lia.
  - assert (Hk2 : k = 2%nat).
    { destruct k as [|[|[|k]]].
      + vm_compute in Hat. destruct Hat as [Hat _]. discriminate Hat.
      + vm_compute in Hat. destruct Hat as [Hat _]. discriminate Hat.
      + reflexivity.
      + specialize (Hbefore 2%nat ltac:(lia)). vm_compute in Hbefore.
        discriminate Hbefore. }
    subst k. exists result, w'. split; [exact Hrun|].
    split; [exact Hcount|]. split.
    + destruct Hfields as (_ & _ & Hstatus & _); [vm_compute; reflexivity|].
      rewrite Hstatus. vm_compute. reflexivity.
    + rewrite Hevents. reflexivity.
Defined.

(** ** Results of the mock broker and of the validator *)

Lemma pretty_N_go_nonempty (x : N) (s : string) :
  s ≠ "" → pretty_N_go x s ≠ "".
Proof.
  revert s. induction (N.lt_wf_0 x) as [x _ IH]; intros s Hs.
  destruct (N.eq_dec x 0%N) as [->|Hx].
  - rewrite pretty_N_go_0. exact Hs.
  - rewrite pretty_N_go_step by lia. apply IH.
    + apply N.div_lt; lia.
    + discriminate.
Qed.

Lemma to_string_int_nonempty (z : Z) : to_string_int z ≠ "".
Proof.
  unfold to_string_int, pretty, pretty_Z.
  destruct z as [|p|p]; [discriminate| |discriminate].
  unfold pretty, pretty_positive, pretty, pretty_N.
  destruct (decide _) as [E|_]; [discriminate E|].
  rewrite pretty_N_go_step by lia.
  apply pretty_N_go_nonempty. discriminate.
Qed.

Section MockFacts.
Context {text : DoubleToString}.
Import MockMTAPI.

(** An error result of [executeTrade]: no ticket, a message, and the
    execution price the storage happened to hold. *)
Lemma fail_with_shape status msg request (m : MockMTAPI) :
  let r := fail_with status msg
             (Res.set_timestamp (now_ m)
                (Res.set_retryCount 0
                   (Res.set_clientId (Req.clientId request)
                      (Res.set_requestId (Req.requestId request)
                         (Res.uninitialised (storage_ m)))))) in
  Res.status r = status
  ∧ Res.mtTicketId r = ""
  ∧ Res.errorMessage r = msg
  ∧ Res.executionPrice r = Res.ind_executionPrice (storage_ m).
Proof. repeat split. Qed.

Lemma generatePrice_positive symbol type (m : MockMTAPI) info :
  rng_ok (rng_ m) → quotes_ok m →
  symbols_ m !! symbol = Some info →
  (0 < (generatePrice symbol type m).1)%Q.
Proof.
  intros Hrng Hquotes Hinfo. unfold generatePrice. rewrite Hinfo.
  destruct (Hquotes _ _ Hinfo) as [Hbid Hask].
  destruct (Hrng (position (rng_ m))) as [Hlo Hhi].
  unfold failDist. simpl.
  destruct (bool_decide _); lra.
Qed.

(** Every result of [executeTrade] is either a success with a ticket, a
    positive price and no message, or an error with no ticket, a message,
    and an execution price that was never assigned. *)
Lemma executeTrade_shape request (m : MockMTAPI) :
  rng_ok (rng_ m) → quotes_ok m →
  let r := (executeTrade request m).1 in
  (Res.status r = SUCCESS ∧ Res.mtTicketId r ≠ ""
   ∧ (0 < Res.executionPrice r)%Q ∧ Res.errorMessage r = "")
  ∨ (Res.status r ≠ SUCCESS ∧ Res.mtTicketId r = ""
     ∧ Res.errorMessage r ≠ ""
     ∧ Res.executionPrice r = Res.ind_executionPrice (storage_ m)).
Proof.
  intros Hrng Hquotes. unfold executeTrade.
  destruct (shouldFail (simulateLatency m)) as [fail m1] eqn:Hfail.
  assert (Hm1 : symbols_ m1 = symbols_ m ∧ rng_ok (rng_ m1)).
  { unfold shouldFail, simulateLatency, failDist, latencyDist in Hfail.
    simpl in Hfail. injection Hfail as _ <-. split; [reflexivity|].
    intros n. apply Hrng. }
  destruct Hm1 as [Hsym Hrng1].
  destruct fail.
  { right. simpl. repeat split; discriminate. }
  destruct (symbols_ m1 !! Req.symbol request) as [info|] eqn:Hinfo.
  2:{ right. simpl. repeat split; discriminate. }
  destruct (negb (tradeAllowed info)).
  { right. simpl. repeat split; discriminate. }
  destruct (_ || _).
  { right. simpl. repeat split; discriminate. }
  cbv zeta.
  destruct (Qltb 0.000001 _).
  { right. simpl. repeat split; discriminate. }
  destruct (Qltb (freeMargin (account_ m1)) _).
  { right. simpl. repeat split; discriminate. }
  left.
  match goal with
  | |- context [generatePrice ?s ?t ?m2] =>
      pose proof (generatePrice_positive s t m2 info) as Hprice;
      destruct (generatePrice s t m2) as [price m3] eqn:Hgen
  end.
  unfold generateTicketId. simpl.
  repeat split.
  - apply to_string_int_nonempty.
  - apply Hprice; [exact Hrng1 | | exact Hinfo].
    unfold quotes_ok. simpl. rewrite Hsym. exact Hquotes.
Qed.

Lemma initial_quotes_ok failureRate g now u :
  quotes_ok (new failureRate g now u).
Proof.
  unfold quotes_ok, new. simpl. unfold initial_symbols.
  repeat (apply map_Forall_insert_2; [simpl; split; reflexivity|]).
  apply map_Forall_empty.
Qed.
End MockFacts.

Section ResultShape.
Context {B : Type} {broker : IMTBrokerAPI B} {text : DoubleToString}.

(** An error of the validator: not a success, no ticket, price 0.0 and a
    message. *)
Lemma validate_error_shape request now (v : Validator.Validator)
    (w : World B) result :
  (Validator.validate request now v w).1.1 = Some result →
  Res.status result ≠ SUCCESS
  ∧ Res.mtTicketId result = ""
  ∧ Res.executionPrice result = 0%Q
  ∧ Res.errorMessage result ≠ "".
Proof.
  unfold Validator.validate, Validator.validate_params, api_getSymbolInfo.
  repeat (case_bool_decide;
          [simpl; intros [= <-]; repeat split; discriminate|]).
  destruct (Qleb _ _); [simpl; intros [= <-]; repeat split; discriminate|].
  destruct (getSymbolInfo _ _) as [[info|] b];
    [|simpl; intros [= <-]; repeat split; discriminate].
  destruct (negb _); [simpl; intros [= <-]; repeat split; discriminate|].
  destruct (_ || _); [simpl; intros [= <-]; repeat split; discriminate|].
  destruct (Validator.present_and_le0 (Req.stopLoss _));
    [simpl; intros [= <-]; repeat split; discriminate|].
  destruct (Validator.present_and_le0 (Req.takeProfit _));
    [simpl; intros [= <-]; repeat split; discriminate|].
  simpl. discriminate.
Qed.

(** What holds of every answer of the broker, under an invariant of the
    broker, and of every exhaustion result, holds of every result of the
    retry loop. *)
Lemma retry_loop_result (P : TradeResult → Prop) (Inv : B → Prop)
    config request :
  (∀ b, Inv b →
        Inv (executeTrade request b).2
        ∧ ∀ attempt, P (Res.set_retryCount attempt (executeTrade request b).1)) →
  (∀ r0, P (DealProcessor.exhausted config r0)) →
  ∀ fuel attempt r0 (w : World B) result w',
    Inv (api_ w) →
    DealProcessor.retry_loop fuel config request attempt r0 w
    = Some (result, w') →
    P result.
Proof.
  intros Hstep Hexh. induction fuel as [|fuel IH];
    intros attempt r0 w result w' Hinv; [discriminate|].
  cbn [DealProcessor.retry_loop].
  destruct (attempt <=? DealProcessor.maxRetries config);
    [|intros [= <- _]; apply Hexh].
  set (w1 := if 0 <? attempt then _ else w).
  assert (Hapi : api_ w1 = api_ w) by (subst w1; destruct (0 <? attempt); reflexivity).
  unfold api_executeTrade. rewrite Hapi.
  destruct (Hstep _ Hinv) as [Hinv' HP].
  destruct (executeTrade request (api_ w)) as [answer b].
  destruct (_ || _).
  - intros [= <- _]. apply HP.
  - apply IH. exact Hinv'.
Qed.
End ResultShape.

Section MockEngine.
Context {text : DoubleToString}.
Import MockMTAPI.

Lemma executeTrade_keeps_invariant request (m : MockMTAPI) :
  rng_ok (rng_ m) ∧ quotes_ok m →
  rng_ok (rng_ (executeTrade request m).2) ∧ quotes_ok (executeTrade request m).2.
Proof.
  intros [Hrng Hquotes]. unfold executeTrade.
  destruct (shouldFail (simulateLatency m)) as [fail m1] eqn:Hfail.
  assert (Hm1 : symbols_ m1 = symbols_ m ∧ real_draw (rng_ m1) = real_draw (rng_ m)).
  { unfold shouldFail, simulateLatency, failDist, latencyDist in Hfail.
    simpl in Hfail. injection Hfail as _ <-. split; reflexivity. }
  destruct Hm1 as [Hsym Hdraw].
  assert (Hok1 : rng_ok (rng_ m1) ∧ quotes_ok m1).
  { split; [intros n; rewrite Hdraw; apply Hrng|].
    unfold quotes_ok. rewrite Hsym. exact Hquotes. }
  destruct fail; [exact Hok1|].
  destruct (symbols_ m1 !! Req.symbol request) as [info|] eqn:Hinfo;
    [|exact Hok1].
  destruct (negb _); [exact Hok1|].
  destruct (_ || _); [exact Hok1|].
  cbv zeta.
  destruct (Qltb 0.000001 _); [exact Hok1|].
  destruct (Qltb (freeMargin (account_ m1)) _); [exact Hok1|].
  unfold generatePrice, generateTicketId, failDist. simpl. rewrite Hinfo. simpl.
  split; [intros n; rewrite Hdraw; apply Hrng|].
  unfold quotes_ok. simpl. rewrite Hsym. exact Hquotes.
Qed.

Lemma getSymbolInfo_keeps_invariant symbol (m : MockMTAPI) :
  rng_ok (rng_ m) ∧ quotes_ok m →
  rng_ok (rng_ (getSymbolInfo symbol m).2) ∧ quotes_ok (getSymbolInfo symbol m).2.
Proof.
  intros [Hrng Hquotes]. unfold getSymbolInfo.
  destruct (symbols_ m !! symbol); [|split; assumption].
  unfold failDist. simpl. split; [intros n; apply Hrng|exact Hquotes].
Qed.

(** The part of C5 that holds on every path of the engine: a result of
    [processRequest] over the mock broker is a success exactly when it has
    a ticket, a positive price and no message. *)
Lemma processRequest_success_iff fuel config request now u
    (v : Validator.Validator) (w : World MockMTAPI) result v' w' :
  rng_ok (rng_ (api_ w)) → quotes_ok (api_ w) →
  DealProcessor.processRequest fuel config request now u v w
  = Some (result, v', w') →
  success_iff_ticketed result.
Proof.
  intros Hrng Hquotes. unfold DealProcessor.processRequest.
  pose proof (validate_error_shape request now v w) as Herr.
  destruct (Validator.validate request now v w) as [[outcome v1] w1] eqn:Hval.
  simpl in Herr. destruct outcome as [error|].
  - intros [= <- _ _]. destruct (Herr _ eq_refl) as (Hs & Ht & _ & _).
    unfold success_iff_ticketed. rewrite Ht. split; [congruence|tauto].
  - clear Herr.
    assert (Hinv : rng_ok (rng_ (api_ w1)) ∧ quotes_ok (api_ w1)).
    { pose proof (validate_broker request now v w) as Hw.
      rewrite Hval in Hw. simpl in Hw. destruct Hw as [-> | ->].
      - split; assumption.
      - by apply getSymbolInfo_keeps_invariant. }
    unfold DealProcessor.executeWithRetry.
    destruct (DealProcessor.retry_loop _ _ _ _ _ _) as [[r w2]|] eqn:Hloop;
      [|discriminate].
    intros [= <- _ _].
    apply (retry_loop_result success_iff_ticketed
             (λ m, rng_ok (rng_ m) ∧ quotes_ok m) config request)
      with (fuel := fuel) (attempt := 0) (r0 := Res.uninitialised u)
           (w := w1) (w' := w2); [| |exact Hinv|exact Hloop].
    + intros m Hm. split; [by apply executeTrade_keeps_invariant|].
      intros attempt. destruct Hm as [Hr Hq].
      destruct (executeTrade_shape request m Hr Hq)
        as [(Hs & Ht & Hp & He) | (Hs & Ht & _ & _)];
        unfold success_iff_ticketed; simpl.
      * tauto.
      * rewrite Ht. split; [intros E; destruct (Hs E)|tauto].
    + intros r0. unfold success_iff_ticketed. simpl.
      split; [discriminate|]. intros (_ & _ & E). discriminate E.
Qed.
End MockEngine.

Lemma validate_consumes_request_id_witness :
  Res.status
    <$> (Validator.validate (broker := Examples.broker) (text := Examples.fixed6)
           Examples.zero_volume 0 Validator.new
           (Examples.world Examples.accepting)).1.1
  = Some INVALID_PARAMS
  ∧ Validator.is_duplicate
      (Validator.validate (broker := Examples.broker) (text := Examples.fixed6)
         Examples.buy_eurusd 1
         (Validator.validate (broker := Examples.broker)
            (text := Examples.fixed6) Examples.zero_volume 0 Validator.new
            (Examples.world Examples.accepting)).1.2
         (Validator.validate (broker := Examples.broker)
            (text := Examples.fixed6) Examples.zero_volume 0 Validator.new
            (Examples.world Examples.accepting)).2).1.1
    = true.
Proof.
  split; [vm_compute; reflexivity|].
  destruct (validate_consumes_request_id (broker := Examples.broker)
              (text := Examples.fixed6) Examples.zero_volume 0 Validator.new
              (Examples.world Examples.accepting)) as (_ & _ & Hlater).
  destruct (Hlater [] Examples.buy_eurusd 1 eq_refl) as [_ Hdup].
  exact Hdup.
Defined.

Lemma validate_duplicate_pair_witness :
  Validator.is_duplicate
    (Validator.validate (broker := Examples.broker) (text := Examples.fixed6)
       Examples.buy_eurusd 0 Validator.new
       (Examples.world Examples.accepting)).1.1
  = false
  ∧ Validator.is_duplicate
      (Validator.validate (broker := Examples.broker) (text := Examples.fixed6)
         Examples.zero_volume 1
         (Validator.validate (broker := Examples.broker)
            (text := Examples.fixed6) Examples.buy_eurusd 0 Validator.new
            (Examples.world Examples.accepting)).1.2
         (Validator.validate (broker := Examples.broker)
            (text := Examples.fixed6) Examples.buy_eurusd 0 Validator.new
            (Examples.world Examples.accepting)).2).1.1
    = true.
Proof.
  destruct (validate_duplicate_pair (broker := Examples.broker)
              (text := Examples.fixed6) Examples.buy_eurusd Examples.zero_volume
              0 1 [] Validator.new (Examples.world Examples.accepting))
    as (Hfirst & Hsecond & _).
  - reflexivity.
  - apply not_elem_of_empty.
  - split; [exact Hfirst | exact Hsecond].
Defined.

(** C5: every result is a success exactly when it has a ticket, a positive
    price and no message, and every result that is not a success has
    execution price 0.  The second half fails on the broker path:
    [MockMTAPI::executeTrade] never assigns [executionPrice] on its error
    returns, so the value is whatever the storage held.  With the storage
    holding 1234.5 and a broker whose call times out, the answer is
    [CONNECTION_ERROR] with price 1234.5, and the result that
    [processRequest] hands on is [RETRY_EXHAUSTED] with price 1234.5. *)
Theorem broker_error_keeps_stale_price :
  let answer :=
    (MockMTAPI.executeTrade (text := Examples.fixed6)
       Examples.buy_eurusd Examples.failing).1 in
  Res.status answer = CONNECTION_ERROR
  ∧ Res.executionPrice answer = 1234.5%Q
  ∧ ∃ result v w,
      DealProcessor.processRequest (broker := Examples.broker)
        (text := Examples.fixed6) 6 DealProcessor.default_config
        Examples.buy_eurusd 0 Examples.leftover Validator.new
        (Examples.world Examples.failing)
      = Some (result, v, w)
      ∧ Res.status result = RETRY_EXHAUSTED
      ∧ Res.retryCount result = 3
      ∧ Res.executionPrice result = 1234.5%Q
      ∧ ¬ (Res.executionPrice result == 0)%Q.
Proof.
  split; [vm_compute; reflexivity|]. split; [vm_compute; reflexivity|].
  eexists _, _, _. split; [vm_compute; reflexivity|].
  repeat split. intros E. vm_compute in E. discriminate E.
Qed.

(** ** The scenarios of the specification, run on the model *)

Section Scenarios.
Local Existing Instance Examples.broker.
Local Existing Instance Examples.fixed6.

(** S1, happy path: one attempt, a ticket and a positive price. *)
Example scenario_happy_path :
  ∃ result v w,
    DealProcessor.processRequest 3 (DealProcessor.mkConfig 1 0 100)
      Examples.buy_eurusd 0 Examples.leftover Validator.new
      (Examples.world Examples.accepting)
    = Some (result, v, w)
    ∧ Res.status result = SUCCESS
    ∧ Res.retryCount result = 0
    ∧ Res.mtTicketId result = "100000"
    ∧ (0 < Res.executionPrice result)%Q
    ∧ events w = [CallGetSymbolInfo "EURUSD"; CallExecuteTrade Examples.buy_eurusd].
Proof.
  eexists _, _, _. split; [vm_compute; reflexivity|]. repeat split.
Qed.

(** S3, zero volume: rejected by the validator, no broker call. *)
Example scenario_invalid_volume :
  ∃ result v w,
    DealProcessor.processRequest 3 DealProcessor.default_config
      Examples.zero_volume 0 Examples.leftover Validator.new
      (Examples.world Examples.accepting)
    = Some (result, v, w)
    ∧ Res.status result = INVALID_PARAMS
    ∧ Res.errorMessage result = "Invalid volume: 0.000000"
    ∧ Res.retryCount result = 0
    ∧ events w = [].
Proof.
  eexists _, _, _. split; [vm_compute; reflexivity|]. repeat split.
Qed.

(** S4, unknown symbol: [getSymbolInfo] finds nothing. *)
Example scenario_unknown_symbol :
  ∃ result v w,
    DealProcessor.processRequest 3 DealProcessor.default_config
      Examples.unknown_symbol 0 Examples.leftover Validator.new
      (Examples.world Examples.accepting)
    = Some (result, v, w)
    ∧ Res.status result = INVALID_PARAMS
    ∧ Res.errorMessage result = "Unknown symbol: INVALID"
    ∧ events w = [CallGetSymbolInfo "INVALID"].
Proof.
  eexists _, _, _. split; [vm_compute; reflexivity|]. repeat split.
Qed.

(** S5, retry then success: two timeouts, pauses of 10 and 20 ms, success at
    attempt 2. *)
Example scenario_retry_then_success :
  ∃ result v w,
    DealProcessor.processRequest 6 (DealProcessor.mkConfig 4 3 10)
      Examples.buy_eurusd 0 Examples.leftover Validator.new
      (Examples.world Examples.flaky)
    = Some (result, v, w)
    ∧ Res.status result = SUCCESS
    ∧ Res.retryCount result = 2
    ∧ events w
      = [CallGetSymbolInfo "EURUSD";
         CallExecuteTrade Examples.buy_eurusd; SleepFor 10;
         CallExecuteTrade Examples.buy_eurusd; SleepFor 20;
         CallExecuteTrade Examples.buy_eurusd].
Proof.
  eexists _, _, _. split; [vm_compute; reflexivity|]. repeat split.
Qed.

(** S6, retry exhausted: four timeouts with pauses of 10, 20 and 40 ms. *)
Example scenario_retry_exhausted :
  ∃ result v w,
    DealProcessor.processRequest 6 (DealProcessor.mkConfig 4 3 10)
      Examples.buy_eurusd 0 Examples.leftover Validator.new
      (Examples.world Examples.failing)
    = Some (result, v, w)
    ∧ Res.status result = RETRY_EXHAUSTED
    ∧ Res.retryCount result = 3
    ∧ Res.errorMessage result
      = "All 4 attempts failed. Last error: MT5 server connection timeout during DealerSend()"
    ∧ events w
      = [CallGetSymbolInfo "EURUSD";
         CallExecuteTrade Examples.buy_eurusd; SleepFor 10;
         CallExecuteTrade Examples.buy_eurusd; SleepFor 20;
         CallExecuteTrade Examples.buy_eurusd; SleepFor 40;
         CallExecuteTrade Examples.buy_eurusd].
Proof.
  eexists _, _, _. split; [vm_compute; reflexivity|]. repeat split.
Qed.

(** The loop needs its fuel: with too little of it the model reports that
    the loop is still running. *)
Example scenario_out_of_fuel :
  DealProcessor.executeWithRetry 2 (DealProcessor.mkConfig 4 3 10)
    Examples.buy_eurusd Examples.leftover (Examples.world Examples.failing)
  = None.
Proof. vm_compute. reflexivity. Qed.
End Scenarios.

(** ** Submissions after [stop] *)

(** [submit] tests [running_] before it touches the queue, so a request
    submitted after [stop] is dropped there. *)
Lemma submit_after_stop {C : Type} (request : TradeRequest)
    (callback : option C) (p : DealProcessor.DealProcessor C) :
  DealProcessor.submit request callback (DealProcessor.stop p)
  = DealProcessor.stop p.
Proof.
  unfold DealProcessor.submit, DealProcessor.stop.
  destruct (DealProcessor.running_ p) eqn:E; simpl; [reflexivity|].
  rewrite E. reflexivity.
Qed.

(** * Further properties *)

(** ** The queue: order and closing *)

Section QueueRuns.
Context {T : Type}.
Implicit Types (q : Queue.ThreadSafeQueue T) (items : list T).

Lemma push_all_contents items q :
  QueueRun.push_all items q
  = Queue.mk (Queue.queue_ q ++ items) (Queue.shutdown_ q).
Proof.
  revert q. induction items as [|x items IH]; intros q.
  - simpl. rewrite app_nil_r. destruct q; reflexivity.
  - simpl. rewrite IH. simpl. rewrite <- app_assoc. reflexivity.
Qed.

(** Popping past the end: the queued items in order, then the answer of
    the empty queue every time. *)
Lemma pop_n_contents (front : list T) (latch : bool) (n : nat) :
  QueueRun.pop_n (length front + n) (Queue.mk front latch)
  = ((Queue.Item <$> front)
     ++ replicate n (if latch then Queue.Nullopt else Queue.Waiting),
     Queue.mk [] latch).
Proof.
  induction front as [|x front IH].
  - simpl. induction n as [|n IHn]; [reflexivity|].
    cbn [QueueRun.pop_n replicate]. unfold Queue.pop. cbn [Queue.queue_ Queue.shutdown_].
    destruct latch; rewrite IHn; reflexivity.
  - cbn [length Nat.add QueueRun.pop_n]. unfold Queue.pop.
    cbn [Queue.queue_ Queue.shutdown_]. rewrite IH. reflexivity.
Qed.
End QueueRuns.

(** X1: the queue is first in, first out.  Items pushed onto a queue come
    out of [pop] after the items that were already queued, in the order of
    the pushes, and [size()] grows by the number of pushes. *)
Theorem queue_first_in_first_out :
  ∀ (T : Type) (q : Queue.ThreadSafeQueue T) (items : list T),
    Queue.size (QueueRun.push_all items q) = (Queue.size q + length items)%nat
    ∧ QueueRun.pop_n (Queue.size q + length items) (QueueRun.push_all items q)
      = (Queue.Item <$> (Queue.queue_ q ++ items),
         Queue.mk [] (Queue.shutdown_ q)).
Proof.
  intros T q items. rewrite push_all_contents. split.
  - unfold Queue.size. simpl. apply length_app.
  - pose proof (pop_n_contents (Queue.queue_ q ++ items)
                  (Queue.shutdown_ q) 0) as Hpop.
    rewrite length_app, Nat.add_0_r, app_nil_r in Hpop. exact Hpop.
Qed.

(** X2: [shutdown()] discards nothing.  After it the consumers still get
    every queued item, in order, and from then on every [pop] returns
    [nullopt] and leaves the queue as it is; on a queue that was not shut
    down the same calls would block instead.  [tryPop] on the empty queue
    returns [nullopt] in both cases. *)
Theorem queue_drains_after_shutdown :
  ∀ (T : Type) (q : Queue.ThreadSafeQueue T) (n : nat),
    QueueRun.pop_n (Queue.size q + n) (Queue.shutdown q)
    = ((Queue.Item <$> Queue.queue_ q) ++ replicate n Queue.Nullopt,
       Queue.mk [] true)
    ∧ QueueRun.pop_n (Queue.size q + n) q
      = ((Queue.Item <$> Queue.queue_ q)
         ++ replicate n (if Queue.shutdown_ q
                         then Queue.Nullopt else Queue.Waiting),
         Queue.mk [] (Queue.shutdown_ q))
    ∧ Queue.tryPop (T := T) (Queue.mk [] (Queue.shutdown_ q))
      = (None, Queue.mk [] (Queue.shutdown_ q)).
Proof.
  intros T q n. split; [|split].
  - apply (pop_n_contents (Queue.queue_ q) true n).
  - destruct q as [front latch]. apply (pop_n_contents front latch n).
  - reflexivity.
Qed.

(** ** The tracker: missing keys, per-client statistics, summary rows *)

Section TrackerQueries.
Import Tracker.

Lemma last_recorded_None id rs :
  last_recorded id rs = None ↔ ∀ r, r ∈ rs → Res.requestId r ≠ id.
Proof.
  unfold last_recorded. rewrite last_None. split.
  - intros Hnil r Hin Hid.
    apply (filter_nil_not_elem_of _ _ r Hnil Hid Hin).
  - intros Hall. induction rs as [|r rs IH]; [reflexivity|].
    rewrite filter_cons_False by (apply Hall; left).
    apply IH. intros r' Hin. apply Hall. right. exact Hin.
Qed.

Lemma recorded_for_nil c rs :
  recorded_for c rs = [] ↔ ∀ r, r ∈ rs → Res.clientId r ≠ c.
Proof.
  unfold recorded_for. split.
  - intros Hnil r Hin Hc. apply fmap_nil_inv in Hnil.
    apply (filter_nil_not_elem_of _ _ r Hnil Hc Hin).
  - intros Hall. induction rs as [|r rs IH]; [reflexivity|].
    rewrite filter_cons_False by (apply Hall; left).
    apply IH. intros r' Hin. apply Hall. right. exact Hin.
Qed.

Lemma getByClientId_ids rs c :
  Res.requestId <$> getByClientId c (record_all rs new) = recorded_for c rs.
Proof.
  rewrite getByClientId_record_all. apply requestIds_of_lookups.
  intros id Hid. by apply (recorded_ids_are_stored _ c).
Qed.

Lemma getByClientId_length rs c :
  length (getByClientId c (record_all rs new)) = Summary.calls_for c rs.
Proof.
  rewrite <- (length_fmap Res.requestId), getByClientId_ids.
  unfold recorded_for, Summary.calls_for. apply length_fmap.
Qed.

(** The statistics loops skip the ids that [results_] does not hold, like
    [getByClientId] does. *)
Lemma fold_over_lookups {S : Type} (f : TradeResult → S → S)
    (m : gmap string TradeResult) (ids : list string) (acc : S) :
  foldl (λ acc reqId, match m !! reqId with
                      | None => acc
                      | Some result => f result acc
                      end) acc ids
  = foldl (λ acc result, f result acc) acc (omap (λ reqId, m !! reqId) ids).
Proof.
  revert acc. induction ids as [|id ids IH]; intros acc; [reflexivity|].
  simpl. destruct (m !! id); simpl; apply IH.
Qed.

Lemma tally_cons_list b (r : TradeResult) l :
  Summary.tally b (r :: l)
  = (if decide (bucket_of (Res.status r) = b) then 1 else 0) + Summary.tally b l.
Proof.
  unfold Summary.tally. rewrite filter_cons.
  destruct (decide _); simpl length; lia.
Qed.

(** The counters after a run of [count_result] over a list of results. *)
Lemma count_list_fold (l : list TradeResult) (acc : Stats) :
  0 <= totalRequests acc →
  totalRequests acc + Z.of_nat (length l) <= INT_MAX →
  0 <= successful acc <= totalRequests acc →
  0 <= rejected acc <= totalRequests acc →
  0 <= errors acc <= totalRequests acc →
  0 <= duplicates acc <= totalRequests acc →
  let s := foldl (λ stats r, count_result r stats) acc l in
  totalRequests s = totalRequests acc + Z.of_nat (length l)
  ∧ successful s = successful acc + Summary.tally Successful l
  ∧ rejected s = rejected acc + Summary.tally Rejected l
  ∧ errors s = errors acc + Summary.tally Errors l
  ∧ duplicates s = duplicates acc + Summary.tally Duplicates l.
Proof.
  unfold INT_MAX. revert acc.
  induction l as [|r l IH]; intros acc Ht Hmax Hs Hr He Hd.
  - unfold Summary.tally. simpl. repeat split; lia.
  - cbn [foldl]. rewrite !tally_cons_list.
    assert (Hlen : Z.of_nat (length (r :: l)) = 1 + Z.of_nat (length l))
      by (simpl length; lia).
    rewrite Hlen in *.
    destruct (count_result_fields r acc) as (C1 & C2 & C3 & C4 & C5);
      [unfold INT_MAX; lia | lia ..|].
    destruct (decide (bucket_of (Res.status r) = Successful));
    destruct (decide (bucket_of (Res.status r) = Rejected));
    destruct (decide (bucket_of (Res.status r) = Errors));
    destruct (decide (bucket_of (Res.status r) = Duplicates));
      (destruct (IH (count_result r acc)) as (I1 & I2 & I3 & I4 & I5);
       [lia ..|]);
      cbn zeta; rewrite I1, I2, I3, I4, I5; repeat split; lia.
Qed.
End TrackerQueries.

(** X3: queries for keys that were never recorded.  [getByRequestId]
    returns [nullopt] exactly for the request ids of no [record] call, and
    [getByClientId] returns the empty vector exactly for the client ids of
    no [record] call. *)
Theorem tracker_missing_keys :
  ∀ (rs : list TradeResult) (id c : string),
    (Tracker.getByRequestId id (Tracker.record_all rs Tracker.new) = None
     ↔ ∀ r, r ∈ rs → Res.requestId r ≠ id)
    ∧ (Tracker.getByClientId c (Tracker.record_all rs Tracker.new) = []
       ↔ ∀ r, r ∈ rs → Res.clientId r ≠ c).
Proof.
  intros rs id c. split.
  - unfold Tracker.getByRequestId. rewrite results_record_all.
    apply last_recorded_None.
  - rewrite <- recorded_for_nil, <- getByClientId_ids. split.
    + intros ->. reflexivity.
    + apply fmap_nil_inv.
Qed.

(** X4: [getClientStats(c)] is the tally of the vector that
    [getByClientId(c)] returns.  Its total is the number of [record] calls
    made for the client, a request id recorded twice being counted twice,
    and every call is counted in the bucket of the result that is stored
    under its request id now. *)
Theorem getClientStats_counts_record_calls :
  ∀ (rs : list TradeResult) (c : string),
    Z.of_nat (Summary.calls_for c rs) <= INT_MAX →
    let t := Tracker.record_all rs Tracker.new in
    let s := Tracker.getClientStats c t in
    let l := Tracker.getByClientId c t in
    Tracker.totalRequests s = Z.of_nat (Summary.calls_for c rs)
    ∧ Tracker.successful s = Summary.tally Tracker.Successful l
    ∧ Tracker.rejected s = Summary.tally Tracker.Rejected l
    ∧ Tracker.errors s = Summary.tally Tracker.Errors l
    ∧ Tracker.duplicates s = Summary.tally Tracker.Duplicates l
    ∧ Tracker.totalRequests s
      = Tracker.successful s + Tracker.rejected s
        + Tracker.errors s + Tracker.duplicates s.
Proof.
  intros rs c Hmax t s l.
  assert (Hlen : length l = Summary.calls_for c rs)
    by apply getByClientId_length.
  assert (Hs : s = foldl (λ stats r, Tracker.count_result r stats)
                     Tracker.stats0 l).
  { subst s l. unfold Tracker.getClientStats, Tracker.getByClientId.
    destruct (Tracker.clientRequests_ t !! c) as [ids|]; [|reflexivity].
    apply fold_over_lookups. }
  destruct (count_list_fold l Tracker.stats0) as (H1 & H2 & H3 & H4 & H5);
    simpl; [unfold INT_MAX in *; lia ..|].
  rewrite <- Hs in H1, H2, H3, H4, H5. simpl in H1, H2, H3, H4, H5.
  rewrite H1, H2, H3, H4, H5, Hlen. repeat split.
  rewrite <- Hlen. clear. unfold Summary.tally.
  induction l as [|r l IH]; [reflexivity|].
  rewrite !filter_cons. simpl length.
  destruct (Res.status r); cbn [Tracker.bucket_of];
    repeat (destruct (decide _) as [?|?]; try congruence; []);
    simpl length; lia.
Qed.

Lemma getClientStats_counts_record_calls_witness :
  Tracker.totalRequests
    (Tracker.getClientStats "a"
       (Tracker.record_all
          [Tracker.sample "a" "r1" CONNECTION_ERROR;
           Tracker.sample "a" "r1" SUCCESS; Tracker.sample "b" "r2" REJECTED]
          Tracker.new))
  = 2.
Proof.
  pose proof (getClientStats_counts_record_calls
    [Tracker.sample "a" "r1" CONNECTION_ERROR;
     Tracker.sample "a" "r1" SUCCESS; Tracker.sample "b" "r2" REJECTED] "a")
    as Hstats.
  destruct Hstats as (Htotal & _).
  - vm_compute. discriminate.
  - rewrite Htotal. vm_compute. reflexivity.
Defined.

Section DistinctIds.
Import Tracker.

Lemma dom_results_record_all rs :
  dom (results_ (record_all rs new))
  = list_to_set (C := gset string) (Res.requestId <$> rs).
Proof.
  induction rs as [|r rs IH] using rev_ind.
  - simpl. apply dom_empty_L.
  - rewrite record_all_snoc. simpl. rewrite dom_insert_L, IH.
    rewrite fmap_app, list_to_set_app_L. simpl.
    rewrite (right_id_L ∅ (∪)). apply (comm_L (∪)).
Qed.

Lemma size_results_record_all rs :
  size (results_ (record_all rs new))
  = length (remove_dups (Res.requestId <$> rs)).
Proof.
  rewrite <- size_dom, dom_results_record_all.
  rewrite <- (size_list_to_set (C := gset string) (remove_dups _))
    by apply NoDup_remove_dups.
  f_equal. apply set_eq. intros x.
  rewrite !elem_of_list_to_set, elem_of_remove_dups. reflexivity.
Qed.
End DistinctIds.

(** X5: [getStats()] counts request ids, not [record] calls: after any
    sequence of [record] calls its total is the number of distinct request
    ids recorded, so a result recorded again under the same request id
    (as the [DUPLICATE] result of a repeated request is) replaces the
    earlier one in the statistics. *)
Theorem getStats_counts_distinct_ids :
  ∀ rs : list TradeResult,
    Z.of_nat (length rs) <= INT_MAX →
    Tracker.totalRequests (Tracker.getStats (Tracker.record_all rs Tracker.new))
    = Z.of_nat (length (remove_dups (Res.requestId <$> rs))).
Proof.
  intros rs Hmax. rewrite <- size_results_record_all.
  assert (Hsize : (size (Tracker.results_ (Tracker.record_all rs Tracker.new))
                   <= length rs)%nat).
  { rewrite size_results_record_all.
    rewrite <- (length_fmap Res.requestId rs).
    generalize (Res.requestId <$> rs). intros l.
    induction l as [|x l IH]; simpl; [lia|].
    destruct (decide_rel _ _ _); simpl; lia. }
  unfold Tracker.getStats. rewrite <- length_map_to_list in *.
  destruct (count_results_fold
              (map_to_list (Tracker.results_ (Tracker.record_all rs Tracker.new)))
              Tracker.stats0) as (H1 & _);
    simpl; [unfold INT_MAX in *; lia ..|].
  simpl in H1. exact H1.
Qed.

Lemma getStats_counts_distinct_ids_witness :
  Tracker.totalRequests
    (Tracker.getStats
       (Tracker.record_all
          [Tracker.sample "a" "r1" SUCCESS; Tracker.sample "a" "r1" DUPLICATE;
           Tracker.sample "b" "r2" REJECTED] Tracker.new))
  = 2.
Proof.
  rewrite (getStats_counts_distinct_ids
             [Tracker.sample "a" "r1" SUCCESS; Tracker.sample "a" "r1" DUPLICATE;
              Tracker.sample "b" "r2" REJECTED]).
  - vm_compute. reflexivity.
  - vm_compute. discriminate.
Defined.

Section SummaryRows.
Import Tracker.

Lemma getClientStats_fold c t :
  getClientStats c t
  = foldl (λ stats r, count_result r stats) stats0 (getByClientId c t).
Proof.
  unfold getClientStats, getByClientId.
  destruct (clientRequests_ t !! c) as [ids|]; [|reflexivity].
  apply fold_over_lookups.
Qed.

Lemma row_fold t ids acc :
  foldl (Summary.count_row t) acc ids
  = foldl (λ acc r, Summary.row_step r acc) acc
      (omap (λ reqId, results_ t !! reqId) ids).
Proof. apply (fold_over_lookups Summary.row_step). Qed.

Lemma row_step_fields (r : TradeResult) (acc : Summary.Counts) :
  0 <= Summary.ok acc < INT_MAX → 0 <= Summary.fail acc < INT_MAX →
  0 <= Summary.dup acc < INT_MAX →
  Summary.ok (Summary.row_step r acc)
  = Summary.ok acc + Summary.tally Successful [r]
  ∧ Summary.dup (Summary.row_step r acc)
    = Summary.dup acc + Summary.tally Duplicates [r]
  ∧ Summary.fail (Summary.row_step r acc)
    = Summary.fail acc + Summary.tally Rejected [r] + Summary.tally Errors [r].
Proof.
  unfold INT_MAX. intros Ho Hf Hd.
  assert (Hw : ∀ x, 0 <= x < 2147483647 → int_add x 1 = x + 1).
  { intros x Hx. apply int_add_small. unfold in_int, INT_MIN, INT_MAX. lia. }
  unfold Summary.row_step, Res.isSuccess, Summary.tally.
  rewrite !filter_cons, !filter_nil.
  destruct (Res.status r); cbn [bucket_of];
    repeat (destruct (decide _) as [?|?]; try congruence; []);
    simpl; rewrite !Hw by lia; repeat split; lia.
Qed.

Lemma row_counts (l : list TradeResult) (acc : Summary.Counts) :
  0 <= Summary.ok acc → 0 <= Summary.fail acc → 0 <= Summary.dup acc →
  Summary.ok acc + Summary.fail acc + Summary.dup acc + Z.of_nat (length l)
  <= INT_MAX →
  let s := foldl (λ acc r, Summary.row_step r acc) acc l in
  Summary.ok s = Summary.ok acc + Summary.tally Successful l
  ∧ Summary.dup s = Summary.dup acc + Summary.tally Duplicates l
  ∧ Summary.fail s
    = Summary.fail acc + Summary.tally Rejected l + Summary.tally Errors l.
Proof.
  unfold INT_MAX. revert acc.
  induction l as [|r l IH]; intros acc Ho Hf Hd Hmax.
  - unfold Summary.tally. simpl. repeat split; lia.
  - cbn [foldl].
    assert (Hlen : Z.of_nat (length (r :: l)) = 1 + Z.of_nat (length l))
      by (simpl length; lia).
    rewrite Hlen in Hmax.
    destruct (row_step_fields r acc) as (S1 & S2 & S3);
      [unfold INT_MAX; lia ..|].
    assert (Hone : ∀ b, Summary.tally b (r :: l)
                        = Summary.tally b [r] + Summary.tally b l).
    { intros b. unfold Summary.tally.
      change (r :: l) with ([r] ++ l). rewrite filter_app, length_app. lia. }
    assert (Hsum : 0 <= Summary.tally Successful [r]
                   ∧ 0 <= Summary.tally Duplicates [r]
                   ∧ 0 <= Summary.tally Rejected [r]
                   ∧ 0 <= Summary.tally Errors [r]
                   ∧ Summary.tally Successful [r] + Summary.tally Duplicates [r]
                     + Summary.tally Rejected [r] + Summary.tally Errors [r] = 1).
    { unfold Summary.tally. rewrite !filter_cons, !filter_nil.
      destruct (Res.status r); cbn [bucket_of];
        repeat (destruct (decide _) as [?|?]; try congruence; []);
        simpl; lia. }
    destruct (IH (Summary.row_step r acc)) as (I1 & I2 & I3); [lia ..|].
    cbn zeta. rewrite I1, I2, I3, S1, S2, S3, !Hone. repeat split; lia.
Qed.
End SummaryRows.

(** X6: the per-client breakdown of [printSummary] agrees with
    [getClientStats].  For a client with recorded results the row has
    Total = [totalRequests], OK = [successful], Dup = [duplicates] and
    Fail = [rejected + errors], so that Total = OK + Fail + Dup. *)
Theorem summary_row_matches_client_stats :
  ∀ (rs : list TradeResult) (c : string) (reqIds : list string),
    Tracker.clientRequests_ (Tracker.record_all rs Tracker.new) !! c
    = Some reqIds →
    Z.of_nat (length reqIds) <= INT_MAX →
    let t := Tracker.record_all rs Tracker.new in
    let s := Tracker.getClientStats c t in
    let total := (Summary.row t reqIds).1 in
    let counts := (Summary.row t reqIds).2 in
    (c, Summary.row t reqIds) ∈ Summary.breakdown t
    ∧ Z.of_nat total = Tracker.totalRequests s
    ∧ Summary.ok counts = Tracker.successful s
    ∧ Summary.dup counts = Tracker.duplicates s
    ∧ Summary.fail counts = Tracker.rejected s + Tracker.errors s
    ∧ Z.of_nat total
      = Summary.ok counts + Summary.fail counts + Summary.dup counts.
Proof.
  intros rs c reqIds Hids Hmax t s total counts.
  assert (Hrec : reqIds = Tracker.recorded_for c rs)
    by (by apply clientRequests_Some).
  assert (Hl : Tracker.getByClientId c t
               = omap (λ reqId, Tracker.results_ t !! reqId) reqIds).
  { unfold Tracker.getByClientId. fold t in Hids. rewrite Hids. reflexivity. }
  assert (Hlen : length (Tracker.getByClientId c t) = length reqIds).
  { subst t. rewrite getByClientId_length, Hrec.
    unfold Tracker.recorded_for, Summary.calls_for.
    symmetry. apply length_fmap. }
  split.
  { unfold Summary.breakdown. apply list_elem_of_fmap.
    exists (c, reqIds). split; [reflexivity|].
    apply elem_of_map_to_list. exact Hids. }
  destruct (count_list_fold (Tracker.getByClientId c t) Tracker.stats0)
    as (H1 & H2 & H3 & H4 & H5);
    simpl; [unfold INT_MAX in *; lia ..|].
  rewrite <- getClientStats_fold in H1, H2, H3, H4, H5.
  fold s in H1, H2, H3, H4, H5. simpl in H1, H2, H3, H4, H5.
  destruct (row_counts (Tracker.getByClientId c t) (Summary.mkCounts 0 0 0))
    as (R1 & R2 & R3); simpl; [unfold INT_MAX in *; lia ..|].
  assert (Hfold : foldl (λ acc r, Summary.row_step r acc)
                     (Summary.mkCounts 0 0 0) (Tracker.getByClientId c t)
                   = foldl (Summary.count_row t) (Summary.mkCounts 0 0 0) reqIds)
    by (rewrite row_fold, Hl; reflexivity).
  rewrite Hfold in R1, R2, R3. simpl in R1, R2, R3.
  subst total counts. unfold Summary.row. cbn [fst snd].
  rewrite R1, R2, R3, H1, H2, H3, H4, H5, Hlen.
  repeat split; try lia.
  rewrite <- Hlen. clear. unfold Summary.tally.
  induction (Tracker.getByClientId c t) as [|r l IH]; [reflexivity|].
  rewrite !filter_cons. simpl length.
  destruct (Res.status r); cbn [Tracker.bucket_of];
    repeat (destruct (decide _) as [?|?]; try congruence; []);
    simpl length; lia.
Qed.

Lemma summary_row_matches_client_stats_witness :
  Summary.row
    (Tracker.record_all
       [Tracker.sample "a" "r1" SUCCESS; Tracker.sample "a" "r2" REJECTED;
        Tracker.sample "a" "r2" DUPLICATE] Tracker.new)
    ["r1"; "r2"; "r2"]
  ∈ snd <$> Summary.breakdown
              (Tracker.record_all
                 [Tracker.sample "a" "r1" SUCCESS;
                  Tracker.sample "a" "r2" REJECTED;
                  Tracker.sample "a" "r2" DUPLICATE] Tracker.new).
Proof.
  destruct (summary_row_matches_client_stats
              [Tracker.sample "a" "r1" SUCCESS; Tracker.sample "a" "r2" REJECTED;
               Tracker.sample "a" "r2" DUPLICATE] "a" ["r1"; "r2"; "r2"])
    as (Hrow & _).
  - vm_compute. reflexivity.
  - vm_compute. discriminate.
  - apply list_elem_of_fmap. eexists. split; [|exact Hrow]. reflexivity.
Defined.

(** ** The validator: broker calls, error results, runs of calls *)

(** X7: [validate] makes at most one broker call, a [getSymbolInfo].  It
    calls [getSymbolInfo(request.symbol)] once when the request id is new,
    client id and symbol are non-empty and the test [volume <= 0.0] is
    false, and in every other case it returns without touching the broker.
    The test is false for every positive volume and for a volume that is
    not a number, so that such a request reaches the broker too. *)
Theorem validate_broker_calls :
  ∀ {B : Type} (getSymbolInfo : string → B → option IEEE.Symbol * B)
    (to_string : double → string) (request : IEEE.TradeRequest) (now : Z)
    (v : Validator.Validator) (w : World B),
    let w' := (IEEE.validate getSymbolInfo to_string request now v w).2 in
    let reaches_broker :=
      ((IEEE.requestId request ∉ Validator.seenRequests_ v)
       ∧ IEEE.clientId request ≠ "" ∧ IEEE.symbol request ≠ ""
       ∧ Double.leb (IEEE.volume request) Double.zero = false) in
    ((reaches_broker
      ∧ w' = mkWorld (getSymbolInfo (IEEE.symbol request) (api_ w)).2
               (events w ++ [CallGetSymbolInfo (IEEE.symbol request)]))
     ∨ (¬ reaches_broker ∧ w' = w))
    ∧ (Double.leb (IEEE.volume request) Double.zero = false
       ↔ Double.ltb Double.zero (IEEE.volume request) = true
         ∨ Double.is_nan (IEEE.volume request) = true).
Proof.
  intros B getSymbolInfo to_string request now v w w' reaches.
  subst w' reaches. split; [apply validate64_world|].
  destruct (Double.is_nan (IEEE.volume request)) eqn:Hnan.
  - destruct (IEEE.volume request) as [q| |[|]|[|]]; try discriminate Hnan;
      (split; [intros _; right; reflexivity|reflexivity]).
  - rewrite (leb_zero_ltb _ Hnan). split; [intros H; left; exact H|].
    intros [H|H]; [exact H|discriminate H].
Qed.

Local Ltac error_case :=
  simpl; repeat split; try discriminate; try reflexivity.

(** X8: every error result of [validate] carries the ids of the request and
    the time of the call, has no ticket, execution price 0.0, retry count 0
    and a non-empty message, and is not a success; the message of a
    [DUPLICATE] result names the request id. *)
Theorem validate_error_results :
  ∀ {B : Type} {broker : IMTBrokerAPI B} {text : DoubleToString}
    (request : TradeRequest) (now : Z)
    (v : Validator.Validator) (w : World B),
    match (Validator.validate request now v w).1.1 with
    | None => True
    | Some error =>
        Res.requestId error = Req.requestId request
        ∧ Res.clientId error = Req.clientId request
        ∧ Res.timestamp error = now
        ∧ Res.mtTicketId error = ""
        ∧ Res.executionPrice error = 0%Q
        ∧ Res.retryCount error = 0
        ∧ Res.errorMessage error ≠ ""
        ∧ Res.isSuccess error = false
        ∧ (Res.status error = DUPLICATE
           ↔ Res.errorMessage error
             = "Duplicate request ID: " +:+ Req.requestId request)
    end.
Proof.
  intros B broker text request now v w.
  unfold Validator.validate, Validator.validate_params, api_getSymbolInfo.
  repeat (case_bool_decide; [error_case|]).
  destruct (Qleb _ _); [error_case|].
  destruct (getSymbolInfo _ _) as [[info|] b]; [|error_case].
  destruct (negb _); [error_case|].
  destruct (_ || _); [error_case|].
  destruct (Validator.present_and_le0 (Req.stopLoss _)); [error_case|].
  destruct (Validator.present_and_le0 (Req.takeProfit _)); [error_case|].
  simpl. exact I.
Qed.

Section ValidatorRuns.
Context {B : Type} {broker : IMTBrokerAPI B} {text : DoubleToString}.
Import Validator ValidatorRun.

Lemma validate_each_cons request now rest (v : Validator) (w : World B) :
  validate_each ((request, now) :: rest) v w
  = ((validate request now v w).1.1
       :: (validate_each rest (validate request now v w).1.2
             (validate request now v w).2).1.1,
     (validate_each rest (validate request now v w).1.2
        (validate request now v w).2).1.2,
     (validate_each rest (validate request now v w).1.2
        (validate request now v w).2).2).
Proof.
  simpl. destruct (validate request now v w) as [[outcome v1] w1]. simpl.
  destruct (validate_each rest v1 w1) as [[outcomes v2] w2]. reflexivity.
Qed.

(** A run of calls: the ids of the calls are added to the deduplication
    set, and each id that was not in the set yields one outcome that is not
    [DUPLICATE]. *)
Lemma validate_each_run calls (v : Validator) (w : World B) :
  seenRequests_ (validate_each calls v w).1.2
  = seenRequests_ v ∪ list_to_set (request_ids calls)
  ∧ length (validate_each calls v w).1.1 = length calls
  ∧ (length (admitted (validate_each calls v w).1.1)
     + size (seenRequests_ v))%nat
    = size (seenRequests_ (validate_each calls v w).1.2).
Proof.
  revert v w. induction calls as [|[request now] calls IH]; intros v w.
  - simpl. rewrite (right_id_L ∅ (∪)). auto.
  - rewrite validate_each_cons. cbn [fst snd].
    destruct (IH (validate request now v w).1.2 (validate request now v w).2)
      as (Hseen & Hlen & Hcount).
    rewrite validate_inserts in Hseen, Hcount.
    split; [|split].
    + rewrite Hseen. unfold request_ids. simpl.
      rewrite (assoc_L (∪)). f_equal. apply (comm_L (∪)).
    + simpl. rewrite Hlen. reflexivity.
    + rewrite <- Hcount. unfold admitted. rewrite filter_cons.
      destruct (decide (Req.requestId request ∈ seenRequests_ v)) as [Hin|Hin].
      * rewrite validate_seen by exact Hin. simpl.
        f_equal. f_equal. symmetry.
        apply subseteq_union_1_L, singleton_subseteq_l, Hin.
      * rewrite validate_fresh_not_duplicate by exact Hin.
        destruct (decide _) as [_|?]; [|congruence].
        rewrite size_union by (apply disjoint_singleton_l, Hin).
        rewrite size_singleton. simpl. lia.
Qed.
End ValidatorRuns.

(** X9: in any run of [validate] calls on a new validator the calls that
    are not answered [DUPLICATE] are as many as there are distinct request
    ids in the run, and the deduplication set ends up holding exactly the
    request ids of the run, whatever the outcomes were. *)
Theorem validate_run_admits_distinct_ids :
  ∀ {B : Type} {broker : IMTBrokerAPI B} {text : DoubleToString}
    (calls : list (TradeRequest * Z)) (w : World B),
    let run := ValidatorRun.validate_each calls Validator.new w in
    Validator.seenRequests_ run.1.2
    = list_to_set (ValidatorRun.request_ids calls)
    ∧ length run.1.1 = length calls
    ∧ length (ValidatorRun.admitted run.1.1)
      = length (remove_dups (ValidatorRun.request_ids calls))
    ∧ size (Validator.seenRequests_ run.1.2)
      = length (remove_dups (ValidatorRun.request_ids calls)).
Proof.
  intros B broker text calls w run. subst run.
  destruct (validate_each_run calls Validator.new w) as (Hseen & Hlen & Hcount).
  cbn [Validator.new Validator.seenRequests_] in Hseen, Hcount.
  rewrite (left_id_L ∅ (∪)) in Hseen.
  rewrite size_empty, Nat.add_0_r in Hcount.
  assert (Hsize : size (Validator.seenRequests_
                          (ValidatorRun.validate_each calls Validator.new w).1.2)
                  = length (remove_dups (ValidatorRun.request_ids calls))).
  { rewrite Hseen.
    rewrite <- (size_list_to_set (C := gset string) (remove_dups _))
      by apply NoDup_remove_dups.
    f_equal. apply set_eq. intros x.
    rewrite !elem_of_list_to_set, elem_of_remove_dups. reflexivity. }
  repeat split; [exact Hseen | exact Hlen | | exact Hsize].
  rewrite Hcount. exact Hsize.
Qed.

(** ** The processor: what the retry loop returns *)

Section RetryResults.
Context {B : Type} {broker : IMTBrokerAPI B}.

Lemma retry_loop_not_retryable fuel config request :
  ∀ attempt r0 (w : World B) result w',
    DealProcessor.retry_loop fuel config request attempt r0 w
    = Some (result, w') →
    Res.isRetryable result = false.
Proof.
  induction fuel as [|fuel IH]; intros attempt r0 w result w'; [discriminate|].
  cbn [DealProcessor.retry_loop].
  destruct (attempt <=? DealProcessor.maxRetries config);
    [|intros [= <- _]; reflexivity].
  destruct (api_executeTrade request _) as [answer w1].
  rewrite isSuccess_not_retryable.
  destruct (Res.isRetryable (Res.set_retryCount attempt answer)) eqn:E; simpl.
  - apply IH.
  - intros [= <- _]. exact E.
Qed.
End RetryResults.

(** X10: [executeWithRetry] never hands on a retryable status.  Whatever
    the configuration and the broker, a result it returns has a status
    other than [CONNECTION_ERROR] and [REJECTED]: a retryable answer is
    either retried or turned into [RETRY_EXHAUSTED]. *)
Theorem executeWithRetry_never_retryable :
  ∀ {B : Type} {broker : IMTBrokerAPI B} (fuel : nat)
    (config : DealProcessor.ProcessorConfig) (request : TradeRequest)
    (u : Res.Indeterminate) (w w' : World B) (result : TradeResult),
    DealProcessor.executeWithRetry fuel config request u w = Some (result, w') →
    Res.status result ≠ CONNECTION_ERROR ∧ Res.status result ≠ REJECTED.
Proof.
  intros B broker fuel config request u w w' result Hrun.
  apply retry_loop_not_retryable in Hrun.
  unfold Res.isRetryable in Hrun.
  destruct (Res.status result); simpl in Hrun;
    split; try discriminate; discriminate Hrun.
Qed.

Lemma executeWithRetry_never_retryable_witness :
  ∃ result w',
    DealProcessor.executeWithRetry (broker := Examples.broker) 6
      DealProcessor.default_config Examples.buy_eurusd Examples.leftover
      (Examples.world Examples.failing)
    = Some (result, w')
    ∧ Res.status result ≠ CONNECTION_ERROR ∧ Res.status result ≠ REJECTED.
Proof.
  eexists _, _. split; [vm_compute; reflexivity|].
  eapply (executeWithRetry_never_retryable (broker := Examples.broker) 6
            DealProcessor.default_config Examples.buy_eurusd Examples.leftover
            (Examples.world Examples.failing)).
  vm_compute. reflexivity.
Defined.

(** The events of a [validate] call: none, or the one [getSymbolInfo]
    call. *)
Lemma validate_broker_events {B : Type} {broker : IMTBrokerAPI B}
    {text : DoubleToString} request now
    (v : Validator.Validator) (w : World B) :
  events (Validator.validate request now v w).2 = events w
  ∨ events (Validator.validate request now v w).2
    = events w ++ [CallGetSymbolInfo (Req.symbol request)].
Proof.
  unfold Validator.validate, Validator.validate_params, api_getSymbolInfo.
  repeat (case_bool_decide; [left; reflexivity|]).
  destruct (Qleb _ _); [left; reflexivity|].
  right. destruct (getSymbolInfo _ _) as [[info|] b]; [|reflexivity].
  destruct (negb _); [reflexivity|].
  destruct (_ || _); [reflexivity|].
  destruct (Validator.present_and_le0 (Req.stopLoss _)); [reflexivity|].
  destruct (Validator.present_and_le0 (Req.takeProfit _)); reflexivity.
Qed.

(** X11: with a negative [maxRetries] no attempt is made at all.  A
    request that passes validation is answered without any [executeTrade]
    call by a [RETRY_EXHAUSTED] result built on the never assigned local
    result: its request id and client id are empty, its retry count is
    [maxRetries] and its message ends after "Last error: ". *)
Theorem negative_maxRetries_skips_the_broker :
  ∀ {B : Type} {broker : IMTBrokerAPI B} {text : DoubleToString}
    (fuel : nat) (config : DealProcessor.ProcessorConfig)
    (request : TradeRequest) (now : Z) (u : Res.Indeterminate)
    (v : Validator.Validator) (w : World B),
    DealProcessor.maxRetries config < 0 →
    (Validator.validate request now v w).1.1 = None →
    ∃ result,
      DealProcessor.processRequest (S fuel) config request now u v w
      = Some (result, (Validator.validate request now v w).1.2,
              (Validator.validate request now v w).2)
      ∧ Res.status result = RETRY_EXHAUSTED
      ∧ Res.requestId result = "" ∧ Res.clientId result = ""
      ∧ Res.retryCount result = DealProcessor.maxRetries config
      ∧ Res.errorMessage result
        = "All " +:+ to_string_int (int_add (DealProcessor.maxRetries config) 1)
          +:+ " attempts failed. Last error: "
      ∧ filter (λ e, is_execute_call e)
          (events (Validator.validate request now v w).2) 
        = filter (λ e, is_execute_call e) (events w).
Proof.
  intros B broker text fuel config request now u v w Hneg Hpass.
  unfold DealProcessor.processRequest.
  destruct (Validator.validate request now v w) as [[outcome v1] w1] eqn:Hval.
  simpl in Hpass. subst outcome.
  unfold DealProcessor.executeWithRetry. cbn [DealProcessor.retry_loop].
  rewrite (proj2 (Z.leb_gt _ _)) by lia.
  eexists. split; [reflexivity|].
  unfold DealProcessor.exhausted. cbn [Res.status Res.requestId Res.clientId
    Res.retryCount Res.errorMessage Res.set_status Res.set_errorMessage
    Res.set_retryCount Res.uninitialised].
  repeat split.
  pose proof (validate_broker_events request now v w) as Hev.
  rewrite Hval in Hev. cbn [snd] in Hev |- *.
  destruct Hev as [-> | ->]; [reflexivity|].
  rewrite filter_app. simpl. apply app_nil_r.
Qed.

Lemma negative_maxRetries_skips_the_broker_witness :
  ∃ result,
    DealProcessor.processRequest (broker := Examples.broker)
      (text := Examples.fixed6) 1 (DealProcessor.mkConfig 4 (-1) 100)
      Examples.buy_eurusd 0 Examples.leftover Validator.new
      (Examples.world Examples.accepting)
    = Some (result,
            (Validator.validate (broker := Examples.broker)
               (text := Examples.fixed6) Examples.buy_eurusd 0 Validator.new
               (Examples.world Examples.accepting)).1.2,
            (Validator.validate (broker := Examples.broker)
               (text := Examples.fixed6) Examples.buy_eurusd 0 Validator.new
               (Examples.world Examples.accepting)).2)
    ∧ Res.status result = RETRY_EXHAUSTED
    ∧ Res.requestId result = ""
    ∧ Res.errorMessage result = "All 0 attempts failed. Last error: ".
Proof.
  destruct (negative_maxRetries_skips_the_broker (broker := Examples.broker)
              (text := Examples.fixed6) 0 (DealProcessor.mkConfig 4 (-1) 100)
              Examples.buy_eurusd 0 Examples.leftover Validator.new
              (Examples.world Examples.accepting))
    as (result & Hrun & Hstatus & Hid & _ & _ & Hmsg & _).
  - vm_compute. reflexivity.
  - vm_compute. reflexivity.
  - exists result. repeat split; assumption.
Defined.

Section Backoff.
Import DealProcessor.

Lemma total_pause_app (a b : list Event) :
  Worker.total_pause (a ++ b) = Worker.total_pause a + Worker.total_pause b.
Proof.
  induction a as [|e a IH]; [reflexivity|].
  simpl. rewrite IH. destruct e; lia.
Qed.

(** The pauses of a run that ends at attempt [k] add up to
    [retryBaseMs * (2^k - 1)]. *)
Lemma schedule_total_pause config request (k : nat) :
  Z.of_nat k < INT_MAX →
  (∀ n, 0 <= n < Z.of_nat k → in_int (backoff_ms config n)) →
  Worker.total_pause (schedule (λ n, delayMs config (n + 1)) request k)
  = retryBaseMs config * (2 ^ Z.of_nat k - 1).
Proof.
  induction k as [|k IH]; intros Hk Hrep.
  - simpl. lia.
  - cbn [schedule]. rewrite total_pause_app, IH; [|lia|intros n Hn; apply Hrep; lia].
    rewrite delayMs_backoff by (try apply Hrep; lia).
    unfold backoff_ms. simpl Worker.total_pause.
    rewrite Nat2Z.inj_succ, Z.pow_succ_r by lia. lia.
Qed.
End Backoff.

(** X12: the backoff of a request adds up to
    [retryBaseMs * (2^k - 1)] milliseconds, [k] being the retry count of its
    result, as long as the single delays are [int]s: nothing for a first-try
    answer, 700 ms for an exhausted request with the default configuration. *)
Theorem executeWithRetry_total_backoff :
  ∀ {B : Type} {broker : IMTBrokerAPI B}
    (config : DealProcessor.ProcessorConfig) (request : TradeRequest)
    (u : Res.Indeterminate) (w : World B) (fuel : nat),
    0 <= DealProcessor.maxRetries config < INT_MAX →
    (Z.to_nat (DealProcessor.maxRetries config) + 1 < fuel)%nat →
    (∀ n, 0 <= n < DealProcessor.maxRetries config →
          in_int (DealProcessor.backoff_ms config n)) →
    ∃ result w',
      DealProcessor.executeWithRetry fuel config request u w = Some (result, w')
      ∧ 0 <= Res.retryCount result <= DealProcessor.maxRetries config
      ∧ Worker.total_pause (events w')
        = Worker.total_pause (events w)
          + DealProcessor.retryBaseMs config * (2 ^ Res.retryCount result - 1).
Proof.
  intros B broker config request u w fuel Hmax Hfuel Hrep.
  set (M := Z.to_nat (DealProcessor.maxRetries config)) in *.
  destruct (retry_loop_run config request (S M) 0 fuel (Res.uninitialised u) w)
    as [(i & Hi & _ & _ & Hrun) | (_ & Hrun)]; try lia.
  - rewrite attempts_from_schedule, Z.add_0_l in Hrun.
    eexists _, _. split; [exact Hrun|]. cbn [events Res.retryCount Res.set_retryCount].
    split; [lia|].
    rewrite total_pause_app, schedule_total_pause;
      [reflexivity | lia | intros n Hn; apply Hrep; lia].
  - rewrite attempts_from_schedule in Hrun.
    eexists _, _. split; [exact Hrun|].
    cbn [events]. unfold DealProcessor.exhausted.
    cbn [Res.retryCount Res.set_retryCount].
    split; [lia|].
    rewrite total_pause_app, schedule_total_pause;
      [f_equal; f_equal; f_equal; f_equal; lia | lia
      | intros n Hn; apply Hrep; lia].
Qed.

Lemma executeWithRetry_total_backoff_witness :
  ∃ result w',
    DealProcessor.executeWithRetry (broker := Examples.broker) 6
      DealProcessor.default_config Examples.buy_eurusd Examples.leftover
      (Examples.world Examples.failing)
    = Some (result, w')
    ∧ Worker.total_pause (events w') = 700.
Proof.
  destruct (executeWithRetry_total_backoff (broker := Examples.broker)
              DealProcessor.default_config Examples.buy_eurusd Examples.leftover
              (Examples.world Examples.failing) 6)
    as (result & w' & Hrun & _ & Htotal).
  - vm_compute. split; [discriminate | reflexivity].
  - vm_compute. lia.
  - intros n Hn. change (0 <= n < 3) in Hn.
    unfold in_int, INT_MIN, INT_MAX, DealProcessor.backoff_ms. simpl.
    assert (n = 0 ∨ n = 1 ∨ n = 2) as [-> | [-> | ->]] by lia; simpl; lia.
  - exists result, w'. split; [exact Hrun|].
    assert (E : DealProcessor.executeWithRetry (broker := Examples.broker) 6
                  DealProcessor.default_config Examples.buy_eurusd
                  Examples.leftover (Examples.world Examples.failing)
                = Some (result, w')) by exact Hrun.
    vm_compute in E. injection E as <- <-. vm_compute. reflexivity.
Defined.

(** X13: a request that [validate] answers with an error never reaches
    [executeTrade].  [processRequest] returns the validator's error result
    as it is, with retry count 0, whatever the fuel and the retry
    configuration, and the only broker call made is the [getSymbolInfo] of
    the validator, if any. *)
Theorem rejected_request_never_executes :
  ∀ {B : Type} {broker : IMTBrokerAPI B} {text : DoubleToString}
    (fuel : nat) (config : DealProcessor.ProcessorConfig)
    (request : TradeRequest) (now : Z) (u : Res.Indeterminate)
    (v : Validator.Validator) (w : World B) (error : TradeResult),
    (Validator.validate request now v w).1.1 = Some error →
    DealProcessor.processRequest fuel config request now u v w
    = Some (error, (Validator.validate request now v w).1.2,
            (Validator.validate request now v w).2)
    ∧ Res.retryCount error = 0
    ∧ Res.isSuccess error = false
    ∧ filter (λ e, is_execute_call e)
        (events (Validator.validate request now v w).2)
      = filter (λ e, is_execute_call e) (events w)
    ∧ (events (Validator.validate request now v w).2 = events w
       ∨ events (Validator.validate request now v w).2
         = events w ++ [CallGetSymbolInfo (Req.symbol request)]).
Proof.
  intros B broker text fuel config request now u v w error Herror.
  pose proof (validate_broker_events request now v w) as Hev.
  unfold DealProcessor.processRequest.
  destruct (Validator.validate request now v w) as [[outcome v1] w1] eqn:Hval.
  cbn [fst snd] in *. subst outcome.
  split; [reflexivity|].
  assert (Hshape : Res.retryCount error = 0 ∧ Res.isSuccess error = false).
  { clear -Hval. unfold Validator.validate, Validator.validate_params,
      api_getSymbolInfo in Hval.
    repeat (case_bool_decide; [injection Hval as <- _ _; split; reflexivity|]).
    destruct (Qleb _ _); [injection Hval as <- _ _; split; reflexivity|].
    destruct (getSymbolInfo _ _) as [[info|] b];
      [|injection Hval as <- _ _; split; reflexivity].
    destruct (negb _); [injection Hval as <- _ _; split; reflexivity|].
    destruct (_ || _); [injection Hval as <- _ _; split; reflexivity|].
    destruct (Validator.present_and_le0 (Req.stopLoss _));
      [injection Hval as <- _ _; split; reflexivity|].
    destruct (Validator.present_and_le0 (Req.takeProfit _));
      [injection Hval as <- _ _; split; reflexivity|].
    discriminate Hval. }
  destruct Hshape as [Hretry Hfail].
  split; [exact Hretry|]. split; [exact Hfail|]. split.
  - destruct Hev as [-> | ->]; [reflexivity|].
    rewrite filter_app. simpl. apply app_nil_r.
  - destruct Hev as [-> | ->]; [left|right]; reflexivity.
Qed.

Lemma rejected_request_never_executes_witness :
  ∃ error,
    DealProcessor.processRequest (broker := Examples.broker)
      (text := Examples.fixed6) 0 DealProcessor.default_config
      Examples.zero_volume 0 Examples.leftover Validator.new
      (Examples.world Examples.accepting)
    = Some (error,
            (Validator.validate (broker := Examples.broker)
               (text := Examples.fixed6) Examples.zero_volume 0 Validator.new
               (Examples.world Examples.accepting)).1.2,
            (Validator.validate (broker := Examples.broker)
               (text := Examples.fixed6) Examples.zero_volume 0 Validator.new
               (Examples.world Examples.accepting)).2)
    ∧ Res.status error = INVALID_PARAMS
    ∧ Res.retryCount error = 0.
Proof.
  destruct (Validator.validate (broker := Examples.broker)
              (text := Examples.fixed6) Examples.zero_volume 0 Validator.new
              (Examples.world Examples.accepting)).1.1 as [error|] eqn:Herror;
    [|vm_compute in Herror; discriminate Herror].
  destruct (rejected_request_never_executes (broker := Examples.broker)
              (text := Examples.fixed6) 0 DealProcessor.default_config
              Examples.zero_volume 0 Examples.leftover Validator.new
              (Examples.world Examples.accepting) error Herror)
    as (Hrun & Hretry & _).
  exists error. split; [exact Hrun|]. split; [|exact Hretry].
  vm_compute in Herror. injection Herror as <-. reflexivity.
Defined.

(** ** The processor: life cycle and the worker loop *)

Section Lifecycle.
Context {C : Type}.
Import DealProcessor.

Lemma submit_all_running (items : list (TradeRequest * option C))
    (p : DealProcessor C) :
  running_ p = true →
  Worker.submit_all items p
  = mk (config_ p) (tracker_ p) (validator_ p)
       (Queue.mk (Queue.queue_ (queue_ p) ++ items)
          (Queue.shutdown_ (queue_ p))) true.
Proof.
  revert p. induction items as [|[request callback] items IH]; intros p Hrun.
  - simpl. rewrite app_nil_r. destruct p as [? ? ? [? ?] ?].
    simpl in *. subst. reflexivity.
  - unfold Worker.submit_all in *. cbn [foldl fst snd].
    rewrite IH.
    + unfold submit. rewrite Hrun. simpl. rewrite <- app_assoc. reflexivity.
    + unfold submit. rewrite Hrun. reflexivity.
Qed.
End Lifecycle.

Section WorkerFacts.
Context {B : Type} {broker : IMTBrokerAPI B} {text : DoubleToString}.
Context {C : Type}.
Import DealProcessor.



End WorkerFacts.





(** ** The processor over the mock broker *)

Section BrokerAnswers.
Context {B : Type} {broker : IMTBrokerAPI B}.

(** A property of all answers of the broker that assignments of the retry
    count and the exhaustion block preserve holds of every result of the
    retry loop that has made an attempt. *)
Lemma retry_loop_answers (P : TradeResult → Prop) config request :
  (∀ b, P (executeTrade request b).1) →
  (∀ r n, P r → P (Res.set_retryCount n r)) →
  (∀ r, P r → P (DealProcessor.exhausted config r)) →
  ∀ fuel attempt r0 (w : World B) result w',
    P r0 ∨ attempt <= DealProcessor.maxRetries config →
    DealProcessor.retry_loop fuel config request attempt r0 w
    = Some (result, w') →
    P result.
Proof.
  intros Hanswer Hset Hexh.
  induction fuel as [|fuel IH]; intros attempt r0 w result w' Hstart;
    [discriminate|].
  cbn [DealProcessor.retry_loop].
  destruct (attempt <=? DealProcessor.maxRetries config) eqn:Hle.
  - unfold api_executeTrade.
    set (w1 := if 0 <? attempt then _ else w).
    pose proof (Hanswer (api_ w1)) as HP.
    destruct (executeTrade request (api_ w1)) as [answer b].
    destruct (_ || _).
    + intros [= <- _]. apply Hset, HP.
    + apply IH. left. apply Hset, HP.
  - intros [= <- _]. apply Hexh.
    destruct Hstart as [HP | Hle']; [exact HP|].
    apply Z.leb_gt in Hle. lia.
Qed.
End BrokerAnswers.

Section MockIds.
Context {text : DoubleToString}.
Import MockMTAPI.

Lemma executeTrade_echoes_ids request (m : MockMTAPI) :
  Res.requestId (executeTrade request m).1 = Req.requestId request
  ∧ Res.clientId (executeTrade request m).1 = Req.clientId request.
Proof.
  unfold executeTrade.
  destruct (shouldFail (simulateLatency m)) as [fail m1].
  destruct fail; [split; reflexivity|].
  destruct (symbols_ m1 !! Req.symbol request) as [info|];
    [|split; reflexivity].
  destruct (negb _); [split; reflexivity|].
  destruct (_ || _); [split; reflexivity|].
  cbv zeta.
  destruct (Qltb 0.000001 _); [split; reflexivity|].
  destruct (Qltb (freeMargin (account_ m1)) _); [split; reflexivity|].
  destruct (generatePrice _ _ _) as [price m3].
  destruct (generateTicketId m3) as [ticket m4]. split; reflexivity.
Qed.
End MockIds.

(** X16: over the mock broker, and with a retry limit that is not negative,
    every result of [processRequest] carries the request id and the client
    id of its request, whether it comes from the validator, from an answer
    of the broker or from the exhaustion block. *)
Theorem mock_results_carry_request_ids :
  ∀ {text : DoubleToString} (fuel : nat)
    (config : DealProcessor.ProcessorConfig) (request : TradeRequest)
    (now : Z) (u : Res.Indeterminate) (v v' : Validator.Validator)
    (w w' : World MockMTAPI.MockMTAPI) (result : TradeResult),
    0 <= DealProcessor.maxRetries config →
    DealProcessor.processRequest fuel config request now u v w
    = Some (result, v', w') →
    Res.requestId result = Req.requestId request
    ∧ Res.clientId result = Req.clientId request.
Proof.
  intros text fuel config request now u v v' w w' result Hmax.
  unfold DealProcessor.processRequest.
  pose proof (validate_outcome request now v w) as Hout. cbn zeta in Hout.
  destruct (Validator.validate request now v w) as [[[error|] v1] w1];
    cbn [fst snd] in Hout.
  - intros [= <- _ _]. destruct Hout as (_ & _ & _ & Hid & Hc). auto.
  - unfold DealProcessor.executeWithRetry.
    destruct (DealProcessor.retry_loop _ _ _ _ _ _) as [[r w2]|] eqn:Hloop;
      [|discriminate].
    intros [= <- _ _].
    apply (retry_loop_answers
             (λ r, Res.requestId r = Req.requestId request
                   ∧ Res.clientId r = Req.clientId request) config request)
      with (fuel := fuel) (attempt := 0) (r0 := Res.uninitialised u)
           (w := w1) (w' := w2); auto.
    apply executeTrade_echoes_ids.
Qed.

Lemma mock_results_carry_request_ids_witness :
  ∃ result v' w',
    DealProcessor.processRequest (broker := Examples.broker)
      (text := Examples.fixed6) 6 DealProcessor.default_config
      Examples.buy_eurusd 0 Examples.leftover Validator.new
      (Examples.world Examples.failing)
    = Some (result, v', w')
    ∧ Res.requestId result = "C1-000000" ∧ Res.clientId result = "C1".
Proof.
  destruct (DealProcessor.processRequest (broker := Examples.broker)
              (text := Examples.fixed6) 6 DealProcessor.default_config
              Examples.buy_eurusd 0 Examples.leftover Validator.new
              (Examples.world Examples.failing))
    as [[[result v'] w']|] eqn:Hrun; [|vm_compute in Hrun; discriminate Hrun].
  exists result, v', w'. split; [reflexivity|].
  apply (mock_results_carry_request_ids (text := Examples.fixed6) 6
           DealProcessor.default_config Examples.buy_eurusd 0
           Examples.leftover Validator.new v' (Examples.world Examples.failing)
           w' result).
  - vm_compute. discriminate.
  - exact Hrun.
Defined.

(** ** The mock broker *)

Section MockTrades.
Context {text : DoubleToString}.
Import MockMTAPI.

(** The two ways [executeTrade] can end.  A success takes the next ticket,
    reserves the margin and stores the result under its ticket; an error
    moves nothing but the random engine. *)
Lemma executeTrade_cases request (m : MockMTAPI) :
  let r := (executeTrade request m).1 in
  let m' := (executeTrade request m).2 in
  (Res.status r = SUCCESS
   ∧ Res.mtTicketId r = to_string_int (ticketCounter_ m)
   ∧ ticketCounter_ m' = (ticketCounter_ m + 1) mod 2 ^ 64
   ∧ executedTrades_ m' = <[Res.mtTicketId r := r]> (executedTrades_ m)
   ∧ Qltb (freeMargin (account_ m)) (Req.volume request * 1000)%Q = false
   ∧ account_ m'
     = mkAccountInfo (login (account_ m)) (balance (account_ m))
         (equity (account_ m) - Req.volume request * 1000 * 0.001)%Q
         (freeMargin (account_ m) - Req.volume request * 1000)%Q
         (marginLevel (account_ m)) (currency (account_ m)))
  ∨ (Res.status r ≠ SUCCESS
     ∧ ticketCounter_ m' = ticketCounter_ m
     ∧ executedTrades_ m' = executedTrades_ m
     ∧ account_ m' = account_ m).
Proof.
  unfold executeTrade.
  destruct (shouldFail (simulateLatency m)) as [fail m1] eqn:Hfail.
  assert (Hm1 : ticketCounter_ m1 = ticketCounter_ m
                ∧ executedTrades_ m1 = executedTrades_ m
                ∧ account_ m1 = account_ m).
  { unfold shouldFail, simulateLatency, failDist, latencyDist in Hfail.
    simpl in Hfail. injection Hfail as _ <-. repeat split. }
  destruct Hm1 as (Hc & He & Ha).
  destruct fail; [right; simpl; repeat split; try discriminate; assumption|].
  destruct (symbols_ m1 !! Req.symbol request) as [info|] eqn:Hinfo;
    [|right; simpl; repeat split; try discriminate; assumption].
  destruct (negb _);
    [right; simpl; repeat split; try discriminate; assumption|].
  destruct (_ || _);
    [right; simpl; repeat split; try discriminate; assumption|].
  cbv zeta.
  destruct (Qltb 0.000001 _);
    [right; simpl; repeat split; try discriminate; assumption|].
  destruct (Qltb (freeMargin (account_ m1)) _) eqn:Hmargin;
    [right; simpl; repeat split; try discriminate; assumption|].
  left. unfold generatePrice, generateTicketId, failDist. simpl.
  rewrite Hinfo. simpl. rewrite Hc, He, Ha in *.
  repeat split. exact Hmargin.
Qed.

Lemma executeTrade_keeps_table request (m : MockMTAPI) :
  symbols_ (executeTrade request m).2 = symbols_ m
  ∧ connected_ (executeTrade request m).2 = connected_ m
  ∧ failureRate_ (executeTrade request m).2 = failureRate_ m.
Proof.
  unfold executeTrade.
  destruct (shouldFail (simulateLatency m)) as [fail m1] eqn:Hfail.
  assert (Hm1 : symbols_ m1 = symbols_ m ∧ connected_ m1 = connected_ m
                ∧ failureRate_ m1 = failureRate_ m).
  { unfold shouldFail, simulateLatency, failDist, latencyDist in Hfail.
    simpl in Hfail. injection Hfail as _ <-. repeat split. }
  destruct fail; [exact Hm1|].
  destruct (symbols_ m1 !! Req.symbol request) as [info|] eqn:Hinfo;
    [|exact Hm1].
  destruct (negb _); [exact Hm1|].
  destruct (_ || _); [exact Hm1|].
  cbv zeta.
  destruct (Qltb 0.000001 _); [exact Hm1|].
  destruct (Qltb (freeMargin (account_ m1)) _); [exact Hm1|].
  unfold generatePrice, generateTicketId, failDist. simpl.
  rewrite Hinfo. simpl. exact Hm1.
Qed.
End MockTrades.

(** X17: an executed trade can be looked up by its ticket.  After a
    successful [executeTrade] the ticket of the result is the decimal text
    of the ticket counter before the call, the counter has moved on by one,
    and [getTicketInfo] with that ticket returns the result. *)
Theorem executed_trade_is_retrievable :
  ∀ {text : DoubleToString} (request : TradeRequest)
    (m : MockMTAPI.MockMTAPI),
    Res.status (MockMTAPI.executeTrade request m).1 = SUCCESS →
    let r := (MockMTAPI.executeTrade request m).1 in
    let m' := (MockMTAPI.executeTrade request m).2 in
    MockMTAPI.getTicketInfo (Res.mtTicketId r) m' = (Some r, m')
    ∧ Res.mtTicketId r = to_string_int (MockMTAPI.ticketCounter_ m)
    ∧ MockMTAPI.ticketCounter_ m'
      = (MockMTAPI.ticketCounter_ m + 1) mod 2 ^ 64.
Proof.
  intros text request m Hok r m'.
  destruct (executeTrade_cases request m)
    as [(_ & Hticket & Hcounter & Htrades & _) | (Hfail & _)];
    [|destruct (Hfail Hok)].
  fold r in Hticket, Htrades. fold m' in Hcounter, Htrades.
  repeat split; try assumption.
  unfold MockMTAPI.getTicketInfo. rewrite Htrades, lookup_insert_eq.
  reflexivity.
Qed.

Lemma executed_trade_is_retrievable_witness :
  (MockMTAPI.getTicketInfo "100000"
     (MockMTAPI.executeTrade (text := Examples.fixed6)
        Examples.buy_eurusd Examples.accepting).2).1
  = Some (MockMTAPI.executeTrade (text := Examples.fixed6)
            Examples.buy_eurusd Examples.accepting).1.
Proof.
  destruct (executed_trade_is_retrievable (text := Examples.fixed6)
              Examples.buy_eurusd Examples.accepting) as (Hget & Hticket & _).
  - vm_compute. reflexivity.
  - change "100000" with (to_string_int (MockMTAPI.ticketCounter_ Examples.accepting)).
    rewrite <- Hticket, Hget. reflexivity.
Defined.

(** X18: a trade that is not executed leaves the books alone.  When
    [executeTrade] returns an error, the account, the ticket counter, the
    executed trades, the symbol table, the connection flag and the failure
    rate are as before the call: only the random engine has moved. *)
Theorem refused_trade_changes_nothing :
  ∀ {text : DoubleToString} (request : TradeRequest)
    (m : MockMTAPI.MockMTAPI),
    Res.status (MockMTAPI.executeTrade request m).1 ≠ SUCCESS →
    let m' := (MockMTAPI.executeTrade request m).2 in
    MockMTAPI.account_ m' = MockMTAPI.account_ m
    ∧ MockMTAPI.ticketCounter_ m' = MockMTAPI.ticketCounter_ m
    ∧ MockMTAPI.executedTrades_ m' = MockMTAPI.executedTrades_ m
    ∧ MockMTAPI.symbols_ m' = MockMTAPI.symbols_ m
    ∧ MockMTAPI.connected_ m' = MockMTAPI.connected_ m
    ∧ MockMTAPI.failureRate_ m' = MockMTAPI.failureRate_ m.
Proof.
  intros text request m Hfail m'.
  destruct (executeTrade_cases request m)
    as [(Hok & _) | (_ & Hcounter & Htrades & Haccount)];
    [destruct (Hfail Hok)|].
  destruct (executeTrade_keeps_table request m) as (Hs & Hc & Hf).
  repeat split; assumption.
Qed.

Lemma refused_trade_changes_nothing_witness :
  MockMTAPI.account_
    (MockMTAPI.executeTrade (text := Examples.fixed6)
       Examples.buy_eurusd Examples.failing).2
  = MockMTAPI.initial_account.
Proof.
  destruct (refused_trade_changes_nothing (text := Examples.fixed6)
              Examples.buy_eurusd Examples.failing) as (Haccount & _).
  - vm_compute. discriminate.
  - rewrite Haccount. reflexivity.
Defined.

Section MockBooks.
Context {text : DoubleToString}.
Import MockMTAPI.

Lemma execute_all_cons request requests (m : MockMTAPI) :
  MockRun.execute_all (request :: requests) m
  = ((executeTrade request m).1
       :: (MockRun.execute_all requests (executeTrade request m).2).1,
     (MockRun.execute_all requests (executeTrade request m).2).2).
Proof.
  simpl. destruct (executeTrade request m) as [r m1]. simpl.
  destruct (MockRun.execute_all requests m1) as [rs m2]. reflexivity.
Qed.

Lemma execute_all_length requests (m : MockMTAPI) :
  length (MockRun.execute_all requests m).1 = length requests.
Proof.
  revert m. induction requests as [|request requests IH]; intros m;
    [reflexivity|].
  rewrite execute_all_cons. simpl. rewrite IH. reflexivity.
Qed.
End MockBooks.

Section MockAccount.
Context {text : DoubleToString}.
Import MockMTAPI.

(** A trade is executed only for a volume inside the limits of its symbol
    and covered by the free margin. *)
Lemma executeTrade_success_volume request (m : MockMTAPI) :
  Res.status (executeTrade request m).1 = SUCCESS →
  ∃ info, symbols_ m !! Req.symbol request = Some info
    ∧ (minVolume info <= Req.volume request)%Q
    ∧ (Req.volume request <= maxVolume info)%Q
    ∧ (Req.volume request * 1000 <= freeMargin (account_ m))%Q.
Proof.
  unfold executeTrade.
  destruct (shouldFail (simulateLatency m)) as [fail m1] eqn:Hfail.
  assert (Hm1 : symbols_ m1 = symbols_ m ∧ account_ m1 = account_ m).
  { unfold shouldFail, simulateLatency, failDist, latencyDist in Hfail.
    simpl in Hfail. injection Hfail as _ <-. split; reflexivity. }
  destruct Hm1 as [Htable Haccount].
  destruct fail; [discriminate|].
  rewrite Htable, Haccount.
  destruct (symbols_ m !! Req.symbol request) as [info|]; [|discriminate].
  destruct (negb _); [discriminate|].
  destruct (Qltb (Req.volume request) (minVolume info)) eqn:Hlo;
    [discriminate|].
  destruct (Qltb (maxVolume info) (Req.volume request)) eqn:Hhi;
    [discriminate|].
  cbn [orb]. cbv zeta.
  destruct (Qltb 0.000001 _); [discriminate|].
  destruct (Qltb (freeMargin (account_ m)) _) eqn:Hmargin; [discriminate|].
  intros _. exists info. split; [reflexivity|].
  apply Qltb_false in Hlo, Hhi, Hmargin. repeat split; assumption.
Qed.

(** What no run of trades changes. *)
Lemma execute_all_frame requests : ∀ (m : MockMTAPI),
  let m' := (MockRun.execute_all requests m).2 in
  symbols_ m' = symbols_ m
  ∧ connected_ m' = connected_ m
  ∧ login (account_ m') = login (account_ m)
  ∧ balance (account_ m') = balance (account_ m)
  ∧ marginLevel (account_ m') = marginLevel (account_ m)
  ∧ currency (account_ m') = currency (account_ m).
Proof.
  induction requests as [|request requests IH]; intros m;
    [repeat split|].
  cbv zeta. rewrite execute_all_cons. cbn [fst snd].
  destruct (IH (executeTrade request m).2) as (Hs & Hc & Hl & Hb & Hm & Hcur).
  destruct (executeTrade_keeps_table request m) as (Hs1 & Hc1 & _).
  rewrite Hs, Hc, Hl, Hb, Hm, Hcur, Hs1, Hc1.
  destruct (executeTrade_cases request m)
    as [(_ & _ & _ & _ & _ & ->) | (_ & _ & _ & ->)]; repeat split.
Qed.
End MockAccount.

(** X19: the mock never hands out margin it does not have.  Over any run
    of [executeTrade] calls on a broker whose symbols have least volumes
    that are not negative, a free margin that is not negative stays so and
    never grows, the equity never grows, and balance, login, margin level
    and currency are never written.  (Volumes are numbers here; the bounds
    hold for the rounded arithmetic of the code as they do for the exact
    one.) *)
Theorem mock_margin_accounting :
  ∀ {text : DoubleToString} (requests : list TradeRequest)
    (m : MockMTAPI.MockMTAPI),
    (0 <= freeMargin (MockMTAPI.account_ m))%Q →
    (∀ symbol info, MockMTAPI.symbols_ m !! symbol = Some info →
                    (0 <= minVolume info)%Q) →
    let m' := (MockRun.execute_all requests m).2 in
    (0 <= freeMargin (MockMTAPI.account_ m'))%Q
    ∧ (freeMargin (MockMTAPI.account_ m')
       <= freeMargin (MockMTAPI.account_ m))%Q
    ∧ (equity (MockMTAPI.account_ m') <= equity (MockMTAPI.account_ m))%Q
    ∧ balance (MockMTAPI.account_ m') = balance (MockMTAPI.account_ m)
    ∧ login (MockMTAPI.account_ m') = login (MockMTAPI.account_ m)
    ∧ marginLevel (MockMTAPI.account_ m')
      = marginLevel (MockMTAPI.account_ m)
    ∧ currency (MockMTAPI.account_ m') = currency (MockMTAPI.account_ m).
Proof.
  intros text requests m Hfree Htable m'.
  destruct (execute_all_frame requests m) as (_ & _ & Hl & Hb & Hm & Hc).
  fold m' in Hl, Hb, Hm, Hc.
  assert (Hbooks : (0 <= freeMargin (MockMTAPI.account_ m'))%Q
            ∧ (freeMargin (MockMTAPI.account_ m')
               <= freeMargin (MockMTAPI.account_ m))%Q
            ∧ (equity (MockMTAPI.account_ m')
               <= equity (MockMTAPI.account_ m))%Q).
  { subst m'. clear Hl Hb Hm Hc. revert m Hfree Htable.
    induction requests as [|request requests IH]; intros m Hfree Htable.
    { simpl. repeat split; [exact Hfree|apply Qle_refl|apply Qle_refl]. }
    rewrite execute_all_cons. cbn [fst snd].
    destruct (executeTrade_keeps_table request m) as (Hs1 & _).
    assert (Htable1 : ∀ symbol info,
              MockMTAPI.symbols_ (MockMTAPI.executeTrade request m).2
                !! symbol = Some info → (0 <= minVolume info)%Q).
    { intros symbol info. rewrite Hs1. apply Htable. }
    destruct (executeTrade_cases request m)
      as [(Hok & _ & _ & _ & _ & Haccount) | (_ & _ & _ & Haccount)].
    - destruct (executeTrade_success_volume request m Hok)
        as (info & Hinfo & Hmin & _ & Hmargin).
      pose proof (Htable _ _ Hinfo) as Hmin0.
      assert (Hfree1 : (0 <= freeMargin (MockMTAPI.account_
                               (MockMTAPI.executeTrade request m).2))%Q).
      { rewrite Haccount. simpl. lra. }
      destruct (IH _ Hfree1 Htable1) as (H0 & Hf & He).
      rewrite Haccount in Hf, He. simpl in Hf, He.
      repeat split; [exact H0|lra|lra].
    - assert (Hfree1 : (0 <= freeMargin (MockMTAPI.account_
                               (MockMTAPI.executeTrade request m).2))%Q).
      { rewrite Haccount. exact Hfree. }
      destruct (IH _ Hfree1 Htable1) as (H0 & Hf & He).
      rewrite Haccount in Hf, He. repeat split; assumption. }
  destruct Hbooks as (H0 & Hf & He). repeat split; assumption.
Qed.

Lemma mock_margin_accounting_witness :
  (freeMargin (MockMTAPI.account_
     (MockRun.execute_all (text := Examples.fixed6)
        [Examples.buy_eurusd; Examples.unknown_symbol; Examples.buy_eurusd]
        Examples.accepting).2) <= 100000)%Q.
Proof.
  destruct (mock_margin_accounting (text := Examples.fixed6)
              [Examples.buy_eurusd; Examples.unknown_symbol;
               Examples.buy_eurusd] Examples.accepting)
    as (_ & Hfree & _).
  - vm_compute. discriminate.
  - intros symbol info Hinfo.
    change (MockMTAPI.symbols_ Examples.accepting)
      with MockMTAPI.initial_symbols in Hinfo.
    unfold MockMTAPI.initial_symbols in Hinfo.
    repeat (apply lookup_insert_Some in Hinfo
            as [[_ <-] | [_ Hinfo]]; [vm_compute; discriminate|]).
    rewrite lookup_empty in Hinfo. discriminate Hinfo.
  - exact Hfree.
Defined.

(** X20: quotes.  [getSymbolInfo] answers exactly for the symbols of the
    table and never writes to the table.  The answer carries the table's
    name, volume limits, step, digits and trading flag; its bid and ask lie
    within 0.001 of the table's, which is twice the nominal variation and
    so leaves room for the rounding of the code's additions, and the quote
    is not crossed when the table's is not. *)
Theorem getSymbolInfo_quote :
  ∀ (symbol : string) (m : MockMTAPI.MockMTAPI),
    MockMTAPI.rng_ok (MockMTAPI.rng_ m) →
    let answer := (MockMTAPI.getSymbolInfo symbol m).1 in
    let m' := (MockMTAPI.getSymbolInfo symbol m).2 in
    MockMTAPI.symbols_ m' = MockMTAPI.symbols_ m
    ∧ match MockMTAPI.symbols_ m !! symbol with
      | None => answer = None ∧ m' = m
      | Some info =>
          ∃ quote, answer = Some quote
            ∧ name quote = name info
            ∧ minVolume quote = minVolume info
            ∧ maxVolume quote = maxVolume info
            ∧ volumeStep quote = volumeStep info
            ∧ digits quote = digits info
            ∧ tradeAllowed quote = tradeAllowed info
            ∧ (bid info - 0.001 <= bid quote)%Q
            ∧ (bid quote <= bid info + 0.001)%Q
            ∧ (ask info - 0.001 <= ask quote)%Q
            ∧ (ask quote <= ask info + 0.001)%Q
            ∧ ((bid info <= ask info)%Q → (bid quote <= ask quote)%Q)
      end.
Proof.
  intros symbol m Hrng. cbv zeta. unfold MockMTAPI.getSymbolInfo.
  destruct (MockMTAPI.symbols_ m !! symbol) as [info|]; [|repeat split].
  unfold MockMTAPI.failDist. simpl. split; [reflexivity|].
  eexists. split; [reflexivity|]. simpl.
  destruct (Hrng (MockMTAPI.position (MockMTAPI.rng_ m))) as [Hlo Hhi].
  repeat split; lra.
Qed.

Lemma getSymbolInfo_quote_witness :
  ∃ quote,
    (MockMTAPI.getSymbolInfo "XAUUSD" Examples.accepting).1 = Some quote
    ∧ maxVolume quote = 50%Q
    ∧ (bid quote <= ask quote)%Q.
Proof.
  destruct (getSymbolInfo_quote "XAUUSD" Examples.accepting) as (_ & Hquote).
  - intros n. vm_compute. split; [discriminate|reflexivity].
  - change (MockMTAPI.symbols_ Examples.accepting !! "XAUUSD")
      with (Some (mkSymbolInfo "XAUUSD" 2035.50 2036.00 0.01 50 0.01 2 true))
      in Hquote.
    destruct Hquote
      as (quote & Hanswer & _ & _ & Hmax & _ & _ & _ & _ & _ & _ & _ & Hspread).
    exists quote. split; [exact Hanswer|]. split; [exact Hmax|].
    apply Hspread. vm_compute. discriminate.
Defined.

Section MockConnection.
Context {text : DoubleToString}.
Import MockMTAPI.

(** [executeTrade] never reads the connection flag. *)
Lemma executeTrade_ignores_connection request (m : MockMTAPI) (c : bool) :
  executeTrade request (set_connected c m)
  = ((executeTrade request m).1, set_connected c (executeTrade request m).2).
Proof.
  unfold executeTrade, shouldFail, simulateLatency, latencyDist, failDist.
  simpl. destruct (Qltb _ (failureRate_ m)); [reflexivity|].
  destruct (symbols_ m !! Req.symbol request) as [info|]; [|reflexivity].
  destruct (negb _); [reflexivity|].
  destruct (_ || _); [reflexivity|].
  destruct (Qltb 0.000001 _); [reflexivity|].
  destruct (Qltb (freeMargin (account_ m)) _); [reflexivity|].
  unfold generatePrice, generateTicketId, failDist. simpl.
  destruct (symbols_ m !! Req.symbol request); reflexivity.
Qed.
End MockConnection.

(** X21: the account and the connection of the mock.  [connect] succeeds
    whatever the server, login and password, takes the login given and
    leaves the money alone.  After it and after any run of trades,
    [getAccountInfo] answers with the current account for that login and
    with nothing for every other login, connected or not; the run leaves
    the connection flag set, and [disconnect] only clears the flag: no
    call reads it, so that a trade is answered on a disconnected broker as
    on a connected one. *)
Theorem connect_then_account :
  ∀ {text : DoubleToString} (server password : string) (login_ other : Z)
    (requests : list TradeRequest) (request : TradeRequest)
    (m : MockMTAPI.MockMTAPI),
    let ok := (MockMTAPI.connect server login_ password m).1 in
    let m1 := (MockMTAPI.connect server login_ password m).2 in
    let m2 := (MockRun.execute_all requests m1).2 in
    let off := MockMTAPI.disconnect m2 in
    ok = true
    ∧ MockMTAPI.isConnected m1 = true
    ∧ MockMTAPI.isConnected m2 = true
    ∧ MockMTAPI.isConnected off = false
    ∧ MockMTAPI.getAccountInfo login_ m2 = (Some (MockMTAPI.account_ m2), m2)
    ∧ MockMTAPI.getAccountInfo login_ off = (Some (MockMTAPI.account_ m2), off)
    ∧ login (MockMTAPI.account_ m2) = login_
    ∧ balance (MockMTAPI.account_ m2) = balance (MockMTAPI.account_ m)
    ∧ currency (MockMTAPI.account_ m2) = currency (MockMTAPI.account_ m)
    ∧ equity (MockMTAPI.account_ m1) = equity (MockMTAPI.account_ m)
    ∧ freeMargin (MockMTAPI.account_ m1) = freeMargin (MockMTAPI.account_ m)
    ∧ (other ≠ login_ →
       MockMTAPI.getAccountInfo other m2 = (None, m2)
       ∧ MockMTAPI.getAccountInfo other off = (None, off))
    ∧ MockMTAPI.executeTrade request off
      = ((MockMTAPI.executeTrade request m2).1,
         MockMTAPI.disconnect (MockMTAPI.executeTrade request m2).2).
Proof.
  intros text server password login_ other requests request m ok m1 m2 off.
  destruct (execute_all_frame requests m1) as (_ & Hc & Hl & Hb & _ & Hcur).
  fold m2 in Hc, Hl, Hb, Hcur.
  assert (Hm1 : MockMTAPI.connected_ m1 = true
                ∧ login (MockMTAPI.account_ m1) = login_
                ∧ balance (MockMTAPI.account_ m1)
                  = balance (MockMTAPI.account_ m)
                ∧ currency (MockMTAPI.account_ m1)
                  = currency (MockMTAPI.account_ m)).
  { unfold m1, MockMTAPI.connect, MockMTAPI.simulateLatency,
      MockMTAPI.latencyDist. simpl. repeat split. }
  destruct Hm1 as (Hc1 & Hl1 & Hb1 & Hcur1).
  assert (Hlogin : login (MockMTAPI.account_ m2) = login_) by congruence.
  split; [reflexivity|]. split; [exact Hc1|].
  split; [unfold MockMTAPI.isConnected; congruence|].
  split; [reflexivity|].
  split.
  { unfold MockMTAPI.getAccountInfo.
    rewrite bool_decide_eq_false_2 by (intros H; apply H; exact (eq_sym Hlogin)).
    reflexivity. }
  split.
  { unfold MockMTAPI.getAccountInfo, off, MockMTAPI.disconnect. simpl.
    rewrite bool_decide_eq_false_2 by (intros H; apply H; exact (eq_sym Hlogin)).
    reflexivity. }
  split; [exact Hlogin|]. split; [congruence|]. split; [congruence|].
  split; [reflexivity|]. split; [reflexivity|]. split.
  - intros Hother.
    assert (Hne : other ≠ login (MockMTAPI.account_ m2)) by congruence.
    split.
    + unfold MockMTAPI.getAccountInfo.
      rewrite bool_decide_eq_true_2 by exact Hne. reflexivity.
    + unfold MockMTAPI.getAccountInfo, off, MockMTAPI.disconnect. simpl.
      rewrite bool_decide_eq_true_2 by exact Hne. reflexivity.
  - apply executeTrade_ignores_connection.
Qed.

Section MockAdmission.
Context {text : DoubleToString}.
Import MockMTAPI.

(** [executeTrade] for a request whose symbol is in the table, may be
    traded and whose volume is inside the limits. *)
Lemma executeTrade_admissible request (m : MockMTAPI) info :
  symbols_ m !! Req.symbol request = Some info →
  tradeAllowed info = true →
  (minVolume info <= Req.volume request)%Q →
  (Req.volume request <= maxVolume info)%Q →
  let r := (executeTrade request m).1 in
  Res.status r = SUCCESS
  ∨ Res.status r = CONNECTION_ERROR
  ∨ Res.status r = MARGIN_ERROR
  ∨ (Res.status r = INVALID_PARAMS
     ∧ Qltb 0.000001
         (Qabs (Req.volume request / volumeStep info
                - round (Req.volume request / volumeStep info))) = true
     ∧ Res.errorMessage r
       = "Volume " +:+ to_string_double (Req.volume request) +:+
         " not aligned to step " +:+ to_string_double (volumeStep info)).
Proof.
  intros Hinfo Hallowed Hmin Hmax. cbv zeta. unfold executeTrade.
  destruct (shouldFail (simulateLatency m)) as [fail m1] eqn:Hfail.
  assert (Hm1 : symbols_ m1 = symbols_ m).
  { unfold shouldFail, simulateLatency, failDist, latencyDist in Hfail.
    simpl in Hfail. injection Hfail as _ <-. reflexivity. }
  destruct fail; [right; left; reflexivity|].
  rewrite Hm1, Hinfo, Hallowed. cbn [negb].
  destruct (Qltb (Req.volume request) (minVolume info)) eqn:Hlo.
  { apply Qltb_true in Hlo. lra. }
  destruct (Qltb (maxVolume info) (Req.volume request)) eqn:Hhi.
  { apply Qltb_true in Hhi. lra. }
  cbn [orb]. cbv zeta.
  destruct (Qltb 0.000001 _) eqn:Hstep;
    [right; right; right; split; [reflexivity|split; reflexivity]|].
  destruct (Qltb (freeMargin (account_ m1)) _);
    [right; right; left; reflexivity|].
  left. unfold generatePrice, generateTicketId, failDist. simpl.
  rewrite Hm1, Hinfo. reflexivity.
Qed.

Lemma Qfloor_half (k : Z) (y : Q) : (y == inject_Z k + 0.5)%Q → Qfloor y = k.
Proof.
  intros Hy. pose proof (Qfloor_le y) as Hlo. pose proof (Qlt_floor y) as Hhi.
  rewrite inject_Z_plus in Hhi. change (inject_Z 1) with 1%Q in Hhi.
  assert (H1 : (inject_Z (Qfloor y) < inject_Z (k + 1))%Q).
  { rewrite inject_Z_plus. change (inject_Z 1) with 1%Q. lra. }
  assert (H2 : (inject_Z k < inject_Z (Qfloor y + 1))%Q).
  { rewrite inject_Z_plus. change (inject_Z 1) with 1%Q. lra. }
  rewrite <- Zlt_Qlt in H1, H2. lia.
Qed.

(** [std::round] of a whole number is the number. *)
Lemma round_integer (k : Z) (x : Q) :
  (x == inject_Z k)%Q → (round x == inject_Z k)%Q.
Proof.
  intros Hx. unfold round. destruct (Qleb 0 x).
  - rewrite (Qfloor_half k); [reflexivity|lra].
  - rewrite (Qfloor_half (- k)).
    + rewrite inject_Z_opp. ring.
    + rewrite inject_Z_opp. lra.
Qed.

(** A volume that is a whole number of steps passes the step check. *)
Lemma step_check_passes (k : Z) (volume step : Q) :
  (0 < step)%Q → (volume == inject_Z k * step)%Q →
  Qltb 0.000001 (Qabs (volume / step - round (volume / step))) = false.
Proof.
  intros Hstep Hvolume.
  assert (Hsteps : (volume / step == inject_Z k)%Q).
  { rewrite Hvolume. field. lra. }
  assert (Hdiff : (volume / step - round (volume / step) == 0)%Q).
  { rewrite (round_integer k _ Hsteps), Hsteps. ring. }
  destruct (Qltb 0.000001 _) eqn:Hlt; [|reflexivity].
  apply Qltb_true in Hlt. rewrite Hdiff in Hlt.
  vm_compute in Hlt. discriminate Hlt.
Qed.
End MockAdmission.

(** X22: what the validator leaves to the broker.  When [validate] lets a
    request through over the mock broker, the [executeTrade] that follows
    on that broker never answers REJECTED, and answers INVALID_PARAMS only
    for a volume that is not a multiple of the step, the one broker check
    the validator does not make; the other answers are SUCCESS,
    CONNECTION_ERROR and MARGIN_ERROR. *)
Theorem validated_request_at_the_mock :
  ∀ {text : DoubleToString} (request : TradeRequest) (now : Z)
    (v : Validator.Validator) (w : World MockMTAPI.MockMTAPI),
    (Validator.validate request now v w).1.1 = None →
    let m := api_ (Validator.validate request now v w).2 in
    let r := (MockMTAPI.executeTrade request m).1 in
    Res.status r ≠ REJECTED
    ∧ (Res.status r = SUCCESS
       ∨ Res.status r = CONNECTION_ERROR
       ∨ Res.status r = MARGIN_ERROR
       ∨ (Res.status r = INVALID_PARAMS
          ∧ ∃ info, MockMTAPI.symbols_ (api_ w) !! Req.symbol request
                    = Some info
              ∧ Res.errorMessage r
                = "Volume " +:+ to_string_double (Req.volume request) +:+
                  " not aligned to step " +:+
                  to_string_double (volumeStep info))).
Proof.
  intros text request now v w Hpass m r.
  pose proof (validate_outcome request now v w) as Hchecks.
  cbv zeta in Hchecks. rewrite Hpass in Hchecks.
  assert (Hallowed : Validator.check_holds (Validator.seenRequests_ v)
            (getSymbolInfo (Req.symbol request) (api_ w)).1 request
            Validator.TradePermission).
  { apply (proj1 (Forall_forall _ _) Hchecks).
    unfold Validator.check_order.
    repeat constructor. }
  assert (Hrange : Validator.check_holds (Validator.seenRequests_ v)
            (getSymbolInfo (Req.symbol request) (api_ w)).1 request
            Validator.VolumeRange).
  { apply (proj1 (Forall_forall _ _) Hchecks).
    unfold Validator.check_order.
    repeat constructor. }
  simpl in Hallowed, Hrange.
  destruct Hallowed as (i & Hi & Hallowed).
  destruct Hrange as (i' & Hi' & Hmin & Hmax).
  rewrite Hi in Hi'. injection Hi' as <-.
  assert (Htable : MockMTAPI.symbols_ m = MockMTAPI.symbols_ (api_ w)).
  { unfold m. destruct (validate_broker request now v w) as [-> | ->];
      [reflexivity|].
    simpl. unfold MockMTAPI.getSymbolInfo.
    destruct (MockMTAPI.symbols_ (api_ w) !! Req.symbol request);
      reflexivity. }
  unfold MockMTAPI.getSymbolInfo in Hi.
  destruct (MockMTAPI.symbols_ (api_ w) !! Req.symbol request)
    as [info|] eqn:Hinfo; [|discriminate Hi].
  simpl in Hi. injection Hi as <-. simpl in Hallowed, Hmin, Hmax.
  rewrite <- Htable in Hinfo.
  destruct (executeTrade_admissible request m info Hinfo Hallowed Hmin Hmax)
    as [H | [H | [H | (H & _ & Hmsg)]]]; fold r in H; try fold r in Hmsg.
  - split; [congruence|]. left. exact H.
  - split; [congruence|]. right. left. exact H.
  - split; [congruence|]. right. right. left. exact H.
  - split; [congruence|]. right. right. right. split; [exact H|].
    exists info. split; [reflexivity|exact Hmsg].
Qed.

Lemma validated_request_at_the_mock_witness :
  Res.status
    (MockMTAPI.executeTrade (text := Examples.fixed6) Examples.buy_eurusd
       (api_ (Validator.validate (broker := Examples.broker)
                (text := Examples.fixed6) Examples.buy_eurusd 0
                Validator.new (Examples.world Examples.failing)).2)).1
  ≠ REJECTED.
Proof.
  apply (validated_request_at_the_mock (text := Examples.fixed6)
           Examples.buy_eurusd 0 Validator.new
           (Examples.world Examples.failing)).
  vm_compute. reflexivity.
Defined.

(** X23: the fill price.  An executed trade is filled at the table's ask
    for a BUY and at the table's bid for a SELL, moved by the slippage: the
    price lies within 0.00005 of that quote, which is twice the nominal
    slippage and so leaves room for the rounding of the code's addition. *)
Theorem fill_price_near_quote :
  ∀ {text : DoubleToString} (request : TradeRequest)
    (m : MockMTAPI.MockMTAPI),
    MockMTAPI.rng_ok (MockMTAPI.rng_ m) →
    Res.status (MockMTAPI.executeTrade request m).1 = SUCCESS →
    ∃ info,
      MockMTAPI.symbols_ m !! Req.symbol request = Some info
      ∧ let base := match Req.tradeType request with
                    | BUY => ask info
                    | SELL => bid info
                    end in
        let price := Res.executionPrice (MockMTAPI.executeTrade request m).1 in
        (base - 0.00005 <= price)%Q ∧ (price <= base + 0.00005)%Q.
Proof.
  intros text request m Hrng. unfold MockMTAPI.executeTrade.
  destruct (MockMTAPI.shouldFail (MockMTAPI.simulateLatency m))
    as [fail m1] eqn:Hfail.
  assert (Hm1 : MockMTAPI.symbols_ m1 = MockMTAPI.symbols_ m
                ∧ MockMTAPI.real_draw (MockMTAPI.rng_ m1)
                  = MockMTAPI.real_draw (MockMTAPI.rng_ m)).
  { unfold MockMTAPI.shouldFail, MockMTAPI.simulateLatency,
      MockMTAPI.failDist, MockMTAPI.latencyDist in Hfail.
    simpl in Hfail. injection Hfail as _ <-. split; reflexivity. }
  destruct Hm1 as [Htable Hdraw].
  destruct fail; [discriminate|].
  rewrite Htable.
  destruct (MockMTAPI.symbols_ m !! Req.symbol request) as [info|] eqn:Hinfo;
    [|discriminate].
  destruct (negb _); [discriminate|].
  destruct (_ || _); [discriminate|].
  cbv zeta.
  destruct (Qltb 0.000001 _); [discriminate|].
  destruct (Qltb (freeMargin (MockMTAPI.account_ m1)) _); [discriminate|].
  intros _. exists info. split; [reflexivity|].
  unfold MockMTAPI.generatePrice, MockMTAPI.generateTicketId,
    MockMTAPI.failDist.
  simpl. rewrite Htable, Hinfo. simpl. rewrite Hdraw.
  destruct (Hrng (MockMTAPI.position (MockMTAPI.rng_ m1))) as [Hlo Hhi].
  destruct (Req.tradeType request); simpl; split; lra.
Qed.

Lemma fill_price_near_quote_witness :
  ∃ info,
    MockMTAPI.symbols_ Examples.accepting !! "EURUSD" = Some info
    ∧ (ask info - 0.00005
       <= Res.executionPrice
            (MockMTAPI.executeTrade (text := Examples.fixed6)
               Examples.buy_eurusd Examples.accepting).1)%Q.
Proof.
  destruct (fill_price_near_quote (text := Examples.fixed6)
              Examples.buy_eurusd Examples.accepting)
    as (info & Hinfo & Hlo & _).
  - intros n. vm_compute. split; [discriminate|reflexivity].
  - vm_compute. reflexivity.
  - exists info. split; [exact Hinfo|exact Hlo].
Defined.

Section MockTickets.
Context {text : DoubleToString}.
Import MockMTAPI.

(** Over a run that does not exhaust the 64-bit counter, the tickets handed
    out are the decimal texts of the counter values passed, each stored
    under its ticket, and no other entry of the store is touched. *)
Lemma execute_all_tickets requests : ∀ (m : MockMTAPI),
  0 ≤ ticketCounter_ m →
  ticketCounter_ m + Z.of_nat (length requests) < 2 ^ 64 →
  let results := (MockRun.execute_all requests m).1 in
  let m' := (MockRun.execute_all requests m).2 in
  ticketCounter_ m ≤ ticketCounter_ m'
  ∧ (∀ r, r ∈ results → Res.status r = SUCCESS →
       ∃ c, ticketCounter_ m ≤ c < ticketCounter_ m'
            ∧ Res.mtTicketId r = to_string_int c
            ∧ executedTrades_ m' !! to_string_int c = Some r)
  ∧ (∀ c, ¬ (ticketCounter_ m ≤ c < ticketCounter_ m') →
       executedTrades_ m' !! to_string_int c
       = executedTrades_ m !! to_string_int c)
  ∧ NoDup (MockRun.tickets results).
Proof.
  induction requests as [|request requests IH]; intros m Hpos Hroom.
  { simpl. split; [lia|]. split; [intros r Hr; inversion Hr|].
    split; [reflexivity|]. unfold MockRun.tickets. simpl. constructor. }
  cbv zeta. rewrite execute_all_cons. cbn [fst snd].
  rewrite length_cons in Hroom.
  set (r0 := (executeTrade request m).1).
  set (m1 := (executeTrade request m).2).
  destruct (executeTrade_cases request m)
    as [(Hok & Hticket & Hcounter & Htrades & _)
       | (Hfail & Hcounter & Htrades & _)];
    fold r0 in Hok || fold r0 in Hfail;
    try fold r0 in Hticket; fold m1 in Hcounter; fold m1 in Htrades;
    try fold r0 in Htrades.
  - rewrite Z.mod_small in Hcounter by lia.
    destruct (IH m1) as (Hle & Hres & Hframe & Hnodup); [lia|lia|].
    split; [lia|]. split; [|split].
    + intros r Hr Hr_ok. apply elem_of_cons in Hr as [-> | Hr].
      * exists (ticketCounter_ m). split; [lia|]. split; [exact Hticket|].
        rewrite Hframe by lia. rewrite Htrades, Hticket.
        apply lookup_insert_eq.
      * destruct (Hres r Hr Hr_ok) as (c & Hc & Hid & Hget).
        exists c. split; [lia|]. split; assumption.
    + intros c Hc. rewrite Hframe by lia. rewrite Htrades, Hticket.
      apply lookup_insert_ne. intros Heq.
      apply (inj to_string_int) in Heq. lia.
    + unfold MockRun.tickets. rewrite filter_cons_True by exact Hok.
      rewrite fmap_cons. apply NoDup_cons. split; [|exact Hnodup].
      intros Hin. apply list_elem_of_fmap in Hin as (r & Hid & Hr).
      apply list_elem_of_filter in Hr as [Hr_ok Hr].
      destruct (Hres r Hr Hr_ok) as (c & Hc & Hid' & _).
      rewrite Hticket, Hid' in Hid. apply (inj to_string_int) in Hid. lia.
  - destruct (IH m1) as (Hle & Hres & Hframe & Hnodup); [lia|lia|].
    split; [lia|]. split; [|split].
    + intros r Hr Hr_ok. apply elem_of_cons in Hr as [-> | Hr];
        [destruct (Hfail Hr_ok)|].
      destruct (Hres r Hr Hr_ok) as (c & Hc & Hid & Hget).
      exists c. split; [lia|]. split; assumption.
    + intros c Hc. rewrite Hframe by lia. rewrite Htrades. reflexivity.
    + unfold MockRun.tickets. rewrite filter_cons_False by exact Hfail.
      exact Hnodup.
Qed.
End MockTickets.

(** X24: tickets are unique.  Over any run of [executeTrade] calls that
    does not exhaust the 64-bit ticket counter, no two executed trades get
    the same ticket, and after the run [getTicketInfo] still returns every
    executed trade under its ticket. *)
Theorem mock_tickets_unique :
  ∀ {text : DoubleToString} (requests : list TradeRequest)
    (m : MockMTAPI.MockMTAPI),
    0 ≤ MockMTAPI.ticketCounter_ m →
    MockMTAPI.ticketCounter_ m + Z.of_nat (length requests) < 2 ^ 64 →
    let results := (MockRun.execute_all requests m).1 in
    let m' := (MockRun.execute_all requests m).2 in
    NoDup (MockRun.tickets results)
    ∧ ∀ r, r ∈ results → Res.status r = SUCCESS →
        (MockMTAPI.getTicketInfo (Res.mtTicketId r) m').1 = Some r.
Proof.
  intros text requests m Hpos Hroom results m'.
  destruct (execute_all_tickets requests m Hpos Hroom)
    as (_ & Hres & _ & Hnodup).
  split; [exact Hnodup|].
  intros r Hr Hok. destruct (Hres r Hr Hok) as (c & _ & Hid & Hget).
  unfold MockMTAPI.getTicketInfo. simpl. rewrite Hid. exact Hget.
Qed.

Lemma mock_tickets_unique_witness :
  NoDup (MockRun.tickets
           (MockRun.execute_all (text := Examples.fixed6)
              [Examples.buy_eurusd; Examples.unknown_symbol;
               Examples.buy_eurusd] Examples.accepting).1).
Proof.
  apply (mock_tickets_unique (text := Examples.fixed6)
           [Examples.buy_eurusd; Examples.unknown_symbol;
            Examples.buy_eurusd] Examples.accepting).
  - vm_compute. discriminate.
  - vm_compute. reflexivity.
Defined.

(** X25: the symbol list.  [getSymbols] lists every symbol of the table
    once, leaves the broker as it is, and a symbol is listed exactly when
    [getSymbolInfo] answers for it; for a broker fresh from the constructor
    these are the six symbols of the constructor, in some order. *)
Theorem getSymbols_lists_the_table :
  ∀ (m : MockMTAPI.MockMTAPI),
    NoDup (MockMTAPI.getSymbols m).1
    ∧ (MockMTAPI.getSymbols m).2 = m
    ∧ (∀ symbol, symbol ∈ (MockMTAPI.getSymbols m).1
                 ↔ is_Some (MockMTAPI.getSymbolInfo symbol m).1)
    ∧ (MockMTAPI.symbols_ m = MockMTAPI.initial_symbols →
       (MockMTAPI.getSymbols m).1
       ≡ₚ ["EURUSD"; "GBPUSD"; "USDJPY"; "AUDUSD"; "USDCAD"; "XAUUSD"]).
Proof.
  intros m. unfold MockMTAPI.getSymbols. simpl.
  split; [apply NoDup_fst_map_to_list|]. split; [reflexivity|]. split.
  - intros symbol. rewrite list_elem_of_fmap. unfold MockMTAPI.getSymbolInfo.
    split.
    + intros ([k info] & -> & Hin). apply elem_of_map_to_list in Hin.
      simpl. rewrite Hin. unfold MockMTAPI.failDist. simpl. eexists.
      reflexivity.
    + destruct (MockMTAPI.symbols_ m !! symbol) as [info|] eqn:Hinfo.
      * intros _. exists (symbol, info). split; [reflexivity|].
        apply elem_of_map_to_list. exact Hinfo.
      * simpl. intros [x Hx]. discriminate Hx.
  - intros ->. apply NoDup_Permutation.
    + apply NoDup_fst_map_to_list.
    + apply (bool_decide_unpack _). vm_compute. exact I.
    + intros symbol. rewrite list_elem_of_fmap. split.
      * intros ([k info] & -> & Hin). apply elem_of_map_to_list in Hin.
        simpl. unfold MockMTAPI.initial_symbols in Hin.
        repeat (apply lookup_insert_Some in Hin
                as [[<- _] | [_ Hin]]; [repeat constructor|]).
        rewrite lookup_empty in Hin. discriminate Hin.
      * intros Hin. 
        assert (is_Some (MockMTAPI.initial_symbols !! symbol)) as [info Hinfo].
        { repeat (apply elem_of_cons in Hin as [-> | Hin];
                  [vm_compute; eexists; reflexivity|]).
          inversion Hin. }
        exists (symbol, info). split; [reflexivity|].
        apply elem_of_map_to_list. exact Hinfo.
Qed.

(** ** Request ids *)

Section RequestIds.
Import Stdlib.Strings.Ascii RequestId.

Lemma digit_pretty_N_char (d : N) :
  (d < 10)%N → digit (pretty_N_char d) = d.
Proof.
  intros Hd.
  assert (d = 0 ∨ d = 1 ∨ d = 2 ∨ d = 3 ∨ d = 4 ∨ d = 5 ∨ d = 6 ∨ d = 7
          ∨ d = 8 ∨ d = 9)%N as Hcases by lia.
  repeat (destruct Hcases as [-> | Hcases]; [reflexivity|]).
  subst d. reflexivity.
Qed.

Lemma pretty_N_char_no_dash (d : N) :
  Ascii.eqb (pretty_N_char d) "-"%char = false.
Proof. unfold pretty_N_char. repeat case_match; reflexivity. Qed.

Lemma read_pretty_N_go (x : N) : ∀ s, read 0 (pretty_N_go x s) = read x s.
Proof.
  induction (N.lt_wf_0 x) as [x _ IH]. intros s.
  destruct (N.eq_dec x 0%N) as [-> | Hx]; [reflexivity|].
  rewrite pretty_N_go_step by lia.
  rewrite IH by (apply N.div_lt; lia).
  simpl. rewrite digit_pretty_N_char by (apply N.mod_lt; lia).
  f_equal. rewrite N.mul_comm. symmetry. apply N.div_mod. lia.
Qed.

Lemma no_dash_pretty_N_go (x : N) : ∀ s,
  no_dash s = true → no_dash (pretty_N_go x s) = true.
Proof.
  induction (N.lt_wf_0 x) as [x _ IH]. intros s Hs.
  destruct (N.eq_dec x 0%N) as [-> | Hx]; [exact Hs|].
  rewrite pretty_N_go_step by lia.
  apply IH; [apply N.div_lt; lia|].
  simpl. rewrite pretty_N_char_no_dash, Hs. reflexivity.
Qed.

Lemma read_zeros n s : read 0 (zeros n +:+ s) = read 0 s.
Proof. induction n as [|n IH]; [reflexivity|exact IH]. Qed.

Lemma no_dash_zeros n s : no_dash s = true → no_dash (zeros n +:+ s) = true.
Proof. intros Hs. induction n as [|n IH]; [exact Hs|exact IH]. Qed.

(** The padded decimal text of a counter value has no dash and reads back
    as the value. *)
Lemma setw6_counter (c : Z) :
  0 ≤ c →
  no_dash (setw6 (to_string_int c)) = true
  ∧ read 0 (setw6 (to_string_int c)) = Z.to_N c.
Proof.
  intros Hc. unfold setw6. split.
  - apply no_dash_zeros. destruct c as [|p|p]; [reflexivity| |lia].
    unfold to_string_int, pretty, pretty_Z, pretty, pretty_positive,
      pretty, pretty_N.
    destruct (decide (N.pos p = 0%N)); [reflexivity|].
    apply no_dash_pretty_N_go. reflexivity.
  - rewrite read_zeros. destruct c as [|p|p]; [reflexivity| |lia].
    unfold to_string_int, pretty, pretty_Z, pretty, pretty_positive,
      pretty, pretty_N.
    destruct (decide (N.pos p = 0%N)); [discriminate|].
    rewrite read_pretty_N_go. reflexivity.
Qed.

Lemma no_dash_after_dash (a b : string) :
  no_dash (a +:+ String "-"%char b) = false.
Proof.
  induction a as [|x a IH]; [reflexivity|].
  simpl. rewrite IH. apply andb_false_r.
Qed.

(** A text is cut at its last dash in one way only. *)
Lemma cut_at_last_dash (s1 : string) : ∀ s2 d1 d2,
  no_dash d1 = true → no_dash d2 = true →
  s1 +:+ "-" +:+ d1 = s2 +:+ "-" +:+ d2 → s1 = s2 ∧ d1 = d2.
Proof.
  induction s1 as [|x s1 IH]; intros [|y s2] d1 d2 H1 H2 Heq;
    cbv [String.app String.append] in Heq; fold String.app in Heq.
  - injection Heq as ->. split; reflexivity.
  - injection Heq as <- ->. rewrite no_dash_after_dash in H1. discriminate H1.
  - injection Heq as -> <-. rewrite no_dash_after_dash in H2. discriminate H2.
  - injection Heq as -> Heq. destruct (IH s2 d1 d2 H1 H2 Heq) as [-> ->].
    split; reflexivity.
Qed.

Lemma generateRequestId_inj clientId1 clientId2 c1 c2 :
  0 ≤ c1 → 0 ≤ c2 →
  (generateRequestId clientId1 c1).1 = (generateRequestId clientId2 c2).1 →
  clientId1 = clientId2 ∧ c1 = c2.
Proof.
  intros H1 H2 Heq. unfold generateRequestId in Heq. simpl in Heq.
  destruct (setw6_counter c1 H1) as [Hd1 Hr1].
  destruct (setw6_counter c2 H2) as [Hd2 Hr2].
  destruct (cut_at_last_dash _ _ _ _ Hd1 Hd2 Heq) as [-> Hd].
  split; [reflexivity|]. rewrite Hd in Hr1. lia.
Qed.

Lemma generate_ids_range clientIds : ∀ counter id,
  0 ≤ counter →
  counter + Z.of_nat (length clientIds) < 2 ^ 64 →
  id ∈ generate_ids clientIds counter →
  ∃ clientId c, counter ≤ c ∧ id = (generateRequestId clientId c).1.
Proof.
  induction clientIds as [|clientId rest IH]; intros counter id Hpos Hroom Hin.
  { inversion Hin. }
  simpl in Hin, Hroom. apply elem_of_cons in Hin as [-> | Hin].
  - exists clientId, counter. split; [lia|reflexivity].
  - rewrite Z.mod_small in Hin by lia.
    destruct (IH (counter + 1) id) as (cl & c & Hc & Hid);
      [lia|lia|exact Hin|].
    exists cl, c. split; [lia|exact Hid].
Qed.
End RequestIds.

(** X26: a request id names its client and its counter value.  Two ids
    made by [generateRequestId] are equal only if they were made for the
    same client id from the same counter value, whatever characters the
    client ids contain. *)
Theorem request_id_names_client_and_counter :
  ∀ (clientId1 clientId2 : string) (c1 c2 : Z),
    0 ≤ c1 → 0 ≤ c2 →
    (RequestId.generateRequestId clientId1 c1).1
    = (RequestId.generateRequestId clientId2 c2).1 →
    clientId1 = clientId2 ∧ c1 = c2.
Proof. exact generateRequestId_inj. Qed.

Lemma request_id_names_client_and_counter_witness :
  (RequestId.generateRequestId "C-1" 7).1 = "C-1-000007"
  ∧ ∀ clientId,
      (RequestId.generateRequestId clientId 1000007).1 = "C-1-000007" →
      False.
Proof.
  split; [reflexivity|]. intros clientId Heq.
  destruct (request_id_names_client_and_counter clientId "C-1" 1000007 7)
    as [_ Hc]; [lia|lia|exact Heq|discriminate Hc].
Defined.

(** X27: request ids are unique.  The ids made by any run of
    [generateRequestId] calls that does not exhaust the 64-bit counter are
    pairwise different, whichever clients they are made for. *)
Theorem request_ids_unique :
  ∀ (clientIds : list string) (counter : Z),
    0 ≤ counter →
    counter + Z.of_nat (length clientIds) < 2 ^ 64 →
    NoDup (RequestId.generate_ids clientIds counter).
Proof.
  induction clientIds as [|clientId rest IH]; intros counter Hpos Hroom.
  { constructor. }
  simpl in Hroom |- *. rewrite Z.mod_small by lia.
  apply NoDup_cons. split; [|apply IH; lia].
  intros Hin.
  destruct (generate_ids_range rest (counter + 1) _ ltac:(lia) ltac:(lia) Hin)
    as (cl & c & Hc & Hid).
  apply generateRequestId_inj in Hid; [lia|lia|lia].
Qed.

Lemma request_ids_unique_witness :
  NoDup (RequestId.generate_ids ["C1"; "C2"; "C1"] 999999).
Proof. apply request_ids_unique; [lia|simpl; lia]. Defined.

(** ** The client simulator in front of the validator *)

Section SimulatedClients.
Context {text : DoubleToString}.

(** [validate] over the mock broker lets through a request with a fresh id,
    a client id, a positive volume inside the limits of a table symbol that
    may be traded, and positive stop loss and take profit where present. *)
Lemma validate_passes_at_mock (request : TradeRequest) (now : Z)
    (v : Validator.Validator) (w : World MockMTAPI.MockMTAPI) info :
  Req.requestId request ∉ Validator.seenRequests_ v →
  Req.clientId request ≠ "" →
  Req.symbol request ≠ "" →
  (0 < Req.volume request)%Q →
  MockMTAPI.symbols_ (api_ w) !! Req.symbol request = Some info →
  tradeAllowed info = true →
  (minVolume info <= Req.volume request)%Q →
  (Req.volume request <= maxVolume info)%Q →
  Validator.positive_if_present (Req.stopLoss request) →
  Validator.positive_if_present (Req.takeProfit request) →
  (Validator.validate request now v w).1.1 = None.
Proof.
  intros Hfresh Hclient Hsymbol Hvolume Hinfo Hallowed Hmin Hmax Hsl Htp.
  pose proof (validate_outcome request now v w) as Hout. cbv zeta in Hout.
  destruct (Validator.validate request now v w).1.1 as [result|];
    [|reflexivity].
  destruct Hout as (c & Hfirst & _). exfalso.
  apply first_failing_not_all in Hfirst. apply Hfirst.
  assert (Hquote : ∃ quote,
            (getSymbolInfo (Req.symbol request) (api_ w)).1 = Some quote
            ∧ tradeAllowed quote = true
            ∧ minVolume quote = minVolume info
            ∧ maxVolume quote = maxVolume info).
  { simpl. unfold MockMTAPI.getSymbolInfo. rewrite Hinfo.
    unfold MockMTAPI.failDist. simpl. eexists. split; [reflexivity|].
    simpl. split; [exact Hallowed|split; reflexivity]. }
  destruct Hquote as (quote & -> & Hq_allowed & Hq_min & Hq_max).
  unfold Validator.check_order.
  constructor; [exact Hfresh|].
  constructor; [split; assumption|].
  constructor; [exact Hvolume|].
  constructor; [eexists; reflexivity|].
  constructor; [exists quote; split; [reflexivity|exact Hq_allowed]|].
  constructor;
    [exists quote; split; [reflexivity|]; rewrite Hq_min, Hq_max;
     split; assumption|].
  constructor; [split; assumption|].
  constructor.
Qed.

(** The six symbols of the simulator are symbols of the broker's table,
    open for trading, with a step and a least volume of 0.01 and a largest
    volume of 50 or more. *)
Lemma simulator_symbols_are_listed (symbolDraw : Z) :
  0 ≤ symbolDraw ≤ 5 →
  let symbol := default "" (ClientSimulator.symbols_ !! Z.to_nat symbolDraw) in
  symbol ≠ ""
  ∧ ∃ info, MockMTAPI.initial_symbols !! symbol = Some info
      ∧ tradeAllowed info = true
      ∧ minVolume info = 0.01%Q
      ∧ volumeStep info = 0.01%Q
      ∧ (50 <= maxVolume info)%Q.
Proof.
  intros Hdraw.
  assert (symbolDraw = 0 ∨ symbolDraw = 1 ∨ symbolDraw = 2 ∨ symbolDraw = 3
          ∨ symbolDraw = 4 ∨ symbolDraw = 5) as Hcases by lia.
  repeat (destruct Hcases as [-> | Hcases];
          [split; [discriminate|]; eexists;
           split; [vm_compute; reflexivity|];
           repeat split; vm_compute; discriminate|]).
  subst symbolDraw. split; [discriminate|]. eexists.
  split; [vm_compute; reflexivity|]. repeat split; vm_compute; discriminate.
Qed.
End SimulatedClients.

(** X28: the requests of [generateRequest] are well formed.  For draws
    inside the ranges of the distributions, a client id that is not empty
    and a request id not seen before, the generated request passes
    [validate] over a mock broker holding the constructor's symbol table,
    and the [executeTrade] that follows answers SUCCESS, CONNECTION_ERROR or
    MARGIN_ERROR: the generated volume is a whole number of steps. *)
Theorem generated_request_is_well_formed :
  ∀ {text : DoubleToString} (config : ClientSimulator.Config)
    (counter now typeDraw symbolDraw volumeDraw slTpDraw now' : Z)
    (v : Validator.Validator) (w : World MockMTAPI.MockMTAPI),
    let request :=
      (ClientSimulator.generateRequest config counter now typeDraw symbolDraw
         volumeDraw slTpDraw).1 in
    ClientSimulator.clientId config ≠ "" →
    0 ≤ symbolDraw ≤ 5 →
    1 ≤ volumeDraw ≤ 50 →
    Req.requestId request ∉ Validator.seenRequests_ v →
    MockMTAPI.symbols_ (api_ w) = MockMTAPI.initial_symbols →
    (Validator.validate request now' v w).1.1 = None
    ∧ let r := (MockMTAPI.executeTrade request
                  (api_ (Validator.validate request now' v w).2)).1 in
      Res.status r = SUCCESS ∨ Res.status r = CONNECTION_ERROR
      ∨ Res.status r = MARGIN_ERROR.
Proof.
  intros text config counter now typeDraw symbolDraw volumeDraw slTpDraw now'
    v w request Hclient Hsymbol Hvolume Hfresh Htable.
  destruct (simulator_symbols_are_listed symbolDraw Hsymbol)
    as (Hnonempty & info & Hinfo & Hallowed & Hmin & Hstep & Hmax).
  cbv zeta in Hnonempty, Hinfo.
  assert (Hreq_symbol : Req.symbol request
            = default "" (ClientSimulator.symbols_ !! Z.to_nat symbolDraw)).
  { unfold request, ClientSimulator.generateRequest. simpl.
    repeat case_bool_decide; reflexivity. }
  assert (Hreq_volume : Req.volume request = (inject_Z volumeDraw * 0.01)%Q).
  { unfold request, ClientSimulator.generateRequest. simpl.
    repeat case_bool_decide; reflexivity. }
  assert (Hreq_client : Req.clientId request = ClientSimulator.clientId config).
  { unfold request, ClientSimulator.generateRequest. simpl.
    repeat case_bool_decide; reflexivity. }
  assert (Hlo : (inject_Z 1 <= inject_Z volumeDraw)%Q)
    by (rewrite <- Zle_Qle; lia).
  assert (Hhi : (inject_Z volumeDraw <= inject_Z 50)%Q)
    by (rewrite <- Zle_Qle; lia).
  change (inject_Z 1) with 1%Q in Hlo. change (inject_Z 50) with 50%Q in Hhi.
  assert (Hpositive : Validator.positive_if_present (Req.stopLoss request)
                      ∧ Validator.positive_if_present (Req.takeProfit request)).
  { unfold request, ClientSimulator.generateRequest. simpl.
    repeat case_bool_decide; simpl; split; try exact I; reflexivity. }
  destruct Hpositive as [Hsl Htp].
  assert (Hpass : (Validator.validate request now' v w).1.1 = None).
  { apply (validate_passes_at_mock request now' v w info); try assumption.
    - rewrite Hreq_client. exact Hclient.
    - rewrite Hreq_symbol. exact Hnonempty.
    - rewrite Hreq_volume. lra.
    - rewrite Htable, Hreq_symbol. exact Hinfo.
    - rewrite Hmin, Hreq_volume. lra.
    - rewrite Hreq_volume. lra. }
  split; [exact Hpass|]. cbv zeta.
  set (m := api_ (Validator.validate request now' v w).2).
  assert (Hm : MockMTAPI.symbols_ m = MockMTAPI.symbols_ (api_ w)).
  { unfold m. destruct (validate_broker request now' v w) as [-> | ->];
      [reflexivity|].
    simpl. unfold MockMTAPI.getSymbolInfo.
    destruct (MockMTAPI.symbols_ (api_ w) !! Req.symbol request);
      reflexivity. }
  assert (Hinfo_m : MockMTAPI.symbols_ m !! Req.symbol request = Some info).
  { rewrite Hm, Htable, Hreq_symbol. exact Hinfo. }
  destruct (executeTrade_admissible request m info Hinfo_m Hallowed)
    as [H | [H | [H | (_ & Hbad & _)]]].
  - rewrite Hmin, Hreq_volume. lra.
  - rewrite Hreq_volume. lra.
  - left. exact H.
  - right. left. exact H.
  - right. right. exact H.
  - rewrite (step_check_passes volumeDraw) in Hbad; [discriminate Hbad| |].
    + rewrite Hstep. reflexivity.
    + rewrite Hstep, Hreq_volume. reflexivity.
Qed.

Lemma generated_request_is_well_formed_witness :
  (Validator.validate (broker := Examples.broker) (text := Examples.fixed6)
     (ClientSimulator.generateRequest
        (ClientSimulator.mkConfig "C1" 10 50 200 true) 0 0 1 5 50 0).1
     0 Validator.new (Examples.world Examples.accepting)).1.1 = None.
Proof.
  apply (generated_request_is_well_formed (text := Examples.fixed6)
           (ClientSimulator.mkConfig "C1" 10 50 200 true) 0 0 1 5 50 0 0
           Validator.new (Examples.world Examples.accepting)).
  - discriminate.
  - lia.
  - lia.
  - apply not_elem_of_empty.
  - reflexivity.
Defined.

Lemma bad_symbols_in_table :
  MockMTAPI.initial_symbols !! "INVALID" = None
  ∧ MockMTAPI.initial_symbols !! "EURUSD"
    = Some (mkSymbolInfo "EURUSD" 1.08450 1.08465 0.01 100 0.01 5 true)
  ∧ MockMTAPI.initial_symbols !! "GBPUSD"
    = Some (mkSymbolInfo "GBPUSD" 1.26320 1.26340 0.01 100 0.01 5 true).
Proof. repeat split. Qed.

(** X29: the requests of [generateBadRequest] are all refused by the
    validator.  For each of the four error types and a request id not seen
    before, [validate] over a mock broker holding the constructor's symbol
    table answers INVALID_PARAMS, never REJECTED; with a client id that is
    not empty the message names the check that fails: the unknown symbol,
    the zero volume, the volume above the limit, the negative stop loss. *)
Theorem bad_request_is_refused :
  ∀ {text : DoubleToString} (config : ClientSimulator.Config)
    (counter now errorDraw : Z) (tradeType0 : TradeType) (volume0 : Q)
    (now' : Z) (v : Validator.Validator) (w : World MockMTAPI.MockMTAPI),
    let request :=
      (ClientSimulator.generateBadRequest config counter now errorDraw
         tradeType0 volume0).1 in
    0 ≤ errorDraw ≤ 3 →
    Req.requestId request ∉ Validator.seenRequests_ v →
    MockMTAPI.symbols_ (api_ w) = MockMTAPI.initial_symbols →
    Req.isTestBadRequest request = true
    ∧ ∃ r, (Validator.validate request now' v w).1.1 = Some r
        ∧ Res.status r = INVALID_PARAMS
        ∧ (ClientSimulator.clientId config ≠ "" →
           Res.errorMessage r
           = match errorDraw with
             | 0 => "Unknown symbol: INVALID"
             | 1 => "Invalid volume: " +:+ to_string_double 0.0%Q
             | 2 => "Volume " +:+ to_string_double 999.0%Q +:+
                    " outside range [" +:+ to_string_double 0.01%Q +:+
                    ", " +:+ to_string_double 100%Q +:+ "]"
             | _ => "Invalid stop loss: " +:+ to_string_double (-1.0)%Q
             end).
Proof.
  intros text config counter now errorDraw tradeType0 volume0 now' v w request
    Hdraw Hfresh Htable.
  destruct bad_symbols_in_table as (Hinvalid & Heurusd & Hgbpusd).
  assert (errorDraw = 0 ∨ errorDraw = 1 ∨ errorDraw = 2 ∨ errorDraw = 3)
    as [-> | [-> | [-> | ->]]] by lia.
  all: split; [reflexivity|].
  all: rewrite validate_fresh by exact Hfresh.
  all: unfold Validator.validate_params, api_getSymbolInfo; simpl.
  all: unfold MockMTAPI.getSymbolInfo; try rewrite Htable.
  all: case_bool_decide as Hclient;
    [eexists; split; [reflexivity|]; split; [reflexivity|];
     intros Hne; destruct (Hne Hclient)|].
  - rewrite Hinvalid. simpl. eexists. split; [reflexivity|].
    split; reflexivity.
  - simpl. eexists. split; [reflexivity|]. split; reflexivity.
  - rewrite Heurusd. simpl. eexists. split; [reflexivity|].
    split; reflexivity.
  - rewrite Hgbpusd. simpl. eexists. split; [reflexivity|].
    split; reflexivity.
Qed.

Lemma bad_request_is_refused_witness :
  ∃ r,
    (Validator.validate (broker := Examples.broker) (text := Examples.fixed6)
       (ClientSimulator.generateBadRequest
          (ClientSimulator.mkConfig "C1" 10 50 200 true) 0 0 3 BUY 0).1
       0 Validator.new (Examples.world Examples.accepting)).1.1 = Some r
    ∧ Res.status r = INVALID_PARAMS.
Proof.
  destruct (bad_request_is_refused (text := Examples.fixed6)
              (ClientSimulator.mkConfig "C1" 10 50 200 true) 0 0 3 BUY 0 0
              Validator.new (Examples.world Examples.accepting))
    as (_ & r & Hr & Hstatus & _).
  - lia.
  - apply not_elem_of_empty.
  - reflexivity.
  - exists r. split; [exact Hr|exact Hstatus].
Defined.
